(** * Order session machine and notification dispatcher of the food-ordering
      webhook (webhook/main.py, webhook/db_helper.py,
      webhook/notification_system.py)

    The Python handlers are embedded as functions in a small state-and-exception
    monad over a [world] that holds the MongoDB collections, the environment of
    the notification system, the answers of the outside network and the trace of
    outbound calls.  Python dicts are insertion-ordered association lists,
    JSON values of the Dialogflow parameter bag are the inductive [pyval]
    (JSON floats are outside the model; prices and quantities are integers). *)

From Stdlib Require Import ZArith List String Ascii Bool Lia DecimalString.
Import ListNotations.
Local Open Scope string_scope.
Local Open Scope Z_scope.

Set Implicit Arguments.

(* ===================================================================== *)
(** ** Python values and strings *)
(* ===================================================================== *)

Module Py.

(** JSON values as Python sees them after [request.json()]. *)
#[warnings="-register-all"]
Inductive pyval : Type :=
| PNone
| PBool (b : bool)
| PInt (z : Z)
| PStr (s : string)
| PList (l : list pyval)
| PDict (d : list (string * pyval)).

(** Python exceptions the handlers can meet. *)
Inductive exn : Type :=
| KeyError (key : string)
| TypeError (what : string)
| ValueError (what : string)
| AttributeError (what : string)
| PyMongoError (what : string)
| RequestException (what : string)
| SMTPException (what : string)
| OverflowError (what : string).

(** [str(e)] as used in the error records of the notification system. *)
Definition str_of_exn (e : exn) : string :=
  match e with
  | KeyError k => "'" ++ k ++ "'"
  | TypeError s | ValueError s | AttributeError s
  | PyMongoError s | RequestException s | SMTPException s
  | OverflowError s => s
  end.

(** Truthiness ([if x], [not x], [x or y]). *)
Definition truthy (v : pyval) : bool :=
  match v with
  | PNone => false
  | PBool b => b
  | PInt z => negb (z =? 0)
  | PStr s => negb (String.eqb s "")
  | PList l => match l with [] => false | _ => true end
  | PDict d => match d with [] => false | _ => true end
  end.

Definition is_list (v : pyval) : bool :=
  match v with PList _ => true | _ => false end.

Definition is_str (v : pyval) : bool :=
  match v with PStr _ => true | _ => false end.

(** *** Characters *)

Definition char_between (lo hi c : ascii) : bool :=
  ((nat_of_ascii lo <=? nat_of_ascii c) && (nat_of_ascii c <=? nat_of_ascii hi))%nat.

Definition is_lower (c : ascii) : bool := char_between "a" "z" c.
Definition is_upper (c : ascii) : bool := char_between "A" "Z" c.
Definition is_digit (c : ascii) : bool := char_between "0" "9" c.
Definition is_alpha (c : ascii) : bool := is_lower c || is_upper c.

(** ASCII white space, the characters [str.strip()] and [int()] drop. *)
Definition is_space (c : ascii) : bool :=
  let n := nat_of_ascii c in
  ((n =? 32) || ((9 <=? n) && (n <=? 13)) || ((28 <=? n) && (n <=? 31)))%nat.

Definition lower_char (c : ascii) : ascii :=
  if is_upper c then ascii_of_nat (nat_of_ascii c + 32) else c.

Definition upper_char (c : ascii) : ascii :=
  if is_lower c then ascii_of_nat (nat_of_ascii c - 32) else c.

(** *** Strings *)

Fixpoint str_map (f : ascii -> ascii) (s : string) : string :=
  match s with
  | EmptyString => EmptyString
  | String c r => String (f c) (str_map f r)
  end.

Fixpoint str_filter (p : ascii -> bool) (s : string) : string :=
  match s with
  | EmptyString => EmptyString
  | String c r => if p c then String c (str_filter p r) else str_filter p r
  end.

(** [s.lower()] on the ASCII range. *)
Definition lower (s : string) : string := str_map lower_char s.

Fixpoint lstrip (s : string) : string :=
  match s with
  | String c r => if is_space c then lstrip r else s
  | EmptyString => EmptyString
  end.

Definition str_rev (s : string) : string :=
  string_of_list_ascii (rev (list_ascii_of_string s)).

(** [s.strip()]. *)
Definition strip (s : string) : string :=
  str_rev (lstrip (str_rev (lstrip s))).

(** [s[:n]]. *)
Fixpoint take (n : nat) (s : string) : string :=
  match n, s with
  | S k, String c r => String c (take k r)
  | _, _ => EmptyString
  end.

(** [s[n:]]. *)
Fixpoint drop (n : nat) (s : string) : string :=
  match n, s with
  | S k, String _ r => drop k r
  | _, _ => s
  end.

(** [s.startswith(p)]. *)
Definition startswith (p s : string) : bool := String.prefix p s.

(** [s.replace(c, '')] for a one-character [c]. *)
Definition remove_char (c : ascii) (s : string) : string :=
  str_filter (fun x => negb (Ascii.eqb x c)) s.

(** [s.title()] on the ASCII range: a letter is upper-cased when it follows a
    character that is not a letter, lower-cased otherwise. *)
Fixpoint title_from (prev_cased : bool) (s : string) : string :=
  match s with
  | EmptyString => EmptyString
  | String c r =>
      String (if prev_cased then lower_char c else upper_char c)
             (title_from (is_alpha c) r)
  end.

Definition title (s : string) : string := title_from false s.

(** [sep.join(l)]. *)
Fixpoint join (sep : string) (l : list string) : string :=
  match l with
  | [] => ""
  | [x] => x
  | x :: r => x ++ sep ++ join sep r
  end.

(** [str(z)] and the [{z}] of an f-string, for an int. *)
Definition str_of_Z (z : Z) : string := NilZero.string_of_int (Z.to_int z).

(** [f"{z:.2f}"] for an int [z]. *)
Definition fmt_2f (z : Z) : string := str_of_Z z ++ ".00".

(** *** [int(...)] *)

Definition digit_val (c : ascii) : Z := Z.of_nat (nat_of_ascii c) - 48.

(** Digits with single underscores between them, as [int()] accepts. *)
Fixpoint parse_digits (prev_digit : bool) (acc : Z) (s : string) : option Z :=
  match s with
  | EmptyString => if prev_digit then Some acc else None
  | String c r =>
      if is_digit c then parse_digits true (10 * acc + digit_val c) r
      else if Ascii.eqb c "_" then
        (if prev_digit then parse_digits false acc r else None)
      else None
  end.

Definition int_of_str (s : string) : option Z :=
  match strip s with
  | String "-" r => option_map Z.opp (parse_digits false 0 r)
  | String "+" r => parse_digits false 0 r
  | t => parse_digits false 0 t
  end.

(** [int(q)]. *)
Definition py_int (v : pyval) : exn + Z :=
  match v with
  | PInt z => inr z
  | PBool b => inr (if b then 1 else 0)
  | PStr s =>
      match int_of_str s with
      | Some z => inr z
      | None => inl (ValueError "invalid literal for int() with base 10")
      end
  | _ => inl (TypeError "int() argument must be a string, a bytes-like object or a real number")
  end.

(** [[int(q) for q in l]]: the first failing conversion raises. *)
Fixpoint py_ints (l : list pyval) : exn + list Z :=
  match l with
  | [] => inr []
  | q :: r =>
      match py_int q with
      | inl e => inl e
      | inr z =>
          match py_ints r with
          | inl e => inl e
          | inr zs => inr (z :: zs)
          end
      end
  end.

(** Iterating a value ([for q in v]). *)
Definition py_iter (v : pyval) : exn + list pyval :=
  match v with
  | PList l => inr l
  | PStr s => inr (map (fun c => PStr (String c "")) (list_ascii_of_string s))
  | PDict d => inr (map (fun kv => PStr (fst kv)) d)
  | _ => inl (TypeError "object is not iterable")
  end.

(** [repr(v)]; the quoting of a string is modelled without escapes. *)
Fixpoint py_repr (v : pyval) : string :=
  match v with
  | PNone => "None"
  | PBool b => if b then "True" else "False"
  | PInt z => str_of_Z z
  | PStr s => "'" ++ s ++ "'"
  | PList l => "[" ++ join ", " (map py_repr l) ++ "]"
  | PDict d =>
      "{" ++ join ", " (map (fun kv : string * pyval =>
                          let (k, x) := kv in "'" ++ k ++ "': " ++ py_repr x) d) ++ "}"
  end.

(** [str(v)] and the [{v}] of an f-string. *)
Definition py_str (v : pyval) : string :=
  match v with
  | PStr s => s
  | _ => py_repr v
  end.

End Py.

Import Py.

(* ===================================================================== *)
(** ** Python dicts *)
(* ===================================================================== *)

(** A [dict] with string keys: an association list in insertion order, one
    entry per key. *)
Module Dict.
Section Ops.
Variable V : Type.

Definition t := list (string * V).

(** [d.get(k)] *)
Fixpoint get (k : string) (d : t) : option V :=
  match d with
  | [] => None
  | (k', v) :: r => if String.eqb k k' then Some v else get k r
  end.

(** [k in d] *)
Definition mem (k : string) (d : t) : bool :=
  match get k d with Some _ => true | None => false end.

(** [d[k] = v]: an existing key keeps its place, a new one goes last. *)
Fixpoint set (k : string) (v : V) (d : t) : t :=
  match d with
  | [] => [(k, v)]
  | (k', v') :: r =>
      if String.eqb k k' then (k, v) :: r else (k', v') :: set k v r
  end.

(** The dict left by [del d[k]] when [k] is a key. *)
Definition remove (k : string) (d : t) : t :=
  filter (fun kv => negb (String.eqb k (fst kv))) d.

(** A collection without its first document under [k] (what [delete_one]
    leaves). *)
Fixpoint remove_first (k : string) (d : t) : t :=
  match d with
  | [] => []
  | (k', v') :: r =>
      if String.eqb k k' then r else (k', v') :: remove_first k r
  end.

(** [dict(zip(ks, vs))] *)
Fixpoint of_zip (acc : t) (ks : list string) (vs : list V) : t :=
  match ks, vs with
  | k :: ks', v :: vs' => of_zip (set k v acc) ks' vs'
  | _, _ => acc
  end.

Definition keys (d : t) : list string := map fst d.
Definition values (d : t) : list V := map snd d.
End Ops.
End Dict.

(** The in-progress cart: item name to quantity. *)
Definition cart := Dict.t Z.

(* ===================================================================== *)
(** ** The world: document store, environment, network, trace *)
(* ===================================================================== *)

(** A document of the [food_items] collection.  [price] is [None] when the
    document has no [price] key. *)
Record food_doc := FoodDoc {
  name : string;
  price : option Z;
  item_id : Z
}.

(** A document of the [user_contacts] collection; a missing key reads as
    [PNone], as [doc.get] returns it. *)
Record contact_doc := ContactDoc {
  phone : pyval;
  email : pyval
}.

(** The [os.getenv] values [NotificationSystem.__init__] reads. *)
Record environ := Environ {
  MSG91_AUTH_KEY : option string;
  MSG91_TEMPLATE_ID : option string;
  MSG91_SENDER_ID : option string;
  WHATSAPP_TOKEN : option string;
  WHATSAPP_PHONE_ID : option string;
  GREENAPI_INSTANCE_ID : option string;
  GREENAPI_TOKEN : option string;
  EMAIL_USER : option string;
  EMAIL_PASSWORD : option string
}.

(** What [requests.post] gives back: an exception, or a response with its
    [status_code], [text] and the value of [response.json()] ([None] when the
    body is not JSON). *)
Inductive http_outcome : Type :=
| HttpRaise (e : exn)
| HttpResponse (status_code : Z) (text : string) (json : option pyval).

(** The methods of [NotificationSystem] whose calls are traced. *)
Inductive method : Type :=
| SendSms | SendWhatsapp | SendEmail
| BusinessApi | GreenApi | SimpleWhatsapp.

(** Outbound events, oldest first. *)
Inductive event : Type :=
| Enter (m : method) (dest : pyval)
| HttpPost (url : string) (headers : list (string * string)) (json : pyval)
| SmtpSend (sender : string) (recipient : pyval) (subject html text : string).

Record world := World {
  food_items : list food_doc;
  inprogress_orders : Dict.t cart;
  user_contacts : Dict.t contact_doc;
  (** Schedule of the store: each pymongo call takes the head; [true] makes
      that call raise.  The empty schedule is a store that answers. *)
  faults : list bool;
  (** [time.time()], in seconds *)
  clock : Z;
  environment : environ;
  (** The outside world's answers to the last event of a trace: what
      [requests.post] returns, and whether the SMTP session raises. *)
  http : list event -> http_outcome;
  smtp : list event -> option exn;
  trace : list event
}.

Definition with_orders (o : Dict.t cart) (w : world) : world :=
  World (food_items w) o (user_contacts w) (faults w) (clock w)
        (environment w) (http w) (smtp w) (trace w).

Definition with_contacts (c : Dict.t contact_doc) (w : world) : world :=
  World (food_items w) (inprogress_orders w) c (faults w) (clock w)
        (environment w) (http w) (smtp w) (trace w).

Definition with_faults (f : list bool) (w : world) : world :=
  World (food_items w) (inprogress_orders w) (user_contacts w) f (clock w)
        (environment w) (http w) (smtp w) (trace w).

Definition with_trace (t : list event) (w : world) : world :=
  World (food_items w) (inprogress_orders w) (user_contacts w) (faults w)
        (clock w) (environment w) (http w) (smtp w) t.

(* ===================================================================== *)
(** ** State and exceptions *)
(* ===================================================================== *)

(** A Python computation: from a world to a value or a raised exception, and
    the world it leaves. *)
Definition M (A : Type) : Type := world -> (exn + A) * world.

Definition ret {A} (a : A) : M A := fun w => (inr a, w).

Definition raise {A} (e : exn) : M A := fun w => (inl e, w).

Definition bind {A B} (m : M A) (k : A -> M B) : M B :=
  fun w =>
    match m w with
    | (inr a, w') => k a w'
    | (inl e, w') => (inl e, w')
    end.

(** [try: m  except Exception as e: h e] *)
Definition try_except {A} (m : M A) (h : exn -> M A) : M A :=
  fun w =>
    match m w with
    | (inr a, w') => (inr a, w')
    | (inl e, w') => h e w'
    end.

(** A pure step that may raise. *)
Definition lift {A} (r : exn + A) : M A := fun w => (r, w).

Declare Scope py_scope.
Delimit Scope py_scope with py.
Notation "x <- m ;; k" := (bind m (fun x => k))
  (at level 61, m at next level, right associativity) : py_scope.
Notation "m ;; k" := (bind m (fun _ => k))
  (at level 61, right associativity) : py_scope.
Local Open Scope py_scope.

(** [for x in l: body x], the loop state threaded through. *)
Fixpoint for_each {A S} (l : list A) (body : A -> S -> M S) (s : S) : M S :=
  match l with
  | [] => ret s
  | x :: r => s' <- body x s ;; for_each r body s'
  end.

Definition emit (e : event) : M unit :=
  fun w => (inr tt, with_trace (trace w ++ [e]) w).

Definition getenv (f : environ -> option string) : M (option string) :=
  fun w => (inr (f (environment w)), w).

(** [time.time()] truncated by [int]. *)
Definition time_time : M Z := fun w => (inr (clock w), w).

(* ===================================================================== *)
(** ** pymongo *)
(* ===================================================================== *)

Module Mongo.

(** Every call to the server first meets the fault schedule. *)
Definition call {A} (op : world -> A * world) : M A :=
  fun w =>
    match faults w with
    | true :: f => (inl (PyMongoError "ServerSelectionTimeoutError"), with_faults f w)
    | false :: f => let (a, w') := op (with_faults f w) in (inr a, w')
    | [] => let (a, w') := op w in (inr a, w')
    end.

(** [{"name": {"$regex": "^" + re.escape(item) + "$", "$options": "i"}}]: the
    whole name, compared without regard to ASCII case (a stored name that ends
    in a line feed, which [$] would also accept, is outside the model). *)
Definition name_matches (item_name : string) (d : food_doc) : bool :=
  String.eqb (lower item_name) (lower (name d)).

(** [db.food_items.find_one({"name": ...})] *)
Definition find_food (item_name : string) : M (option food_doc) :=
  call (fun w => (find (name_matches item_name) (food_items w), w)).

(** [db.inprogress_orders.find_one({"session_id": sid})], the [order] field *)
Definition find_order (sid : string) : M (option cart) :=
  call (fun w => (Dict.get sid (inprogress_orders w), w)).

(** [db.inprogress_orders.update_one({"session_id": sid},
     {"$set": {"order": order}}, upsert=True)] *)
Definition upsert_order (sid : string) (order : cart) : M unit :=
  call (fun w => (tt, with_orders (Dict.set sid order (inprogress_orders w)) w)).

(** [db.inprogress_orders.delete_one({"session_id": sid})] *)
Definition delete_order (sid : string) : M unit :=
  call (fun w => (tt, with_orders (Dict.remove_first sid (inprogress_orders w)) w)).

(** [db.user_contacts.find_one({"session_id": sid})] *)
Definition find_contact (sid : string) : M (option contact_doc) :=
  call (fun w => (Dict.get sid (user_contacts w), w)).

(** [db.user_contacts.update_one({"session_id": sid}, {"$set": {field: v}},
     upsert=True)] *)
Definition upsert_contact (sid : string) (upd : contact_doc -> contact_doc) : M unit :=
  call (fun w =>
    let old := match Dict.get sid (user_contacts w) with
               | Some d => d
               | None => ContactDoc PNone PNone
               end in
    (tt, with_contacts (Dict.set sid (upd old) (user_contacts w)) w)).

(** [db.food_items.find_one(sort=[("item_id", -1)])]: a document of greatest
    [item_id], the first of them in the collection. *)
Fixpoint greatest_id (docs : list food_doc) : option food_doc :=
  match docs with
  | [] => None
  | d :: r =>
      match greatest_id r with
      | Some m => if item_id d <? item_id m then Some m else Some d
      | None => Some d
      end
  end.

Definition find_last_food : M (option food_doc) :=
  call (fun w => (greatest_id (food_items w), w)).

Definition with_food (f : list food_doc) (w : world) : world :=
  World f (inprogress_orders w) (user_contacts w) (faults w) (clock w)
        (environment w) (http w) (smtp w) (trace w).

(** An integer the BSON encoder takes: eight bytes, signed. *)
Definition fits_int64 (z : Z) : bool := (- 2 ^ 63 <=? z) && (z <? 2 ^ 63).

(** The integers of a menu document all fit. *)
Definition encodable (d : food_doc) : bool :=
  fits_int64 (item_id d)
  && match price d with Some p => fits_int64 p | None => true end.

(** [db.food_items.insert_one(item)]: the server is selected first; the
    document is encoded after that, and the encoder raises [OverflowError] for
    an integer of more than eight bytes, in which case nothing is sent. *)
Definition insert_food (d : food_doc) : M unit :=
  call (fun w => (tt, w)) ;;
  if encodable d
  then fun w => (inr tt, with_food (food_items w ++ [d]) w)
  else raise (OverflowError "MongoDB can only handle up to 8-byte ints").

(** The collection without its first document of the given [item_id]. *)
Fixpoint drop_id (id : Z) (docs : list food_doc) : list food_doc :=
  match docs with
  | [] => []
  | d :: r => if item_id d =? id then r else d :: drop_id id r
  end.

(** [db.food_items.delete_one({"item_id": id})], giving [deleted_count]. *)
Definition delete_food (id : Z) : M Z :=
  call (fun w =>
    (if existsb (fun d => item_id d =? id) (food_items w) then 1 else 0,
     with_food (drop_id id (food_items w)) w)).

End Mongo.

(* ===================================================================== *)
(** ** db_helper.py *)
(* ===================================================================== *)

Module db_helper.

Definition food_item_exists (item_name : string) : M bool :=
  try_except
    (doc <- Mongo.find_food item_name ;;
     ret (match doc with Some _ => true | None => false end))
    (fun _ => ret false).

Definition get_inprogress_order (session_id : string) : M cart :=
  try_except
    (doc <- Mongo.find_order session_id ;;
     match doc with
     | Some order => ret order
     | None => ret []
     end)
    (fun _ => ret []).

Definition set_inprogress_order (session_id : string) (order : cart) : M unit :=
  try_except (Mongo.upsert_order session_id order) (fun _ => ret tt).

Definition delete_inprogress_order (session_id : string) : M unit :=
  try_except (Mongo.delete_order session_id) (fun _ => ret tt).

Definition set_user_phone (session_id : string) (phone_number : pyval) : M bool :=
  try_except
    (Mongo.upsert_contact session_id (fun d => ContactDoc phone_number (email d)) ;;
     ret true)
    (fun _ => ret false).

Definition get_user_phone (session_id : string) : M pyval :=
  try_except
    (doc <- Mongo.find_contact session_id ;;
     match doc with
     | Some d => ret (phone d)
     | None => ret PNone
     end)
    (fun _ => ret PNone).

Definition set_user_email (session_id : string) (email_value : pyval) : M bool :=
  try_except
    (Mongo.upsert_contact session_id (fun d => ContactDoc (phone d) email_value) ;;
     ret true)
    (fun _ => ret false).

Definition get_user_email (session_id : string) : M pyval :=
  try_except
    (doc <- Mongo.find_contact session_id ;;
     match doc with
     | Some d => ret (email d)
     | None => ret PNone
     end)
    (fun _ => ret PNone).

Definition get_item_price (item_name : string) : M Z :=
  try_except
    (food <- Mongo.find_food item_name ;;
     match food with
     | Some f => ret (match price f with Some p => p | None => 0 end)
     | None => ret 0
     end)
    (fun _ => ret 0).


(** [add_menu_item] for an item dict that carries a string [name], optionally
    an integer [price], and no other key but possibly an [item_id], which is
    overwritten; in particular the dict has no [_id], so that [insert_one]
    gives the document a new one.  The menu documents carry integer
    [item_id]s, as [food_doc] has them. *)
Definition add_menu_item (item : food_doc) : M bool :=
  try_except
    (last <- Mongo.find_last_food ;;
     let new_id := match last with
                   | Some l => item_id l + 1
                   | None => 1
                   end in
     Mongo.insert_food (FoodDoc (name item) (price item) new_id) ;;
     ret true)
    (fun _ => ret false).

Definition delete_menu_item (id : Z) : M bool :=
  try_except
    (deleted_count <- Mongo.delete_food id ;;
     ret (0 <? deleted_count))
    (fun _ => ret false).

End db_helper.

(* ===================================================================== *)
(** ** generic_helper.py *)
(* ===================================================================== *)

Module generic_helper.

(** Modelled from the spec: [generic_helper.get_str_from_food_dict] is not among
    the sources; the spec gives the summary string the form
    ["qty1 item1, qty2 item2"], one [qty item] pair per cart entry. *)
Definition get_str_from_food_dict (food_dict : cart) : string :=
  join ", " (map (fun kv => str_of_Z (snd kv) ++ " " ++ fst kv) food_dict).

End generic_helper.

(* ===================================================================== *)
(** ** main.py: the order session machine *)
(* ===================================================================== *)

(** Values of a [JSONResponse] content. *)
Inductive jval : Type :=
| JStr (s : string)
| JInt (z : Z)
| JBool (b : bool)
| JStrs (l : list string)
| JCart (c : cart).

(** The content of a [JSONResponse]. *)
Definition response := Dict.t jval.

Definition status_of (r : response) : option jval := Dict.get "status_code" r.
Definition text_of (r : response) : option jval := Dict.get "fulfillmentText" r.

(** The characters kept by [re.sub(r"[^a-zA-Z0-9\- ]", "", item)]. *)
Definition food_char (c : ascii) : bool :=
  is_lower c || is_upper c || is_digit c || Ascii.eqb c "-" || Ascii.eqb c " ".

Definition sanitize_food_item (item : string) : string :=
  take 30 (lower (strip (str_filter food_char item))).

(** [sanitize_food_item] on a JSON value: [re.sub] raises on a non-string. *)
Definition sanitize_value (v : pyval) : exn + string :=
  match v with
  | PStr s => inr (sanitize_food_item s)
  | _ => inl (TypeError "expected string or bytes-like object")
  end.

Fixpoint sanitize_all (l : list pyval) : exn + list string :=
  match l with
  | [] => inr []
  | v :: r =>
      match sanitize_value v with
      | inl e => inl e
      | inr s =>
          match sanitize_all r with
          | inl e => inl e
          | inr ss => inr (s :: ss)
          end
      end
  end.

(** [parameters.get(k)] *)
Definition param_get (k : string) (parameters : Dict.t pyval) : pyval :=
  match Dict.get k parameters with Some v => v | None => PNone end.

(** [parameters[k]] *)
Definition param_item (k : string) (parameters : Dict.t pyval) : exn + pyval :=
  match Dict.get k parameters with Some v => inr v | None => inl (KeyError k) end.

Definition validate_order_params (parameters : Dict.t pyval) : bool * string :=
  let food_items := param_get "food-item" parameters in
  let quantities := param_get "number" parameters in
  match food_items with
  | PList items =>
      if negb (truthy food_items) || negb (forallb is_str items)
      then (false, "Please specify valid food items.")
      else if truthy quantities then
        match quantities with
        | PList qs =>
            if negb (Nat.eqb (List.length qs) (List.length items))
            then (false, "Please specify quantity for each food item.")
            else
              match py_ints qs with
              | inl _ => (false, "Quantities must be numbers.")
              | inr zs =>
                  if negb (forallb (fun q => 0 <? q) zs)
                  then (false, "Quantities must be positive numbers.")
                  else (true, "")
              end
        | _ => (false, "Please specify quantity for each food item.")
        end
      else (true, "")
  | _ => (false, "Please specify valid food items.")
  end.

Definition get_order (session_id : string) : M cart :=
  db_helper.get_inprogress_order session_id.

Definition set_order (session_id : string) (order : cart) : M unit :=
  db_helper.set_inprogress_order session_id order.

Definition delete_order (session_id : string) : M unit :=
  db_helper.delete_inprogress_order session_id.

Definition error_response (msg : string) : response :=
  [("fulfillmentText", JStr msg); ("status_code", JStr "error")].

(** The loop of [add_to_order]: [inl] is the early [return] taken at the first
    item the catalog does not have. *)
Fixpoint add_items (new_food : list (string * Z)) (current_order : cart)
  : M (response + cart) :=
  match new_food with
  | [] => ret (inr current_order)
  | (item, qty) :: rest =>
      found <- db_helper.food_item_exists item ;;
      if negb found then
        ret (inl (error_response
                    ("Sorry, '" ++ item ++ "' is not available in our menu.")))
      else
        let old := match Dict.get item current_order with
                   | Some q => q
                   | None => 0
                   end in
        add_items rest (Dict.set item (old + qty) current_order)
  end.

Definition add_to_order (parameters : Dict.t pyval) (session_id : string)
  : M response :=
  try_except
    (let (is_valid, msg) := validate_order_params parameters in
     if negb is_valid then ret (error_response msg)
     else
       raw_items <- lift (param_item "food-item" parameters) ;;
       raw_items <- lift (py_iter raw_items) ;;
       food_items <- lift (sanitize_all raw_items) ;;
       raw_numbers <- lift (param_item "number" parameters) ;;
       raw_numbers <- lift (py_iter raw_numbers) ;;
       quantities <- lift (py_ints raw_numbers) ;;
       let new_food_dict := Dict.of_zip [] food_items quantities in
       current_order <- get_order session_id ;;
       outcome <- add_items new_food_dict current_order ;;
       match outcome with
       | inl early => ret early
       | inr current_order =>
           set_order session_id current_order ;;
           let order_str := generic_helper.get_str_from_food_dict current_order in
           ret [("fulfillmentText",
                 JStr ("So far you have: " ++ order_str ++ ". Do you need anything else?"));
                ("order_summary", JCart current_order);
                ("status_code", JStr "success")]
       end)
    (fun _ =>
       ret (error_response "Sorry, an error occurred while adding to your order.")).

(** The state of the loop of [remove_from_order]. *)
Record removal := Removal {
  current : cart;
  removed_items : list string;
  no_such_items : list string
}.

(** One turn of the loop of [remove_from_order]; the [del] is the last
    statement of the loop body, after the [if]/[else]. *)
Definition remove_step (iq : string * Z) (st : removal) : M removal :=
  let (item, qty) := iq in
  let st1 :=
    match Dict.get item (current st) with
    | None => Removal (current st) (removed_items st) (no_such_items st ++ [item])
    | Some have =>
        if qty <? have then
          Removal (Dict.set item (have - qty) (current st))
                  (removed_items st ++ [str_of_Z qty ++ " " ++ item])
                  (no_such_items st)
        else
          Removal (current st)
                  (removed_items st ++ [str_of_Z have ++ " " ++ item])
                  (no_such_items st)
    end in
  if Dict.mem item (current st1)
  then ret (Removal (Dict.remove item (current st1))
                    (removed_items st1) (no_such_items st1))
  else raise (KeyError item).

(** [zip(a, b)] *)
Definition zip {A B} (a : list A) (b : list B) : list (A * B) := combine a b.

Definition remove_from_order (parameters : Dict.t pyval) (session_id : string)
  : M response :=
  try_except
    (let (is_valid, msg) := validate_order_params parameters in
     if negb is_valid then ret (error_response msg)
     else
       raw_items <- lift (param_item "food-item" parameters) ;;
       raw_items <- lift (py_iter raw_items) ;;
       food_items <- lift (sanitize_all raw_items) ;;
       let given := param_get "number" parameters in
       raw_numbers <- lift (if truthy given then py_iter given
                            else inr (repeat (PInt 1) (List.length food_items))) ;;
       quantities <- lift (py_ints raw_numbers) ;;
       current_order <- get_order session_id ;;
       st <- for_each (zip food_items quantities) remove_step
                      (Removal current_order [] []) ;;
       let t1 := match removed_items st with
                 | [] => ""
                 | _ => "Removed " ++ join ", " (removed_items st) ++ " from your order!"
                 end in
       let t2 := match no_such_items st with
                 | [] => t1
                 | _ => t1 ++ " Your current order does not have "
                           ++ join ", " (no_such_items st) ++ "."
                 end in
       match current st with
       | [] =>
           delete_order session_id ;;
           ret [("fulfillmentText", JStr (t2 ++ " Your order is empty!"));
                ("removed_items", JStrs (removed_items st));
                ("remaining_items", JCart []);
                ("status_code", JStr "success")]
       | _ =>
           set_order session_id (current st) ;;
           let order_str := generic_helper.get_str_from_food_dict (current st) in
           ret [("fulfillmentText",
                 JStr (t2 ++ " Here is what is left in your order: " ++ order_str));
                ("removed_items", JStrs (removed_items st));
                ("remaining_items", JCart (current st));
                ("status_code", JStr "success")]
       end)
    (fun _ =>
       ret (error_response "Sorry, an error occurred while removing from your order.")).

(* ===================================================================== *)
(** ** notification_system.py *)
(* ===================================================================== *)

Module NotificationSystem.

(** The double quote, for the attribute values of the HTML templates. *)
Definition dq : string := String (ascii_of_nat 34) "".

(** The new line [\n]. *)
Definition nl : string := String (ascii_of_nat 10) "".

(** The instance built by [__init__]. *)
Record t := Make {
  msg91_auth_key : option string;
  msg91_template_id : string;
  msg91_sender_id : string;
  whatsapp_token : option string;
  whatsapp_phone_id : option string;
  greenapi_instance_id : option string;
  greenapi_token : option string;
  email_user : option string;
  email_password : option string;
  smtp_server : string;
  smtp_port : Z
}.

Definition or_default (o : option string) (d : string) : string :=
  match o with Some s => s | None => d end.

Definition init : M t :=
  fun w =>
    let e := environment w in
    (inr (Make (MSG91_AUTH_KEY e)
               (or_default (MSG91_TEMPLATE_ID e) "default_template")
               (or_default (MSG91_SENDER_ID e) "FOODIB")
               (WHATSAPP_TOKEN e) (WHATSAPP_PHONE_ID e)
               (GREENAPI_INSTANCE_ID e) (GREENAPI_TOKEN e)
               (EMAIL_USER e) (EMAIL_PASSWORD e)
               "smtp.gmail.com" 587), w).

(** Truthiness of a credential: set and not empty. *)
Definition configured (o : option string) : bool :=
  match o with
  | Some s => negb (String.eqb s "")
  | None => false
  end.

(** The order value the message templates read. *)
Record order_details := OrderDetails {
  order_id : string;
  status : string;
  total_amount : Z;
  items : cart;
  item_prices : Dict.t Z;
  eta : option string
}.

(** A result record such as [{"success": False, "error": ...}]. *)
Definition result := Dict.t pyval.

Definition failure (err : string) : result :=
  [("success", PBool false); ("error", PStr err)].

(** [requests.post(url, headers=..., json=...)] *)
Definition requests_post (url : string) (headers : list (string * string))
  (payload : pyval) : M http_outcome :=
  emit (HttpPost url headers payload) ;;
  fun w => (inr (http w (trace w)), w).

(** A string method called on a JSON value. *)
Definition as_str (v : pyval) : exn + string :=
  match v with
  | PStr s => inr s
  | _ => inl (AttributeError "object has no attribute 'startswith'")
  end.

(** [response.json().get(k)] *)
Definition json_get (k : string) (body : option pyval) : exn + pyval :=
  match body with
  | None => inl (ValueError "Expecting value")
  | Some (PDict d) => inr (param_get k d)
  | Some _ => inl (AttributeError "object has no attribute 'get'")
  end.

(** The number formatting of [send_sms] (the two branches on the prefix). *)
Definition format_sms_number (to_number : string) : string :=
  if negb (startswith "+" to_number) then "+92" ++ to_number
  else if startswith "+0" to_number then "+92" ++ drop 2 to_number
  else to_number.

Definition send_sms (self : t) (to_number : pyval) (message : string) : M result :=
  emit (Enter SendSms to_number) ;;
  try_except
    (if negb (configured (msg91_auth_key self))
     then ret (failure "MSG91 auth key not configured")
     else
       number <- lift (as_str to_number) ;;
       let to_number := format_sms_number number in
       let clean_number := remove_char "+" to_number in
       let url := "https://api.msg91.com/api/v5/flow/" in
       let headers := [("authkey", or_default (msg91_auth_key self) "");
                       ("Content-Type", "application/json")] in
       let payload := PDict [("flow_id", PStr (msg91_template_id self));
                             ("sender", PStr (msg91_sender_id self));
                             ("mobiles", PStr clean_number);
                             ("VAR1", PStr (take 50 message))] in
       response <- requests_post url headers payload ;;
       match response with
       | HttpRaise e => raise e
       | HttpResponse code text body =>
           if code =? 200 then
             ty <- lift (json_get "type" body) ;;
             ret [("success", PBool true); ("message_id", ty)]
           else ret (failure text)
       end)
    (fun e => ret (failure (str_of_exn e))).

Definition _send_whatsapp_business_api (self : t) (to_number message : string)
  : M result :=
  emit (Enter BusinessApi (PStr to_number)) ;;
  try_except
    (let clean_number := remove_char "+" to_number in
     let url := "https://graph.facebook.com/v22.0/"
                ++ or_default (whatsapp_phone_id self) "None" ++ "/messages" in
     let headers := [("Authorization", "Bearer " ++ or_default (whatsapp_token self) "None");
                     ("Content-Type", "application/json")] in
     let payload := PDict [("messaging_product", PStr "whatsapp");
                           ("to", PStr clean_number);
                           ("type", PStr "text");
                           ("text", PDict [("body", PStr message)])] in
     response <- requests_post url headers payload ;;
     match response with
     | HttpRaise e => raise e
     | HttpResponse code text _ =>
         if code =? 200
         then ret [("success", PBool true); ("method", PStr "business_api")]
         else ret (failure text)
     end)
    (fun e => ret (failure (str_of_exn e))).

(** The loop of [_send_whatsapp_greenapi] over its endpoints: [Some r] is the
    [return] from inside the loop. *)
Fixpoint greenapi_endpoints (self : t) (clean_number message : string)
  (endpoints : list string) : M (option result) :=
  match endpoints with
  | [] => ret None
  | url :: rest =>
      sent <- try_except
        (let headers := [("Content-Type", "application/json")] in
         let payload := PDict [("idInstance", PStr (or_default (greenapi_instance_id self) "None"));
                               ("apiTokenInstance", PStr (or_default (greenapi_token self) "None"));
                               ("chatId", PStr (clean_number ++ "@c.us"));
                               ("message", PStr message)] in
         response <- requests_post url headers payload ;;
         match response with
         | HttpRaise e => raise e
         | HttpResponse code _ body =>
             if code =? 200 then
               id <- lift (json_get "idMessage" body) ;;
               ret (truthy id)
             else ret false
         end)
        (fun _ => ret false) ;;
      if (sent : bool)
      then ret (Some [("success", PBool true); ("method", PStr "greenapi")])
      else greenapi_endpoints self clean_number message rest
  end.

Definition _send_whatsapp_greenapi (self : t) (to_number message : string)
  : M result :=
  emit (Enter GreenApi (PStr to_number)) ;;
  try_except
    (let clean_number := remove_char "+" to_number in
     let endpoints :=
       ["https://" ++ or_default (greenapi_instance_id self) "None"
          ++ ".api.greenapi.com/waSendText";
        "https://api.greenapi.com/waSendText";
        "https://greenapi.com/api/waSendText"] in
     r <- greenapi_endpoints self clean_number message endpoints ;;
     match r with
     | Some res => ret res
     | None => ret (failure "All GreenAPI endpoints failed")
     end)
    (fun e => ret (failure (str_of_exn e))).

(** The local provider: it logs the message and reports success. *)
Definition _send_whatsapp_simple (self : t) (to_number message : string)
  : M result :=
  emit (Enter SimpleWhatsapp (PStr to_number)) ;;
  try_except
    (ret [("success", PBool true); ("method", PStr "simple");
          ("note", PStr "Message logged for testing")])
    (fun e => ret (failure (str_of_exn e))).

(** [result['success']] as a condition. *)
Definition succeeded (r : result) : M bool :=
  v <- lift (param_item "success" r) ;; ret (truthy v).

Definition send_whatsapp (self : t) (to_number : pyval) (message : string)
  : M result :=
  emit (Enter SendWhatsapp to_number) ;;
  try_except
    (number <- lift (as_str to_number) ;;
     let to_number := if startswith "+0" number then "+92" ++ drop 2 number
                      else number in
     first <-
       (if configured (whatsapp_token self) && configured (whatsapp_phone_id self)
        then
          r <- _send_whatsapp_business_api self to_number message ;;
          ok <- succeeded r ;;
          ret (if ok then Some r else None)
        else ret None) ;;
     match first with
     | Some r => ret r
     | None =>
         second <-
           (if configured (greenapi_token self) && configured (greenapi_instance_id self)
            then
              r <- _send_whatsapp_greenapi self to_number message ;;
              ok <- succeeded r ;;
              ret (if ok then Some r else None)
            else ret None) ;;
         match second with
         | Some r => ret r
         | None =>
             r <- _send_whatsapp_simple self to_number message ;;
             ok <- succeeded r ;;
             if ok then ret r
             else ret (failure "All WhatsApp methods failed")
         end
     end)
    (fun e => ret (failure (str_of_exn e))).

(** The MIME message and the SMTP session of [send_email], as one outside
    action that may raise. *)
Definition smtp_send (sender : string) (recipient : pyval)
  (subject html text : string) : M unit :=
  emit (SmtpSend sender recipient subject html text) ;;
  fun w =>
    match smtp w (trace w) with
    | Some e => (inl e, w)
    | None => (inr tt, w)
    end.

Definition send_email (self : t) (to_email : pyval)
  (subject html_content text_content : string) : M result :=
  emit (Enter SendEmail to_email) ;;
  try_except
    (if negb (configured (email_user self)) || negb (configured (email_password self))
     then ret (failure "Email credentials not configured")
     else
       smtp_send (or_default (email_user self) "") to_email
                 subject html_content text_content ;;
       ret [("success", PBool true)])
    (fun e => ret (failure (str_of_exn e))).

(** *** Message templates of the order confirmation *)

Definition eta_or_default (od : order_details) : string :=
  or_default (eta od) "Calculating...".

Definition _create_order_confirmation_sms (od : order_details) : string :=
  "FoodiBot Order Confirmation

Order #" ++
    order_id od ++
    "
Status: " ++
    status od ++
    "
Total: Rs. " ++
    fmt_2f (total_amount od) ++
    "
ETA: " ++
    eta_or_default od ++
    "

Thank you for choosing FoodiBot!".

(** The [items_text] loop shared by the chat and the plain-text e-mail
    templates. *)
Definition items_lines (od : order_details) : string :=
  concat "" (map (fun kv => "• " ++ str_of_Z (snd kv) ++ "x " ++ title (fst kv) ++ nl)
                 (items od)).

Definition _create_order_confirmation_whatsapp (od : order_details) : string :=
  let items_text := items_lines od in
  "🍕 *FoodiBot Order Confirmation*

*Order #" ++
    order_id od ++
    "*
Status: " ++
    status od ++
    "
Total: Rs. " ++
    fmt_2f (total_amount od) ++
    "
ETA: " ++
    eta_or_default od ++
    "

*Your Order:*
" ++
    items_text ++
    "

Thank you for choosing FoodiBot! 🍕".

Definition _create_order_confirmation_email_html (od : order_details) : string :=
  let items_html :=
    concat "" (map (fun kv =>
                 "<tr><td>" ++ str_of_Z (snd kv) ++ "x " ++ title (fst kv)
                 ++ "</td><td>Rs. "
                 ++ fmt_2f (match Dict.get (fst kv) (item_prices od) with
                            | Some p => p
                            | None => 0
                            end)
                 ++ "</td></tr>")
               (items od)) in
  "
        <html>
        <head>
            <style>
                body { font-family: Arial, sans-serif; }
                .header { background: linear-gradient(135deg, #ff6b6b, #ee5a24); color: white; padding: 20px; text-align: center; }
                .content { padding: 20px; }
                .order-table { width: 100%; border-collapse: collapse; margin: 20px 0; }
                .order-table th, .order-table td { border: 1px solid #ddd; padding: 12px; text-align: left; }
                .order-table th { background-color: #f8f9fa; }
            </style>
        </head>
        <body>
            <div class=" ++
    dq ++
    "header" ++
    dq ++
    ">
                <h1>🍕 FoodiBot Order Confirmation</h1>
            </div>
            <div class=" ++
    dq ++
    "content" ++
    dq ++
    ">
                <h2>Order #" ++
    order_id od ++
    "</h2>
                <p><strong>Status:</strong> " ++
    status od ++
    "</p>
                <p><strong>Total:</strong> Rs." ++
    fmt_2f (total_amount od) ++
    "</p>
                <p><strong>ETA:</strong> " ++
    eta_or_default od ++
    "</p>
                
                <h3>Your Order:</h3>
                <table class=" ++
    dq ++
    "order-table" ++
    dq ++
    ">
                    <tr><th>Item</th><th>Price</th></tr>
                    " ++
    items_html ++
    "
                </table>
                
                <p>Thank you for choosing FoodiBot! 🍕</p>
            </div>
        </body>
        </html>
        ".

Definition _create_order_confirmation_email_text (od : order_details) : string :=
  let items_text := items_lines od in
  "FoodiBot Order Confirmation

Order #" ++
    order_id od ++
    "
Status: " ++
    status od ++
    "
Total: Rs." ++
    fmt_2f (total_amount od) ++
    "
ETA: " ++
    eta_or_default od ++
    "

Your Order:
" ++
    items_text ++
    "

Thank you for choosing FoodiBot! 🍕".

(** [user_info.get(k)] as a condition, then [user_info[k]]. *)
Definition contact (k : string) (user_info : Dict.t pyval) : option pyval :=
  let v := param_get k user_info in
  if truthy v then Some v else None.

Definition send_order_confirmation (self : t) (user_info : Dict.t pyval)
  (od : order_details) : M (Dict.t result) :=
  let results : Dict.t result := [] in
  let sms_message := _create_order_confirmation_sms od in
  let whatsapp_message := _create_order_confirmation_whatsapp od in
  let email_subject := "Order Confirmation - #" ++ order_id od in
  let email_html := _create_order_confirmation_email_html od in
  let email_text := _create_order_confirmation_email_text od in
  results <-
    match contact "phone" user_info with
    | Some p => r <- send_sms self p sms_message ;; ret (Dict.set "sms" r results)
    | None => ret results
    end ;;
  results <-
    match contact "phone" user_info with
    | Some p => r <- send_whatsapp self p whatsapp_message ;;
                ret (Dict.set "whatsapp" r results)
    | None => ret results
    end ;;
  results <-
    match contact "email" user_info with
    | Some e => r <- send_email self e email_subject email_html email_text ;;
                ret (Dict.set "email" r results)
    | None => ret results
    end ;;
  ret results.

(** *** Message templates of the status update and the delivery notice *)

(** The [status_emoji] table with its default. *)
Definition status_emoji (status : string) : string :=
  if String.eqb status "confirmed" then "✅"
  else if String.eqb status "preparing" then "👨‍🍳"
  else if String.eqb status "ready" then "🎉"
  else if String.eqb status "out_for_delivery" then "🚚"
  else if String.eqb status "delivered" then "📦"
  else "📋".

Definition _create_status_update_sms (od : order_details) (status : string) : string :=
  status_emoji status ++
    " Order Update

Order #" ++
    order_id od ++
    "
Status: " ++
    title status ++
    "
ETA: " ++
    eta_or_default od.

Definition _create_status_update_whatsapp (od : order_details) (status : string)
  : string :=
  status_emoji status ++
    " *Order Update*

*Order #" ++
    order_id od ++
    "*
Status: " ++
    title status ++
    "
ETA: " ++
    eta_or_default od.

Definition _create_status_update_email_html (od : order_details) (status : string)
  : string :=
  "
        <html>
        <head>
            <style>
                body { font-family: Arial, sans-serif; }
                .header { background: linear-gradient(135deg, #ff6b6b, #ee5a24); color: white; padding: 20px; text-align: center; }
                .content { padding: 20px; }
                .status-badge { background: #28a745; color: white; padding: 8px 16px; border-radius: 20px; display: inline-block; }
            </style>
        </head>
        <body>
            <div class=" ++
    dq ++
    "header" ++
    dq ++
    ">
                <h1>" ++
    status_emoji status ++
    " Order Status Update</h1>
            </div>
            <div class=" ++
    dq ++
    "content" ++
    dq ++
    ">
                <h2>Order #" ++
    order_id od ++
    "</h2>
                <p><span class=" ++
    dq ++
    "status-badge" ++
    dq ++
    ">" ++
    title status ++
    "</span></p>
                <p><strong>ETA:</strong> " ++
    eta_or_default od ++
    "</p>
            </div>
        </body>
        </html>
        ".

Definition _create_status_update_email_text (od : order_details) (status : string)
  : string :=
  "Order Status Update

Order #" ++
    order_id od ++
    "
Status: " ++
    title status ++
    "
ETA: " ++
    eta_or_default od.

Definition _create_delivery_sms (od : order_details) : string :=
  "📦 Your Order is Delivered!

Order #" ++
    order_id od ++
    "
Status: Delivered ✅

Your food has arrived! Enjoy your meal! 🍕".

Definition _create_delivery_whatsapp (od : order_details) : string :=
  "📦 *Your Order is Delivered!*

*Order #" ++
    order_id od ++
    "*
Status: Delivered ✅

Your food has arrived! Enjoy your meal! 🍕".

Definition _create_delivery_email_html (od : order_details) : string :=
  "
        <html>
        <head>
            <style>
                body { font-family: Arial, sans-serif; }
                .header { background: linear-gradient(135deg, #28a745, #20c997); color: white; padding: 20px; text-align: center; }
                .content { padding: 20px; }
                .delivery-badge { background: #28a745; color: white; padding: 8px 16px; border-radius: 20px; display: inline-block; }
            </style>
        </head>
        <body>
            <div class=" ++
    dq ++
    "header" ++
    dq ++
    ">
                <h1>📦 Your Order is Delivered!</h1>
            </div>
            <div class=" ++
    dq ++
    "content" ++
    dq ++
    ">
                <h2>Order #" ++
    order_id od ++
    "</h2>
                <p><span class=" ++
    dq ++
    "delivery-badge" ++
    dq ++
    ">Delivered ✅</span></p>
                <p>Your food has arrived! Enjoy your meal! 🍕</p>
            </div>
        </body>
        </html>
        ".

Definition _create_delivery_email_text (od : order_details) : string :=
  "Your Order is Delivered!

Order #" ++
    order_id od ++
    "
Status: Delivered ✅

Your food has arrived! Enjoy your meal! 🍕".

Definition send_status_update (self : t) (user_info : Dict.t pyval)
  (od : order_details) (status : string) : M (Dict.t result) :=
  let results : Dict.t result := [] in
  let sms_message := _create_status_update_sms od status in
  let whatsapp_message := _create_status_update_whatsapp od status in
  let email_subject := "Order Update - #" ++ order_id od ++ " - " ++ title status in
  let email_html := _create_status_update_email_html od status in
  let email_text := _create_status_update_email_text od status in
  results <-
    match contact "phone" user_info with
    | Some p => r <- send_sms self p sms_message ;; ret (Dict.set "sms" r results)
    | None => ret results
    end ;;
  results <-
    match contact "phone" user_info with
    | Some p => r <- send_whatsapp self p whatsapp_message ;;
                ret (Dict.set "whatsapp" r results)
    | None => ret results
    end ;;
  results <-
    match contact "email" user_info with
    | Some e => r <- send_email self e email_subject email_html email_text ;;
                ret (Dict.set "email" r results)
    | None => ret results
    end ;;
  ret results.

Definition send_delivery_notification (self : t) (user_info : Dict.t pyval)
  (od : order_details) : M (Dict.t result) :=
  let results : Dict.t result := [] in
  let sms_message := _create_delivery_sms od in
  let whatsapp_message := _create_delivery_whatsapp od in
  let email_subject := "Your Order is Delivered! - #" ++ order_id od in
  let email_html := _create_delivery_email_html od in
  let email_text := _create_delivery_email_text od in
  results <-
    match contact "phone" user_info with
    | Some p => r <- send_sms self p sms_message ;; ret (Dict.set "sms" r results)
    | None => ret results
    end ;;
  results <-
    match contact "phone" user_info with
    | Some p => r <- send_whatsapp self p whatsapp_message ;;
                ret (Dict.set "whatsapp" r results)
    | None => ret results
    end ;;
  results <-
    match contact "email" user_info with
    | Some e => r <- send_email self e email_subject email_html email_text ;;
                ret (Dict.set "email" r results)
    | None => ret results
    end ;;
  ret results.

End NotificationSystem.

(* ===================================================================== *)
(** ** main.py: summary, commit and contact collection *)
(* ===================================================================== *)

(** [sum(quantity * db_helper.get_item_price(item) for item, quantity in
    order.items())], and the [total_amount] loop of [complete_order]: one
    price lookup per entry, in order. *)
Definition total_of (order : cart) : M Z :=
  for_each order
    (fun kv total => p <- db_helper.get_item_price (fst kv) ;;
                     ret (total + snd kv * p))
    0.

(** [sum(order.values())] *)
Definition sum_values (order : cart) : Z :=
  fold_left Z.add (Dict.values order) 0.

Definition order_summary_intent (parameters : Dict.t pyval) (session_id : string)
  : M response :=
  try_except
    (order <- get_order session_id ;;
     match order with
     | [] => ret (error_response "You don't have any items in your order yet.")
     | _ =>
         let total_items := sum_values order in
         total_amount <- total_of order ;;
         let summary := "Your order summary:" ++ NotificationSystem.nl
                        ++ "Total items: " ++ str_of_Z total_items ++ NotificationSystem.nl
                        ++ "Total amount: $" ++ fmt_2f total_amount in
         ret [("fulfillmentText", JStr summary); ("status_code", JStr "success")]
     end)
    (fun _ => ret (error_response "Sorry, I couldn't get your order summary.")).

(** The part every confirmation text of [complete_order] starts with. *)
Definition order_placed_text (order_id : Z) (order_summary : string)
  (total_amount : Z) : string :=
  "🎉 Excellent! Your order has been placed successfully!

📋 Order Details:
• Order ID: #" ++
  str_of_Z order_id ++
  "
• Items: " ++
  order_summary ++
  "
• Total Amount: Rs. " ++
  str_of_Z total_amount ++
  "
• Payment: Pay at delivery
• Delivery Time: 30-45 minutes

".

(** [{item: db_helper.get_item_price(item) for item in order.keys()}] *)
Definition item_prices_of (order : cart) : M (Dict.t Z) :=
  for_each (Dict.keys order)
    (fun item prices => p <- db_helper.get_item_price item ;;
                        ret (Dict.set item p prices))
    [].

(** [results.get(channel, {}).get('success')] as a condition. *)
Definition channel_ok (channel : string) (results : Dict.t NotificationSystem.result)
  : bool :=
  match Dict.get channel results with
  | Some r => truthy (param_get "success" r)
  | None => false
  end.

Definition complete_order (parameters : Dict.t pyval) (session_id : string)
  : M response :=
  try_except
    (order <- get_order session_id ;;
     match order with
     | [] => ret (error_response
                    "I'm having trouble finding your order. Sorry! Can you place a new order please?")
     | _ =>
         total_amount <- total_of order ;;
         let order_items :=
           map (fun kv => str_of_Z (snd kv) ++ "x " ++ title (fst kv)) order in
         let order_summary := join ", " order_items in
         order_id <- time_time ;;
         phone_number <- db_helper.get_user_phone session_id ;;
         email <- db_helper.get_user_email session_id ;;
         let head := order_placed_text order_id order_summary total_amount in
         if negb (truthy phone_number) && negb (truthy email) then
           ret [("fulfillmentText", JStr (head ++ "📱 Please provide your phone number so I can send you SMS and WhatsApp updates about your order."));
                ("order_id", JInt order_id);
                ("total_price", JInt total_amount);
                ("status_code", JStr "success");
                ("ask_for_phone", JBool true)]
         else if negb (truthy phone_number) then
           ret [("fulfillmentText", JStr (head ++ "📱 To receive SMS and WhatsApp updates, please provide your phone number."));
                ("order_id", JInt order_id);
                ("total_price", JInt total_amount);
                ("status_code", JStr "success");
                ("ask_for_phone", JBool true)]
         else if negb (truthy email) then
           ret [("fulfillmentText", JStr (head ++ "📧 To receive email notifications as well, please provide your email address."));
                ("order_id", JInt order_id);
                ("total_price", JInt total_amount);
                ("status_code", JStr "success");
                ("ask_for_email", JBool true)]
         else
           let user_info := [("phone", phone_number); ("email", email)] in
           prices <- item_prices_of order ;;
           let od := NotificationSystem.OrderDetails
                       (str_of_Z order_id) "confirmed" total_amount order prices
                       (Some "30-45 minutes") in
           fulfillment_text <-
             try_except
               (notifications <- NotificationSystem.init ;;
                results <- NotificationSystem.send_order_confirmation
                             notifications user_info od ;;
                let success_channels :=
                  ((if channel_ok "sms" results then ["SMS"] else [])
                   ++ (if channel_ok "whatsapp" results then ["WhatsApp"] else [])
                   ++ (if channel_ok "email" results then ["Email"] else []))%list in
                match success_channels with
                | [] => ret (head ++ "📱 Your order is confirmed! (Notification sending failed, but your order is saved!)")
                | _ =>
                    let channels_text := join ", " success_channels in
                    ret (head ++ ("✅ Order confirmation sent via " ++
    channels_text ++
    "! You'll receive updates about your order status."))
                end)
               (fun _ => ret (head ++ "📱 Your order is confirmed!")) ;;
           ret [("fulfillmentText", JStr fulfillment_text);
                ("order_id", JInt order_id);
                ("total_price", JInt total_amount);
                ("status_code", JStr "success")]
     end)
    (fun e =>
       ret (error_response
              ("Sorry, an error occurred while completing your order. Error: "
               ++ str_of_exn e))).

Definition collect_phone_number (parameters : Dict.t pyval) (session_id : string)
  : M response :=
  try_except
    (let phone_number := param_get "phone-number" parameters in
     if negb (truthy phone_number) then
       ret (error_response
              "Please provide your phone number so I can send you order updates via SMS and WhatsApp.")
     else
       db_helper.set_user_phone session_id phone_number ;;
       email <- db_helper.get_user_email session_id ;;
       let response_text :=
         if truthy phone_number && truthy email then
           "Great! I've saved your phone number: " ++ py_str phone_number
           ++ ". Your contact information is complete! I'll send you notifications via SMS, WhatsApp, and Email."
         else
           "Great! I've saved your phone number: " ++ py_str phone_number
           ++ ". Now I can send you SMS and WhatsApp updates about your order. Please provide your email address for email notifications as well." in
       ret [("fulfillmentText", JStr response_text); ("status_code", JStr "success")])
    (fun _ =>
       ret (error_response "Sorry, I couldn't save your phone number. Please try again.")).

Definition collect_email (parameters : Dict.t pyval) (session_id : string)
  : M response :=
  try_except
    (let email := param_get "email" parameters in
     if negb (truthy email) then
       ret (error_response
              "Please provide your email address so I can send you order updates via email.")
     else
       db_helper.set_user_email session_id email ;;
       phone_number <- db_helper.get_user_phone session_id ;;
       let response_text :=
         if truthy phone_number && truthy email then
           "Perfect! I've saved your email: " ++ py_str email
           ++ ". Your contact information is complete! I'll send you notifications via SMS, WhatsApp, and Email."
         else
           "Perfect! I've saved your email: " ++ py_str email
           ++ ". Your contact information is complete! I'll send you notifications via SMS, WhatsApp, and Email." in
       ret [("fulfillmentText", JStr response_text); ("status_code", JStr "success")])
    (fun _ =>
       ret (error_response "Sorry, I couldn't save your email. Please try again.")).

(** The channels of a result mapping that report success, as
    [send_notifications] and [complete_order] list them. *)
Definition success_channels_of (results : Dict.t NotificationSystem.result)
  : list string :=
  ((if channel_ok "sms" results then ["SMS"] else [])
   ++ (if channel_ok "whatsapp" results then ["WhatsApp"] else [])
   ++ (if channel_ok "email" results then ["Email"] else []))%list.

(** [send_notifications] uses the [notifications] instance the module builds
    when it is loaded.  The environment of a world never changes, so the
    instance is built here at the call, which gives the same one. *)
Definition send_notifications (parameters : Dict.t pyval) (session_id : string)
  : M response :=
  try_except
    (phone_number <- db_helper.get_user_phone session_id ;;
     email <- db_helper.get_user_email session_id ;;
     if negb (truthy phone_number) && negb (truthy email) then
       ret [("fulfillmentText",
             JStr "I don't have your contact information yet. Please provide your phone number and email first.");
            ("status_code", JStr "error")]
     else
       order <- get_order session_id ;;
       match order with
       | [] => ret (error_response "You don't have any items in your order yet.")
       | _ =>
           total_amount <- total_of order ;;
           now <- time_time ;;
           let order_id := "ORD" ++ str_of_Z now in
           let user_info :=
             ((if truthy phone_number then [("phone", phone_number)] else [])
              ++ (if truthy email then [("email", email)] else []))%list in
           prices <- item_prices_of order ;;
           let od := NotificationSystem.OrderDetails
                       order_id "confirmed" total_amount order prices
                       (Some "30 minutes") in
           notifications <- NotificationSystem.init ;;
           results <- NotificationSystem.send_order_confirmation
                        notifications user_info od ;;
           match success_channels_of results with
           | [] =>
               ret [("fulfillmentText",
                     JStr "I tried to send notifications but there was an issue. Your order is still confirmed though!");
                    ("status_code", JStr "warning")]
           | success_channels =>
               let channels_text := join ", " success_channels in
               ret [("fulfillmentText",
                     JStr ("✅ Order confirmation sent successfully via "
                           ++ channels_text
                           ++ "! You'll receive updates about your order status."));
                    ("status_code", JStr "success")]
           end
       end)
    (fun _ =>
       ret (error_response
              "Sorry, I couldn't send notifications. Please try again later.")).

(* ===================================================================== *)
(** ** Vocabulary of the properties *)
(* ===================================================================== *)

(** The catalog has an entry for [item] (what [find_one] decides). *)
Definition in_catalog (catalog : list food_doc) (item : string) : bool :=
  existsb (Mongo.name_matches item) catalog.

(** The unit price the catalog gives for [item], [0] without an entry or
    without a [price] key. *)
Definition price_of (catalog : list food_doc) (item : string) : Z :=
  match find (Mongo.name_matches item) catalog with
  | Some f => match price f with Some p => p | None => 0 end
  | None => 0
  end.

(** The persisted cart of a session, [{}] without a record. *)
Definition cart_of (session_id : string) (w : world) : cart :=
  match Dict.get session_id (inprogress_orders w) with
  | Some c => c
  | None => []
  end.

(** The next pymongo call raises. *)
Definition faulty (w : world) : bool :=
  match faults w with
  | true :: _ => true
  | _ => false
  end.

(** The world after one pymongo call has met the schedule. *)
Definition advance (w : world) : world := with_faults (tl (faults w)) w.

(** The answer of [add_to_order] for an item the catalog does not have. *)
Definition not_available (item : string) : response :=
  error_response ("Sorry, '" ++ item ++ "' is not available in our menu.").

(** The additive merge of [add_to_order]'s loop. *)
Definition merge_items (new_food : list (string * Z)) (current_order : cart) : cart :=
  fold_left
    (fun c kv =>
       Dict.set (fst kv)
                (match Dict.get (fst kv) c with Some q => q | None => 0 end + snd kv) c)
    new_food current_order.

(** The sanitized names of a list of JSON strings. *)
Definition names_of (items : list pyval) : list string :=
  flat_map (fun v => match v with PStr s => [sanitize_food_item s] | _ => [] end) items.

(** Every quantity of a cart is strictly positive. *)
Definition cart_positive (c : cart) : Prop :=
  Forall (fun kv => 0 < snd kv) c.

(** Every persisted cart satisfies the positivity invariant. *)
Definition store_positive (w : world) : Prop :=
  Forall (fun sc => cart_positive (snd sc)) (inprogress_orders w).

(** The total of a cart at catalog prices. *)
Definition cart_total (catalog : list food_doc) (c : cart) : Z :=
  fold_left (fun t kv => t + snd kv * price_of catalog (fst kv)) c 0.

(** The success answer of [add_to_order]. *)
Definition added (current_order : cart) : response :=
  [("fulfillmentText",
    JStr ("So far you have: "
          ++ generic_helper.get_str_from_food_dict current_order
          ++ ". Do you need anything else?"));
   ("order_summary", JCart current_order);
   ("status_code", JStr "success")].

(** The quantities [remove_from_order] works with: the parsed list when one is
    given, else [1] per item. *)
Definition requested (p : Dict.t pyval) (n : nat) : list Z :=
  let given := param_get "number" p in
  if truthy given then
    match given with
    | PList qs => match py_ints qs with inr zs => zs | inl _ => [] end
    | _ => []
    end
  else repeat 1 n.

(** The quantity a cart holds of an item, [0] when it has none. *)
Definition held (c : cart) (item : string) : Z :=
  match Dict.get item c with Some q => q | None => 0 end.

(** The entry of [removed_items] for a request of [qty] of [item]. *)
Definition removal_report (c : cart) (iq : string * Z) : string :=
  str_of_Z (Z.min (held c (fst iq)) (snd iq)) ++ " " ++ fst iq.

(** The cart without the named items. *)
Definition without (names : list string) (c : cart) : cart :=
  fold_left (fun c n => Dict.remove n c) names c.

(** The text of [remove_from_order] before the part on what is left. *)
Definition removal_text (st : removal) : string :=
  let t1 := match removed_items st with
            | [] => ""
            | _ => "Removed " ++ join ", " (removed_items st) ++ " from your order!"
            end in
  match no_such_items st with
  | [] => t1
  | _ => t1 ++ " Your current order does not have "
            ++ join ", " (no_such_items st) ++ "."
  end.

(** The success answer of [remove_from_order]. *)
Definition removal_response (st : removal) : response :=
  match current st with
  | [] =>
      [("fulfillmentText", JStr (removal_text st ++ " Your order is empty!"));
       ("removed_items", JStrs (removed_items st));
       ("remaining_items", JCart []);
       ("status_code", JStr "success")]
  | _ =>
      [("fulfillmentText",
        JStr (removal_text st ++ " Here is what is left in your order: "
              ++ generic_helper.get_str_from_food_dict (current st)));
       ("removed_items", JStrs (removed_items st));
       ("remaining_items", JCart (current st));
       ("status_code", JStr "success")]
  end.

(** The worlds the session machine can reach from a store without carts:
    any call of [add_to_order] or [remove_from_order], successful or not, and
    any change of the store's fault schedule between calls. *)
Inductive reachable : world -> Prop :=
| reach_fresh w :
    inprogress_orders w = [] -> reachable w
| reach_add w p sid :
    reachable w -> reachable (snd (add_to_order p sid w))
| reach_remove w p sid :
    reachable w -> reachable (snd (remove_from_order p sid w))
| reach_outage w f :
    reachable w -> reachable (with_faults f w).

(** The success answer of [order_summary_intent]. *)
Definition summary_response (total_items total_amount : Z) : response :=
  [("fulfillmentText",
    JStr ("Your order summary:" ++ NotificationSystem.nl
          ++ "Total items: " ++ str_of_Z total_items ++ NotificationSystem.nl
          ++ "Total amount: $" ++ fmt_2f total_amount));
   ("status_code", JStr "success")].

(** The channel a traced call opens, if it is a call of a channel method. *)
Definition channel_of (e : event) : list method :=
  match e with
  | Enter SendSms _ => [SendSms]
  | Enter SendWhatsapp _ => [SendWhatsapp]
  | Enter SendEmail _ => [SendEmail]
  | _ => []
  end.

(** The chat-messaging provider a traced call tries. *)
Definition provider_of (e : event) : list method :=
  match e with
  | Enter BusinessApi _ => [BusinessApi]
  | Enter GreenApi _ => [GreenApi]
  | Enter SimpleWhatsapp _ => [SimpleWhatsapp]
  | _ => []
  end.

(** What an observer [obs] sees of a list of events. *)
Definition seen (obs : event -> list method) (evs : list event) : list method :=
  flat_map obs evs.

(** No condition on a returned value. *)
Definition any {A} (a : A) : Prop := True.

(** [m] changes nothing but the trace and adds nothing [obs] sees; a value it
    returns satisfies [Q]. *)
Definition quiet (obs : event -> list method) {A} (Q : A -> Prop) (m : M A)
  : Prop :=
  forall w, exists r evs,
    m w = (r, with_trace (trace w ++ evs) w) /\ seen obs evs = [] /\
    match r with inr a => Q a | inl _ => True end.

(** [m] returns a value satisfying [Q], changes nothing but the trace, and
    [obs] sees [ms]. *)
Definition shows (obs : event -> list method) {A} (Q : A -> Prop) (m : M A)
  (ms : list method) : Prop :=
  forall w, exists a evs,
    m w = (inr a, with_trace (trace w ++ evs) w) /\ seen obs evs = ms /\ Q a.

(** A result record that says whether the send succeeded. *)
Definition reports (r : NotificationSystem.result) : Prop :=
  exists b, Dict.get "success" r = Some (PBool b).

(** The answer of the local provider. *)
Definition simple_result : NotificationSystem.result :=
  [("success", PBool true); ("method", PStr "simple");
   ("note", PStr "Message logged for testing")].

(** A provider of a fallback chain, in the spec's words: a [send] and whether
    it is configured. *)
Record provider := Provider {
  is_configured : bool;
  send : string -> string -> M NotificationSystem.result
}.

(** The fallback policy in the spec's words: try the providers in order, skip
    one that is not configured, stop at the first that reports success;
    [exhausted] is the answer when none did. *)
Fixpoint fallback_chain (providers : list provider)
  (exhausted : NotificationSystem.result) (to_number message : string)
  : M NotificationSystem.result :=
  match providers with
  | [] => ret exhausted
  | p :: rest =>
      if is_configured p then
        r <- send p to_number message ;;
        ok <- NotificationSystem.succeeded r ;;
        if ok then ret r
        else fallback_chain rest exhausted to_number message
      else fallback_chain rest exhausted to_number message
  end.

(** The three chat-messaging providers of an instance, in priority order. *)
Definition whatsapp_providers (self : NotificationSystem.t) : list provider :=
  [Provider (NotificationSystem.configured (NotificationSystem.whatsapp_token self)
             && NotificationSystem.configured (NotificationSystem.whatsapp_phone_id self))
            (NotificationSystem._send_whatsapp_business_api self);
   Provider (NotificationSystem.configured (NotificationSystem.greenapi_token self)
             && NotificationSystem.configured (NotificationSystem.greenapi_instance_id self))
            (NotificationSystem._send_whatsapp_greenapi self);
   Provider true (NotificationSystem._send_whatsapp_simple self)].

(** The destination as [send_whatsapp] rewrites it. *)
Definition format_whatsapp_number (to_number : string) : string :=
  if startswith "+0" to_number then "+92" ++ drop 2 to_number else to_number.

(** The keys of a dict after [d[k] = v]. *)
Fixpoint add_key (k : string) (ks : list string) : list string :=
  match ks with
  | [] => [k]
  | k' :: r => if String.eqb k k' then k :: r else k' :: add_key k r
  end.

(** *** Sample worlds *)

(** No credentials at all. *)
Definition no_credentials : environ :=
  Environ None None None None None None None None None.

(** A menu of two items, one session with five pizzas in its cart, no
    contacts, a store that answers, and a network that is down. *)
Definition sample_world : world :=
  World [FoodDoc "Pizza" (Some 12) 1; FoodDoc "Burger" (Some 8) 2]
        [("s1", [("pizza", 5)])] [] [] 1700000000 no_credentials
        (fun _ => HttpRaise (RequestException "network is unreachable"))
        (fun _ => None) [].

(** The same world before any cart was started. *)
Definition fresh_world : world := with_orders [] sample_world.

(** The same world with an item in the cart that the menu no longer has. *)
Definition stale_world : world :=
  with_orders [("s1", [("pizza", 5); ("ghost", 2)])] sample_world.

(** An instance with the SMS key set and nothing else. *)
Definition sms_only : NotificationSystem.t :=
  NotificationSystem.Make (Some "key") "default_template" "FOODIB"
    None None None None None None "smtp.gmail.com" 587.

(** An instance without any credentials. *)
Definition unconfigured : NotificationSystem.t :=
  NotificationSystem.Make None "default_template" "FOODIB"
    None None None None None None "smtp.gmail.com" 587.

(** The sample world with both contacts of its session on file. *)
Definition contact_world : world :=
  with_contacts [("s1", ContactDoc (PStr "03001234567") (PStr "ali@example.com"))]
                sample_world.

(** [m] leaves the collections alone: the world after it differs from the one
    before at most in the trace, which grows by events satisfying [P], and in
    the fault schedule, which stays empty when it was. *)
Definition keeps_store (P : list event -> Prop) {A} (m : M A) : Prop :=
  forall w, exists r evs f,
    m w = (r, with_trace (trace w ++ evs) (with_faults f w)) /\
    P evs /\ (faults w = [] -> f = []).

(** No event at all. *)
Definition no_events (evs : list event) : Prop := evs = [].

(** Any events. *)
Definition some_events (evs : list event) : Prop := True.

(** The collections of [w'] are those of [w]. *)
Definition same_store (w w' : world) : Prop :=
  inprogress_orders w' = inprogress_orders w /\
  user_contacts w' = user_contacts w /\
  food_items w' = food_items w.

(** The body the three dispatchers of [NotificationSystem] share: SMS and chat
    when a phone value is there, e-mail when an e-mail value is there. *)
Definition dispatch (sms wa mail : pyval -> M NotificationSystem.result)
  (user_info : Dict.t pyval) : M (Dict.t NotificationSystem.result) :=
  results <-
    match NotificationSystem.contact "phone" user_info with
    | Some p => r <- sms p ;; ret (Dict.set "sms" r [])
    | None => ret []
    end ;;
  results <-
    match NotificationSystem.contact "phone" user_info with
    | Some p => r <- wa p ;; ret (Dict.set "whatsapp" r results)
    | None => ret results
    end ;;
  results <-
    match NotificationSystem.contact "email" user_info with
    | Some e => r <- mail e ;; ret (Dict.set "email" r results)
    | None => ret results
    end ;;
  ret results.

(** The result record says success. *)
Definition says_success (r : NotificationSystem.result) : Prop :=
  truthy (param_get "success" r) = true.

(** What [dispatch] leaves in its result mapping: one entry for each channel
    whose contact is there, in the order SMS, chat, e-mail, each satisfying the
    condition of its channel. *)
Definition dispatched (Qs Qw Qm : pyval -> NotificationSystem.result -> Prop)
  (user_info : Dict.t pyval) (results : Dict.t NotificationSystem.result) : Prop :=
  match NotificationSystem.contact "phone" user_info,
        NotificationSystem.contact "email" user_info with
  | Some p, Some e =>
      exists r1 r2 r3,
        results = [("sms", r1); ("whatsapp", r2); ("email", r3)] /\
        Qs p r1 /\ Qw p r2 /\ Qm e r3
  | Some p, None =>
      exists r1 r2, results = [("sms", r1); ("whatsapp", r2)] /\ Qs p r1 /\ Qw p r2
  | None, Some e => exists r3, results = [("email", r3)] /\ Qm e r3
  | None, None => results = []
  end.

(** A dispatcher run from [w]: it returns, enters the channels its contacts
    call for, leaves one entry per channel entered, and the chat entry says
    success when the phone value is a string. *)
Definition dispatches_by_contact (user_info : Dict.t pyval)
  (m : M (Dict.t NotificationSystem.result)) (w : world) : Prop :=
  let has_phone := truthy (param_get "phone" user_info) in
  let has_email := truthy (param_get "email" user_info) in
  exists results evs,
    m w = (inr results, with_trace (trace w ++ evs) w) /\
    seen channel_of evs
      = ((if has_phone then [SendSms; SendWhatsapp] else [])
         ++ (if has_email then [SendEmail] else []))%list /\
    Dict.keys results
      = ((if has_phone then ["sms"; "whatsapp"] else [])
         ++ (if has_email then ["email"] else []))%list /\
    (has_phone = true -> is_str (param_get "phone" user_info) = true ->
     channel_ok "whatsapp" results = true).

(** Every quantity of the cart fits in eight bytes, so that the store takes
    the cart when it is written. *)
Definition cart_fits (c : cart) : bool :=
  forallb (fun kv => Mongo.fits_int64 (snd kv)) c.

(** The contact values on file for a session, [None] for what is missing. *)
Definition phone_on_file (session_id : string) (w : world) : pyval :=
  match Dict.get session_id (user_contacts w) with
  | Some d => phone d
  | None => PNone
  end.

Definition email_on_file (session_id : string) (w : world) : pyval :=
  match Dict.get session_id (user_contacts w) with
  | Some d => email d
  | None => PNone
  end.

(** Every character of [s] satisfies [p]. *)
Fixpoint str_forall (p : ascii -> bool) (s : string) : bool :=
  match s with
  | EmptyString => true
  | String c r => p c && str_forall p r
  end.

(** The characters of a sanitized item name: lower-case letters, digits, the
    hyphen and the space. *)
Definition clean_char (c : ascii) : bool :=
  is_lower c || is_digit c || Ascii.eqb c "-" || Ascii.eqb c " ".

(** The URLs of the requests in a list of events, oldest first. *)
Definition posted (evs : list event) : list string :=
  flat_map (fun e => match e with HttpPost u _ _ => [u] | _ => [] end) evs.

(** The events that leave the process: HTTP requests and SMTP sessions. *)
Definition outbound (evs : list event) : list event :=
  filter (fun e => match e with Enter _ _ => false | _ => true end) evs.

(** The three endpoints [_send_whatsapp_greenapi] tries, in order. *)
Definition greenapi_urls (self : NotificationSystem.t) : list string :=
  ["https://" ++ NotificationSystem.or_default
                   (NotificationSystem.greenapi_instance_id self) "None"
     ++ ".api.greenapi.com/waSendText";
   "https://api.greenapi.com/waSendText";
   "https://greenapi.com/api/waSendText"].

(** The success record of the GreenAPI provider. *)
Definition greenapi_result : NotificationSystem.result :=
  [("success", PBool true); ("method", PStr "greenapi")].

(** The instance [NotificationSystem()] builds from an environment. *)
Definition instance_of (e : environ) : NotificationSystem.t :=
  NotificationSystem.Make (MSG91_AUTH_KEY e)
    (NotificationSystem.or_default (MSG91_TEMPLATE_ID e) "default_template")
    (NotificationSystem.or_default (MSG91_SENDER_ID e) "FOODIB")
    (WHATSAPP_TOKEN e) (WHATSAPP_PHONE_ID e)
    (GREENAPI_INSTANCE_ID e) (GREENAPI_TOKEN e)
    (EMAIL_USER e) (EMAIL_PASSWORD e)
    "smtp.gmail.com" 587.

(** No remote provider of the instance has its credentials. *)
Definition no_provider (self : NotificationSystem.t) : Prop :=
  NotificationSystem.configured (NotificationSystem.msg91_auth_key self) = false /\
  NotificationSystem.configured (NotificationSystem.whatsapp_token self)
    && NotificationSystem.configured (NotificationSystem.whatsapp_phone_id self) = false /\
  NotificationSystem.configured (NotificationSystem.greenapi_token self)
    && NotificationSystem.configured (NotificationSystem.greenapi_instance_id self) = false /\
  NotificationSystem.configured (NotificationSystem.email_user self)
    && NotificationSystem.configured (NotificationSystem.email_password self) = false.

(** A name as [sanitize_food_item] leaves it: at most 30 characters, all of
    them clean. *)
Definition clean_name (k : string) : Prop :=
  str_forall clean_char k = true /\ (String.length k <= 30)%nat.

(** Every key of every persisted cart is a clean name. *)
Definition store_clean (w : world) : Prop :=
  forall sid c, In (sid, c) (inprogress_orders w) ->
  forall k, In k (Dict.keys c) -> clean_name k.

(* ===================================================================== *)
(** ** Facts on dicts *)
(* ===================================================================== *)

Unset Implicit Arguments.

Section DictFacts.
Context {V : Type}.
Implicit Types (d : Dict.t V) (k : string) (v : V).

Lemma get_set_same k v d : Dict.get k (Dict.set k v d) = Some v.
Proof.
  induction d as [|[k' v'] r IH]; simpl.
  - now rewrite String.eqb_refl.
  - destruct (String.eqb k k') eqn:E; simpl; rewrite ?String.eqb_refl, ?E; auto.
Qed.

Lemma get_set_other k k' v d :
  k <> k' -> Dict.get k' (Dict.set k v d) = Dict.get k' d.
Proof.
  intros N. induction d as [|[k0 v0] r IH]; simpl.
  - destruct (String.eqb_spec k' k); congruence.
  - destruct (String.eqb_spec k k0); simpl.
    + subst k0. destruct (String.eqb_spec k' k); congruence.
    + destruct (String.eqb_spec k' k0); auto.
Qed.

Lemma get_remove_same k d : Dict.get k (Dict.remove k d) = None.
Proof.
  unfold Dict.remove. induction d as [|[k' v'] r IH]; simpl; auto.
  destruct (String.eqb k k') eqn:E; simpl; rewrite ?E; auto.
Qed.

Lemma get_remove_other k k' d :
  k <> k' -> Dict.get k' (Dict.remove k d) = Dict.get k' d.
Proof.
  intros N. unfold Dict.remove. induction d as [|[k0 v0] r IH]; simpl; auto.
  destruct (String.eqb_spec k k0); simpl.
  - subst k0. destruct (String.eqb_spec k' k); congruence.
  - destruct (String.eqb_spec k' k0); auto.
Qed.

Lemma keys_set k v d x :
  In x (Dict.keys (Dict.set k v d)) <-> x = k \/ In x (Dict.keys d).
Proof.
  unfold Dict.keys. induction d as [|[k' v'] r IH]; simpl.
  - intuition.
  - destruct (String.eqb_spec k k'); simpl.
    + subst. intuition.
    + rewrite IH. intuition.
Qed.

Lemma keys_of_zip ks : forall (vs : list V) (acc : Dict.t V) x,
  In x (Dict.keys (Dict.of_zip acc ks vs)) ->
  In x ks \/ In x (Dict.keys acc).
Proof.
  induction ks as [|k ks IH]; intros [|v vs] acc x; simpl; auto.
  intros H. apply IH in H. rewrite keys_set in H. intuition.
Qed.

Lemma of_zip_keeps ks : forall (vs : list V) (acc : Dict.t V) x,
  In x (Dict.keys acc) -> In x (Dict.keys (Dict.of_zip acc ks vs)).
Proof.
  induction ks as [|k ks IH]; intros [|v vs] acc x; simpl; auto.
  intros H. apply IH. rewrite keys_set. auto.
Qed.

Lemma of_zip_covers ks : forall (vs : list V) (acc : Dict.t V) x,
  List.length ks = List.length vs ->
  In x ks -> In x (Dict.keys (Dict.of_zip acc ks vs)).
Proof.
  induction ks as [|k ks IH]; intros [|v vs] acc x; simpl; try easy.
  intros L [->|H].
  - apply of_zip_keeps. rewrite keys_set. auto.
  - apply IH; auto.
Qed.

Lemma values_of_zip (P : V -> Prop) ks : forall (vs : list V) (acc : Dict.t V),
  Forall P vs -> Forall (fun kv => P (snd kv)) acc ->
  Forall (fun kv => P (snd kv)) (Dict.of_zip acc ks vs).
Proof.
  induction ks as [|k ks IH]; intros [|v vs] acc Hv Ha; simpl; auto.
  inversion Hv; subst. apply IH; auto.
  clear - Ha H1. induction acc as [|[k' v'] r IHr]; simpl.
  - constructor; auto.
  - inversion Ha; subst. destruct (String.eqb k k'); constructor; auto.
Qed.

End DictFacts.

(* ===================================================================== *)
(** ** The store under its fault schedule *)
(* ===================================================================== *)

Lemma call_eq {A} (op : world -> A * world) (w : world) :
  Mongo.call op w =
  if faulty w
  then (inl (PyMongoError "ServerSelectionTimeoutError"), advance w)
  else let (a, w') := op (advance w) in (inr a, w').
Proof.
  unfold Mongo.call, faulty, advance.
  destruct w as [fi io uc f c e h s t]; simpl.
  destruct f as [|[] f]; reflexivity.
Qed.

Lemma advance_reliable w : faults w = [] -> advance w = w.
Proof. destruct w; simpl; intros ->; reflexivity. Qed.

Lemma faulty_reliable w : faults w = [] -> faulty w = false.
Proof. unfold faulty; intros ->; reflexivity. Qed.

Lemma food_item_exists_eq item w :
  db_helper.food_item_exists item w =
  (inr (negb (faulty w) && in_catalog (food_items w) item), advance w).
Proof.
  unfold db_helper.food_item_exists, try_except, bind, Mongo.find_food.
  rewrite call_eq. destruct (faulty w); simpl; [reflexivity|].
  unfold in_catalog, ret.
  induction (food_items w) as [|d r IH]; simpl; [reflexivity|].
  destruct (Mongo.name_matches item d); simpl; auto.
Qed.

Lemma get_order_eq sid w :
  get_order sid w = (inr (if faulty w then [] else cart_of sid w), advance w).
Proof.
  unfold get_order, db_helper.get_inprogress_order, try_except, bind, Mongo.find_order.
  rewrite call_eq. destruct (faulty w); simpl; [reflexivity|].
  unfold cart_of. destruct (Dict.get sid (inprogress_orders w)); reflexivity.
Qed.

Lemma set_order_eq sid c w :
  set_order sid c w =
  (inr tt, if faulty w then advance w
           else with_orders (Dict.set sid c (inprogress_orders w)) (advance w)).
Proof.
  unfold set_order, db_helper.set_inprogress_order, try_except, Mongo.upsert_order.
  rewrite call_eq. destruct (faulty w); reflexivity.
Qed.

Lemma delete_order_eq sid w :
  delete_order sid w =
  (inr tt, if faulty w then advance w
           else with_orders (Dict.remove_first sid (inprogress_orders w)) (advance w)).
Proof.
  unfold delete_order, db_helper.delete_inprogress_order, try_except, Mongo.delete_order.
  rewrite call_eq. destruct (faulty w); reflexivity.
Qed.

Lemma get_item_price_eq item w :
  db_helper.get_item_price item w =
  (inr (if faulty w then 0 else price_of (food_items w) item), advance w).
Proof.
  unfold db_helper.get_item_price, try_except, bind, Mongo.find_food.
  rewrite call_eq. destruct (faulty w); simpl; [reflexivity|].
  unfold price_of. destruct (find _ _); reflexivity.
Qed.


(* ===================================================================== *)
(** ** Validation and the add loop *)
(* ===================================================================== *)

Lemma with_faults_same w : with_faults (faults w) w = w.
Proof. destruct w; reflexivity. Qed.

Lemma validate_ok p :
  fst (validate_order_params p) = true ->
  exists items,
    param_get "food-item" p = PList items /\ items <> [] /\
    forallb is_str items = true /\
    (truthy (param_get "number" p) = true ->
     exists qs zs,
       param_get "number" p = PList qs /\
       List.length qs = List.length items /\
       py_ints qs = inr zs /\ forallb (fun q => 0 <? q) zs = true).
Proof.
  unfold validate_order_params.
  destruct (param_get "food-item" p) as [| | | |items|] eqn:F; simpl; try discriminate.
  destruct items as [|i items]; simpl; [discriminate|].
  destruct (is_str i && forallb is_str items) eqn:St; simpl; [|discriminate].
  intros H. exists (i :: items). repeat split; auto; [discriminate|].
  intros T. rewrite T in H.
  destruct (param_get "number" p) as [| | | |qs|]; simpl in H; try discriminate.
  destruct (Nat.eqb (List.length qs) (S (List.length items))) eqn:L; simpl in H;
    [|discriminate].
  destruct (py_ints qs) as [e|zs] eqn:Z; simpl in H; [discriminate|].
  destruct (forallb (fun q => 0 <? q) zs) eqn:P; simpl in H; [|discriminate].
  exists qs, zs. repeat split; auto. now apply Nat.eqb_eq.
Qed.

Lemma sanitize_all_strs items :
  forallb is_str items = true ->
  sanitize_all items = inr (names_of items) /\
  List.length (names_of items) = List.length items.
Proof.
  induction items as [|v r IH]; simpl; [auto|].
  destruct v; simpl; try discriminate. intros H.
  destruct (IH H) as [-> L]. simpl. auto.
Qed.

Lemma py_ints_length qs : forall zs,
  py_ints qs = inr zs -> List.length zs = List.length qs.
Proof.
  induction qs as [|q r IH]; simpl; intros zs H.
  - now inversion H.
  - destruct (py_int q); [discriminate|].
    destruct (py_ints r) as [|zs']; [discriminate|].
    inversion H; subst; simpl. f_equal. now apply IH.
Qed.

Lemma param_item_get k p v :
  param_get k p = v -> v <> PNone -> param_item k p = inr v.
Proof.
  unfold param_get, param_item. destruct (Dict.get k p); congruence.
Qed.

(** What the loop of [add_to_order] does, whatever the schedule: it returns,
    only the schedule moves, an early return names an item of the batch, and a
    completed loop is the additive merge of a batch the catalog has. *)
Lemma add_items_spec l : forall c w,
  exists o f,
    add_items l c w = (inr o, with_faults f w) /\
    (faults w = [] -> f = []) /\
    match o with
    | inl r => exists item, In item (map fst l) /\ r = not_available item /\
                 (faults w = [] -> in_catalog (food_items w) item = false)
    | inr c' => c' = merge_items l c /\
                 forall item, In item (map fst l) ->
                              in_catalog (food_items w) item = true
    end.
Proof.
  induction l as [|[item qty] l IH]; intros c w.
  - exists (inr c), (faults w). simpl. unfold ret. rewrite with_faults_same.
    split; [reflexivity|]. split; [auto|]. split; [reflexivity|]. intros ? [].
  - simpl. unfold bind. rewrite food_item_exists_eq.
    destruct (negb (faulty w) && in_catalog (food_items w) item) eqn:B; simpl.
    + apply andb_prop in B as [Bf Bc].
      destruct (IH (Dict.set item
                      (match Dict.get item c with Some q => q | None => 0 end + qty) c)
                   (advance w)) as (o & f & E & F & O).
      exists o, f. rewrite E. split; [reflexivity|]. split.
      * intros R. apply F. unfold advance; simpl. now rewrite R.
      * destruct o as [r|c'].
        -- destruct O as (it & I & -> & N). exists it. repeat split; auto.
           intros R. apply N. unfold advance; simpl. now rewrite R.
        -- destruct O as [-> A]. split; [reflexivity|].
           intros it [<-|I]; auto.
    + exists (inl (not_available item)), (tl (faults w)). unfold ret.
      split; [reflexivity|]. split; [now intros ->|].
      exists item. repeat split; auto.
      intros R. rewrite (faulty_reliable _ R) in B. exact B.
Qed.

#[local] Arguments get_order : simpl never.
#[local] Arguments set_order : simpl never.
#[local] Arguments delete_order : simpl never.
#[local] Arguments add_items : simpl never.
#[local] Arguments db_helper.food_item_exists : simpl never.
#[local] Arguments db_helper.get_item_price : simpl never.
#[local] Arguments db_helper.get_user_phone : simpl never.
#[local] Arguments db_helper.get_user_email : simpl never.
#[local] Arguments db_helper.set_user_phone : simpl never.
#[local] Arguments db_helper.set_user_email : simpl never.
#[local] Arguments Dict.of_zip : simpl never.
#[local] Arguments generic_helper.get_str_from_food_dict : simpl never.
#[local] Arguments String.append : simpl never.

Lemma names_of_in raw items :
  In (PStr raw) items -> In (sanitize_food_item raw) (names_of items).
Proof.
  unfold names_of. intros H. apply in_flat_map. exists (PStr raw). simpl; auto.
Qed.

(** [add_to_order] once the request has passed validation with a quantity
    list: read the cart, run the loop, write the merged cart. *)
Lemma add_to_order_valid p sid w items qs zs :
  fst (validate_order_params p) = true ->
  param_get "food-item" p = PList items -> forallb is_str items = true ->
  param_get "number" p = PList qs -> py_ints qs = inr zs ->
  add_to_order p sid w =
  match add_items (Dict.of_zip [] (names_of items) zs)
                  (if faulty w then [] else cart_of sid w) (advance w) with
  | (inr (inl early), w1) => (inr early, w1)
  | (inr (inr current_order), w1) =>
      (inr (added current_order), snd (set_order sid current_order w1))
  | (inl _, w1) =>
      (inr (error_response "Sorry, an error occurred while adding to your order."), w1)
  end.
Proof.
  intros V F S N Hz.
  unfold add_to_order. destruct (validate_order_params p) as [b msg].
  simpl in V; subst b. simpl.
  unfold try_except, bind, lift.
  rewrite (param_item_get _ _ _ F) by discriminate. simpl.
  rewrite (proj1 (sanitize_all_strs _ S)).
  rewrite (param_item_get _ _ _ N) by discriminate. simpl.
  rewrite Hz, get_order_eq.
  destruct (add_items _ _ _) as [[e|[r|c']] w1]; try reflexivity.
  rewrite set_order_eq. reflexivity.
Qed.

(** C1 (as amended).  A request that passes validation with a quantity list and
    names an item the catalog does not have is answered by the not-available
    error for an item of the request, and no persisted cart changes; on a store
    that answers, the named item is one the catalog does not have and the
    world is left as it was. *)
Theorem add_unknown_item_rejected
  (w : world) (p : Dict.t pyval) (sid raw : string) (items : list pyval) :
  fst (validate_order_params p) = true ->
  truthy (param_get "number" p) = true ->
  param_get "food-item" p = PList items ->
  In (PStr raw) items ->
  in_catalog (food_items w) (sanitize_food_item raw) = false ->
  exists item w',
    add_to_order p sid w = (inr (not_available item), w') /\
    In item (names_of items) /\
    inprogress_orders w' = inprogress_orders w /\
    cart_of sid w' = cart_of sid w /\
    (faults w = [] -> in_catalog (food_items w) item = false /\ w' = w).
Proof.
  intros V T F I U.
  destruct (validate_ok _ V) as (items' & F' & NE & S & Q).
  rewrite F in F'. inversion F'; subst items'. clear F'.
  destruct (Q T) as (qs & zs & N & L & Hz & P).
  rewrite (add_to_order_valid p sid w items qs zs V F S N Hz).
  destruct (add_items_spec (Dict.of_zip [] (names_of items) zs)
              (if faulty w then [] else cart_of sid w) (advance w))
    as (o & f & E & R & O).
  rewrite E.
  assert (K : In (sanitize_food_item raw)
                 (map fst (Dict.of_zip [] (names_of items) zs))).
  { apply of_zip_covers.
    - rewrite (proj2 (sanitize_all_strs _ S)), (py_ints_length _ _ Hz). auto.
    - now apply names_of_in. }
  destruct o as [r|c].
  - destruct O as (item & Iitem & -> & Nc).
    exists item, (with_faults f (advance w)). split; [reflexivity|]. split.
    + apply keys_of_zip in Iitem. destruct Iitem as [?|[]]; auto.
    + split; [reflexivity|]. split; [reflexivity|].
      intros Rw.
      assert (Ra : faults (advance w) = []) by (unfold advance; simpl; now rewrite Rw).
      split; [now apply Nc|].
      rewrite (R Ra). change (with_faults [] w = w).
      rewrite <- Rw. apply with_faults_same.
  - destruct O as [_ All]. specialize (All _ K). simpl in All. congruence.
Qed.

(* ===================================================================== *)
(** ** The removal loop *)
(* ===================================================================== *)

#[local] Arguments for_each : simpl never.
#[local] Arguments remove_step : simpl never.

Lemma py_ints_ones n : py_ints (repeat (PInt 1) n) = inr (repeat 1 n).
Proof. induction n as [|n IH]; simpl; [reflexivity|]. now rewrite IH. Qed.

Lemma requested_length p items :
  fst (validate_order_params p) = true ->
  param_get "food-item" p = PList items ->
  List.length (requested p (List.length items)) = List.length items.
Proof.
  intros V F. destruct (validate_ok _ V) as (items' & F' & _ & _ & Q).
  rewrite F in F'. inversion F'; subst items'.
  unfold requested. destruct (truthy (param_get "number" p)) eqn:T.
  - destruct (Q eq_refl) as (qs & zs & -> & L & Hz & _).
    rewrite Hz. apply py_ints_length in Hz. congruence.
  - apply repeat_length.
Qed.

(** [remove_from_order] once the request has passed validation: read the cart,
    run the loop, then delete the record or write what is left. *)
Lemma remove_from_order_valid p sid w items :
  fst (validate_order_params p) = true ->
  param_get "food-item" p = PList items ->
  remove_from_order p sid w =
  match for_each (zip (names_of items) (requested p (List.length items)))
                 remove_step
                 (Removal (if faulty w then [] else cart_of sid w) [] [])
                 (advance w) with
  | (inr st, w1) =>
      (inr (removal_response st),
       match current st with
       | [] => snd (delete_order sid w1)
       | _ => snd (set_order sid (current st) w1)
       end)
  | (inl _, w1) =>
      (inr (error_response "Sorry, an error occurred while removing from your order."),
       w1)
  end.
Proof.
  intros V F. destruct (validate_ok _ V) as (items' & F' & NE & S & Q).
  rewrite F in F'. inversion F'; subst items'. clear F'.
  unfold remove_from_order. destruct (validate_order_params p) as [b msg].
  simpl in V; subst b. simpl.
  unfold try_except, bind, lift.
  rewrite (param_item_get _ _ _ F) by discriminate. simpl.
  destruct (sanitize_all_strs _ S) as [-> Ln]. rewrite Ln.
  unfold requested.
  destruct (truthy (param_get "number" p)) eqn:T.
  - destruct (Q eq_refl) as (qs & zs & -> & L & Hz & _). simpl.
    rewrite Hz, get_order_eq.
    destruct (for_each _ _ _ _) as [[e|st] w1]; [reflexivity|].
    unfold removal_response, removal_text.
    destruct (current st); [rewrite delete_order_eq|rewrite set_order_eq]; reflexivity.
  - rewrite py_ints_ones, get_order_eq.
    destruct (for_each _ _ _ _) as [[e|st] w1]; [reflexivity|].
    unfold removal_response, removal_text.
    destruct (current st); [rewrite delete_order_eq|rewrite set_order_eq]; reflexivity.
Qed.

Lemma for_each_cons {A S} (x : A) (l : list A) (body : A -> S -> M S) (s : S) w :
  for_each (x :: l) body s w =
  match body x s w with
  | (inr s', w') => for_each l body s' w'
  | (inl e, w') => (inl e, w')
  end.
Proof. reflexivity. Qed.

Lemma for_each_nil {A S} (body : A -> S -> M S) (s : S) w :
  for_each [] body s w = (inr s, w).
Proof. reflexivity. Qed.

Lemma remove_set_same {V} k (v : V) d :
  Dict.remove k (Dict.set k v d) = Dict.remove k d.
Proof.
  unfold Dict.remove. induction d as [|[k' v'] r IH]; simpl.
  - now rewrite String.eqb_refl.
  - destruct (String.eqb k k') eqn:E; simpl; rewrite ?String.eqb_refl, ?E; simpl; auto.
    now rewrite IH.
Qed.

Lemma remove_step_present item qty st w have :
  Dict.get item (current st) = Some have ->
  remove_step (item, qty) st w =
  (inr (Removal (Dict.remove item (current st))
                (removed_items st ++ [str_of_Z (Z.min have qty) ++ " " ++ item])
                (no_such_items st)), w).
Proof.
  intros H. unfold remove_step. rewrite H.
  destruct (Z.ltb_spec qty have); simpl; unfold Dict.mem.
  - rewrite get_set_same, remove_set_same. now rewrite Z.min_r by lia.
  - rewrite H. now rewrite Z.min_l by lia.
Qed.

Lemma remove_step_absent item qty st w :
  Dict.get item (current st) = None ->
  remove_step (item, qty) st w = (inl (KeyError item), w).
Proof.
  intros H. unfold remove_step. rewrite H. simpl. unfold Dict.mem. now rewrite H.
Qed.

Lemma held_remove_other c a x : a <> x -> held (Dict.remove a c) x = held c x.
Proof. intros N. unfold held. now rewrite get_remove_other. Qed.

Lemma get_without names : forall (c : cart) k,
  Dict.get k (without names c) = if in_dec string_dec k names then None else Dict.get k c.
Proof.
  induction names as [|a names IH]; intros c k; [reflexivity|].
  change (without (a :: names) c) with (without names (Dict.remove a c)).
  rewrite IH. destruct (in_dec string_dec k names) as [I|I];
    destruct (in_dec string_dec k (a :: names)) as [J|J]; simpl in *; auto.
  - tauto.
  - destruct J as [->|J]; [apply get_remove_same|contradiction].
  - apply get_remove_other. intros ->. tauto.
Qed.

(** The loop on a request whose names are distinct and all in the cart: every
    named entry goes, and each report carries the smaller of the quantity held
    and the quantity asked. *)
Lemma remove_loop_present names : forall qs c r n w,
  List.length names = List.length qs -> NoDup names ->
  (forall x, In x names -> Dict.mem x c = true) ->
  for_each (zip names qs) remove_step (Removal c r n) w =
  (inr (Removal (without names c)
                (r ++ map (removal_report c) (zip names qs)) n), w).
Proof.
  induction names as [|a names IH]; intros [|q qs] c r n w L D P; try discriminate.
  - simpl. rewrite for_each_nil, app_nil_r. reflexivity.
  - simpl zip. unfold zip; simpl combine. rewrite for_each_cons.
    assert (Ha : exists have, Dict.get a c = Some have).
    { specialize (P a (or_introl eq_refl)). unfold Dict.mem in P.
      destruct (Dict.get a c) as [h|]; [eauto|discriminate]. }
    destruct Ha as [have Ha].
    rewrite (remove_step_present a q (Removal c r n) w have Ha). simpl.
    inversion D as [|? ? Na D']; subst.
    fold (zip names qs). rewrite IH; auto.
    + change (without (a :: names) c) with (without names (Dict.remove a c)).
      f_equal. f_equal. rewrite <- app_assoc. simpl. f_equal. f_equal.
      unfold removal_report at 2, held; simpl. rewrite Ha. f_equal.
      apply map_ext_in. intros [x qx] I. unfold zip in I. apply in_combine_l in I.
        unfold removal_report; simpl. rewrite held_remove_other; auto.
        intros ->. contradiction.
    + intros x I. unfold Dict.mem. rewrite get_remove_other.
      * apply (P x). now right.
      * intros ->. contradiction.
Qed.

Lemma get_remove_first_unique {V} k (d : Dict.t V) :
  NoDup (Dict.keys d) -> Dict.get k (Dict.remove_first k d) = None.
Proof.
  unfold Dict.keys. induction d as [|[k' v'] r IH]; simpl; intros D; [reflexivity|].
  inversion D as [|? ? N D']; subst.
  destruct (String.eqb_spec k k') as [->|Ne]; simpl.
  - clear - N. induction r as [|[k0 v0] r IHr]; simpl in *; [reflexivity|].
    destruct (String.eqb_spec k' k0) as [->|]; [tauto|]. apply IHr. tauto.
  - destruct (String.eqb_spec k k'); [contradiction|]. now apply IH.
Qed.

(** C2 (as amended).  On a store that answers and keeps one cart record per
    session, a removal request that passes validation, whose sanitized names
    are pairwise distinct and all in the cart, succeeds; it reports for each
    item the smaller of the quantity held and the quantity asked, and every
    named item is gone from the cart it returns and from the persisted cart,
    also when less was asked than was held. *)
Theorem remove_clears_named_items
  (w : world) (p : Dict.t pyval) (sid : string) (items : list pyval) (c : cart) :
  faults w = [] ->
  NoDup (Dict.keys (inprogress_orders w)) ->
  fst (validate_order_params p) = true ->
  param_get "food-item" p = PList items ->
  NoDup (names_of items) ->
  cart_of sid w = c ->
  (forall x, In x (names_of items) -> Dict.mem x c = true) ->
  exists r w',
    remove_from_order p sid w = (inr r, w') /\
    status_of r = Some (JStr "success") /\
    Dict.get "removed_items" r =
      Some (JStrs (map (removal_report c)
                       (zip (names_of items) (requested p (List.length items))))) /\
    Dict.get "remaining_items" r = Some (JCart (without (names_of items) c)) /\
    cart_of sid w' = without (names_of items) c /\
    (forall x, In x (names_of items) ->
               Dict.mem x (without (names_of items) c) = false).
Proof.
  intros R U V F D C P.
  rewrite (remove_from_order_valid p sid w items V F).
  rewrite (faulty_reliable _ R), (advance_reliable _ R), C.
  destruct (validate_ok _ V) as (items' & F' & _ & S & _).
  rewrite F in F'. inversion F'; subst items'. clear F'.
  rewrite remove_loop_present; auto.
  2:{ rewrite (requested_length p items V F). apply (proj2 (sanitize_all_strs _ S)). }
  eexists _, _. split; [reflexivity|].
  unfold removal_response; simpl.
  destruct (without (names_of items) c) as [|e rest] eqn:W.
  - split; [reflexivity|]. split; [reflexivity|]. split; [reflexivity|]. split.
    + rewrite delete_order_eq, (faulty_reliable _ R), (advance_reliable _ R).
      unfold cart_of; simpl. now rewrite get_remove_first_unique.
    + intros x I. unfold Dict.mem. rewrite <- W, get_without.
      destruct (in_dec string_dec x (names_of items)); [reflexivity|contradiction].
  - split; [reflexivity|]. split; [reflexivity|]. split; [reflexivity|]. split.
    + rewrite set_order_eq, (faulty_reliable _ R), (advance_reliable _ R).
      unfold cart_of; simpl. now rewrite get_set_same.
    + intros x I. unfold Dict.mem. rewrite <- W, get_without.
      destruct (in_dec string_dec x (names_of items)); [reflexivity|contradiction].
Qed.

(* ===================================================================== *)
(** ** Positivity of the persisted carts *)
(* ===================================================================== *)

Lemma positive_set (c : cart) k q :
  cart_positive c -> 0 < q -> cart_positive (Dict.set k q c).
Proof.
  unfold cart_positive. induction c as [|[k' q'] r IH]; simpl; intros H Q.
  - constructor; auto.
  - inversion H; subst. destruct (String.eqb k k'); constructor; auto.
Qed.

Lemma positive_remove (c : cart) k :
  cart_positive c -> cart_positive (Dict.remove k c).
Proof.
  unfold cart_positive, Dict.remove. intros H.
  apply Forall_forall. intros x I. apply filter_In in I as [I _].
  revert x I. now apply Forall_forall.
Qed.

Lemma positive_get (c : cart) k q :
  cart_positive c -> Dict.get k c = Some q -> 0 < q.
Proof.
  unfold cart_positive. induction c as [|[k' q'] r IH]; simpl; intros H G.
  - discriminate.
  - inversion H; subst. destruct (String.eqb k k'); [inversion G; now subst|auto].
Qed.

Lemma positive_merge l : forall c,
  Forall (fun kv => 0 < snd kv) l -> cart_positive c ->
  cart_positive (merge_items l c).
Proof.
  unfold merge_items.
  induction l as [|[k q] l IH]; simpl; intros c H C; [exact C|].
  inversion H; subst. apply IH; auto. apply positive_set; auto.
  destruct (Dict.get k c) as [q0|] eqn:G; simpl in *.
  - pose proof (positive_get c k q0 C G). lia.
  - lia.
Qed.

Lemma store_positive_cart sid w :
  store_positive w -> cart_positive (if faulty w then [] else cart_of sid w).
Proof.
  intros H. destruct (faulty w); [constructor|].
  unfold cart_of, store_positive in *.
  induction (inprogress_orders w) as [|[s c] r IH]; simpl; [constructor|].
  inversion H; subst. destruct (String.eqb sid s); auto.
Qed.

Lemma store_positive_moved w f :
  store_positive w -> store_positive (with_faults f w).
Proof. auto. Qed.

Lemma store_positive_set sid c w :
  store_positive w -> cart_positive c ->
  store_positive (snd (set_order sid c w)).
Proof.
  intros H C. rewrite set_order_eq. destruct (faulty w); simpl; [exact H|].
  unfold store_positive in *; simpl.
  induction (inprogress_orders w) as [|[s c'] r IH]; simpl.
  - constructor; auto.
  - inversion H; subst. destruct (String.eqb sid s); constructor; auto.
Qed.

Lemma store_positive_delete sid w :
  store_positive w -> store_positive (snd (delete_order sid w)).
Proof.
  intros H. rewrite delete_order_eq. destruct (faulty w); simpl; [exact H|].
  unfold store_positive in *; simpl.
  induction (inprogress_orders w) as [|[s c'] r IH]; simpl; [constructor|].
  inversion H; subst. destruct (String.eqb sid s); auto.
Qed.

Lemma forallb_positive zs :
  forallb (fun q => 0 <? q) zs = true -> Forall (fun q => 0 < q) zs.
Proof.
  induction zs as [|z zs IH]; simpl; intros H; constructor;
    apply andb_prop in H as [H1 H2]; [now apply Z.ltb_lt|auto].
Qed.

(** [add_to_order] keeps every persisted cart positive. *)
Lemma add_to_order_positive p sid w :
  store_positive w -> store_positive (snd (add_to_order p sid w)).
Proof.
  intros H.
  destruct (fst (validate_order_params p)) eqn:V.
  2:{ unfold add_to_order. destruct (validate_order_params p) as [b msg].
      simpl in V; subst b. exact H. }
  destruct (validate_ok _ V) as (items & F & NE & S & Q).
  destruct (truthy (param_get "number" p)) eqn:T.
  - destruct (Q eq_refl) as (qs & zs & N & L & Hz & P).
    rewrite (add_to_order_valid p sid w items qs zs V F S N Hz).
    destruct (add_items_spec (Dict.of_zip [] (names_of items) zs)
                (if faulty w then [] else cart_of sid w) (advance w))
      as (o & f & E & _ & O).
    rewrite E. destruct o as [r|c]; [exact H|].
    destruct O as [-> _]. apply store_positive_set; [exact H|].
    apply positive_merge; [|now apply store_positive_cart].
    apply (values_of_zip (fun q => 0 < q)); [now apply forallb_positive|constructor].
  - unfold add_to_order. destruct (validate_order_params p) as [b msg].
    simpl in V; subst b. simpl.
    unfold try_except, bind, lift.
    rewrite (param_item_get _ _ _ F) by discriminate. simpl.
    rewrite (proj1 (sanitize_all_strs _ S)).
    unfold param_get in T. unfold param_item.
    destruct (Dict.get "number" p) as [v|]; [|exact H].
    assert (E : py_iter v = inr [] \/ exists e, py_iter v = inl e).
    { destruct v as [| | |s|l|d]; simpl in *; eauto.
      - destruct s; [auto|discriminate].
      - destruct l; [auto|discriminate].
      - destruct d; [auto|discriminate]. }
    destruct E as [->|[e ->]]; [|exact H]. simpl.
    rewrite get_order_eq.
    replace (Dict.of_zip [] (names_of items) []) with (@nil (string * Z))
      by (destruct (names_of items); reflexivity).
    change (add_items [] ?c ?w0) with (@inr exn (response + cart) (inr c), w0).
    pose proof (store_positive_set sid _ (advance w) H (store_positive_cart sid w H)) as K.
    cbv beta iota. destruct (set_order sid _ (advance w)) as [[e|[]] w2]; exact K.
Qed.

(** The removal loop leaves the world alone and keeps the cart positive. *)
Lemma remove_loop_positive l : forall st w,
  cart_positive (current st) ->
  exists res, for_each l remove_step st w = (res, w) /\
              forall st', res = inr st' -> cart_positive (current st').
Proof.
  induction l as [|[item qty] l IH]; intros st w C.
  - exists (inr st). split; [reflexivity|]. intros st' E. now inversion E; subst.
  - rewrite for_each_cons.
    destruct (Dict.get item (current st)) as [have|] eqn:G.
    + rewrite (remove_step_present item qty st w have G).
      apply IH. simpl. now apply positive_remove.
    + rewrite (remove_step_absent item qty st w G).
      eexists. split; [reflexivity|]. discriminate.
Qed.

(** [remove_from_order] keeps every persisted cart positive. *)
Lemma remove_from_order_positive p sid w :
  store_positive w -> store_positive (snd (remove_from_order p sid w)).
Proof.
  intros H.
  destruct (fst (validate_order_params p)) eqn:V.
  2:{ unfold remove_from_order. destruct (validate_order_params p) as [b msg].
      simpl in V; subst b. exact H. }
  destruct (validate_ok _ V) as (items & F & _).
  rewrite (remove_from_order_valid p sid w items V F).
  destruct (remove_loop_positive
              (zip (names_of items) (requested p (List.length items)))
              (Removal (if faulty w then [] else cart_of sid w) [] []) (advance w)
              (store_positive_cart sid w H)) as (res & -> & C).
  destruct res as [e|st]; [exact H|]. simpl.
  specialize (C st eq_refl).
  destruct (current st) eqn:Cs.
  - now apply (store_positive_delete sid (advance w)).
  - apply (store_positive_set sid _ (advance w)); [exact H|]. exact C.
Qed.

(** C9.  In every world reached from a store without carts by calls of
    [add_to_order] and [remove_from_order], every entry of every persisted
    cart has a strictly positive quantity: nothing is stored at zero or
    below. *)
Theorem cart_positivity_invariant (w : world) :
  reachable w ->
  forall sid item q, Dict.get item (cart_of sid w) = Some q -> 0 < q.
Proof.
  intros R.
  assert (P : store_positive w).
  { induction R as [w E|w p sid R IH|w p sid R IH|w f R IH].
    - unfold store_positive. rewrite E. constructor.
    - now apply add_to_order_positive.
    - now apply remove_from_order_positive.
    - exact IH. }
  intros sid item q G.
  apply (positive_get (cart_of sid w) item q); [|exact G].
  assert (C := store_positive_cart sid (with_faults [] w) P).
  exact C.
Qed.

(** With a quantity list given, validation passes exactly when the list has one
    entry per item, every entry converts to an integer and every integer is
    positive. *)
Lemma validate_with_quantities p items :
  param_get "food-item" p = PList items -> items <> [] ->
  forallb is_str items = true ->
  truthy (param_get "number" p) = true ->
  (fst (validate_order_params p) = true <->
   exists qs zs,
     param_get "number" p = PList qs /\
     List.length qs = List.length items /\
     py_ints qs = inr zs /\ forallb (fun q => 0 <? q) zs = true).
Proof.
  intros F NE S T. split.
  - intros V. destruct (validate_ok _ V) as (items' & F' & _ & _ & Q).
    rewrite F in F'. inversion F'; subst items'. exact (Q T).
  - intros (qs & zs & N & L & Hz & P).
    unfold validate_order_params. rewrite F, N in *.
    destruct items as [|i items]; [contradiction|].
    cbn [truthy]. rewrite S. cbn [negb orb].
    destruct qs as [|q qs]; [discriminate|]. cbn [truthy].
    rewrite L, Nat.eqb_refl, Hz, P. reflexivity.
Qed.

(* ===================================================================== *)
(** ** Prices at read time *)
(* ===================================================================== *)

#[local] Arguments total_of : simpl never.
#[local] Arguments item_prices_of : simpl never.
#[local] Arguments order_placed_text : simpl never.
#[local] Arguments NotificationSystem.send_order_confirmation : simpl never.
#[local] Arguments NotificationSystem.init : simpl never.

Lemma get_user_phone_eq sid w :
  db_helper.get_user_phone sid w =
  (inr (if faulty w then PNone
        else match Dict.get sid (user_contacts w) with
             | Some d => phone d
             | None => PNone
             end), advance w).
Proof.
  unfold db_helper.get_user_phone, try_except, bind, Mongo.find_contact.
  rewrite call_eq. destruct (faulty w); simpl; [reflexivity|].
  destruct (Dict.get sid (user_contacts w)); reflexivity.
Qed.

Lemma get_user_email_eq sid w :
  db_helper.get_user_email sid w =
  (inr (if faulty w then PNone
        else match Dict.get sid (user_contacts w) with
             | Some d => email d
             | None => PNone
             end), advance w).
Proof.
  unfold db_helper.get_user_email, try_except, bind, Mongo.find_contact.
  rewrite call_eq. destruct (faulty w); simpl; [reflexivity|].
  destruct (Dict.get sid (user_contacts w)); reflexivity.
Qed.

Lemma price_of_missing catalog item :
  in_catalog catalog item = false -> price_of catalog item = 0.
Proof.
  unfold in_catalog, price_of. induction catalog as [|d r IH]; simpl; [reflexivity|].
  destruct (Mongo.name_matches item d); simpl; [discriminate|exact IH].
Qed.

Lemma total_of_reliable order : forall t w,
  faults w = [] ->
  for_each order
    (fun kv total => bind (db_helper.get_item_price (fst kv))
                          (fun p => ret (total + snd kv * p))) t w
  = (inr (fold_left (fun t kv => t + snd kv * price_of (food_items w) (fst kv))
                    order t), w).
Proof.
  induction order as [|kv order IH]; intros t w R; [reflexivity|].
  rewrite for_each_cons. unfold bind at 1.
  rewrite get_item_price_eq, (faulty_reliable _ R), (advance_reliable _ R).
  unfold ret at 1. now rewrite IH.
Qed.

Lemma item_prices_reliable keys : forall acc w,
  faults w = [] ->
  exists prices,
    for_each keys
      (fun item prices => bind (db_helper.get_item_price item)
                               (fun p => ret (Dict.set item p prices))) acc w
    = (inr prices, w).
Proof.
  induction keys as [|k keys IH]; intros acc w R; [now exists acc|].
  rewrite for_each_cons. unfold bind at 1.
  rewrite get_item_price_eq, (faulty_reliable _ R), (advance_reliable _ R).
  unfold ret at 1. now apply IH.
Qed.

Lemma fold_total_shift catalog c : forall t,
  fold_left (fun t kv => t + snd kv * price_of catalog (fst kv)) c t
  = t + cart_total catalog c.
Proof.
  unfold cart_total. induction c as [|kv c IH]; intros t; simpl; [lia|].
  rewrite IH, (IH (snd kv * price_of catalog (fst kv))). lia.
Qed.

Lemma cart_total_cons catalog kv c :
  cart_total catalog (kv :: c)
  = snd kv * price_of catalog (fst kv) + cart_total catalog c.
Proof. unfold cart_total at 1. simpl. now rewrite fold_total_shift. Qed.

(** Entries without a catalog entry add nothing to the total. *)
Lemma cart_total_catalogued catalog c :
  cart_total catalog c
  = cart_total catalog (filter (fun kv => in_catalog catalog (fst kv)) c).
Proof.
  induction c as [|kv c IH]; [reflexivity|]. simpl.
  destruct (in_catalog catalog (fst kv)) eqn:I.
  - rewrite !cart_total_cons. now rewrite IH.
  - rewrite cart_total_cons, (price_of_missing _ _ I), IH. lia.
Qed.

Lemma bind_val {A B} (m : M A) (k : A -> M B) w a w' :
  m w = (inr a, w') -> bind m k w = k a w'.
Proof. unfold bind. now intros ->. Qed.

Lemma try_except_total {A} (m : M A) (x : A) w :
  exists a w', try_except m (fun _ => ret x) w = (inr a, w').
Proof.
  unfold try_except. destruct (m w) as [[e|a] w']; eexists _, _; reflexivity.
Qed.

Lemma total_of_eq order w :
  faults w = [] ->
  total_of order w = (inr (cart_total (food_items w) order), w).
Proof. intros R. unfold total_of. now rewrite total_of_reliable. Qed.

(** [order_summary_intent] on a cart that is there. *)
Lemma order_summary_reliable p sid w :
  faults w = [] -> cart_of sid w <> [] ->
  order_summary_intent p sid w =
  (inr (summary_response (sum_values (cart_of sid w))
                         (cart_total (food_items w) (cart_of sid w))), w).
Proof.
  intros R NE. unfold order_summary_intent, try_except.
  erewrite bind_val;
    [|rewrite get_order_eq, (faulty_reliable _ R), (advance_reliable _ R); reflexivity].
  destruct (cart_of sid w) as [|kv c] eqn:C; [contradiction|].
  erewrite bind_val; [|now apply total_of_eq]. reflexivity.
Qed.

(** [complete_order] on a cart that is there: it answers success with the
    total at catalog prices, whatever the contacts and the providers do. *)
Lemma complete_order_reliable p sid w :
  faults w = [] -> cart_of sid w <> [] ->
  exists r w',
    complete_order p sid w = (inr r, w') /\
    status_of r = Some (JStr "success") /\
    Dict.get "total_price" r = Some (JInt (cart_total (food_items w) (cart_of sid w))).
Proof.
  intros R NE. unfold complete_order. unfold try_except at 1.
  erewrite bind_val;
    [|rewrite get_order_eq, (faulty_reliable _ R), (advance_reliable _ R); reflexivity].
  destruct (cart_of sid w) as [|kv c] eqn:C; [contradiction|].
  erewrite bind_val; [|now apply total_of_eq].
  erewrite bind_val; [|reflexivity].
  erewrite bind_val;
    [|rewrite get_user_phone_eq, (faulty_reliable _ R), (advance_reliable _ R); reflexivity].
  erewrite bind_val;
    [|rewrite get_user_email_eq, (faulty_reliable _ R), (advance_reliable _ R); reflexivity].
  set (ph := match Dict.get sid (user_contacts w) with
             | Some d => phone d | None => PNone end).
  set (em := match Dict.get sid (user_contacts w) with
             | Some d => email d | None => PNone end).
  destruct (truthy ph) eqn:Tp; destruct (truthy em) eqn:Te;
    cbv beta iota delta [negb andb];
    try (eexists _, _; split; [reflexivity|]; split; reflexivity).
  destruct (item_prices_reliable (Dict.keys (kv :: c)) [] w R) as [prices Ep].
  erewrite bind_val; [|exact Ep].
  match goal with
  | |- context [bind (try_except ?m (fun _ => ret ?x)) _ w] =>
      destruct (try_except_total m x w) as (txt & w' & Et)
  end.
  erewrite bind_val; [|exact Et].
  eexists _, _; split; [reflexivity|]; split; reflexivity.
Qed.

(** C10.  On a store that answers, a cart holding an item without catalog
    entry is summarized and committed all the same: the price lookup gives 0
    for that item, both operations answer success, and the total is the total
    of the catalogued entries. *)
Theorem uncatalogued_item_counts_zero
  (w : world) (p : Dict.t pyval) (sid ghost : string) (q : Z) :
  faults w = [] ->
  In (ghost, q) (cart_of sid w) ->
  in_catalog (food_items w) ghost = false ->
  db_helper.get_item_price ghost w = (inr 0, w) /\
  order_summary_intent p sid w =
    (inr (summary_response (sum_values (cart_of sid w))
                           (cart_total (food_items w) (cart_of sid w))), w) /\
  (exists r w',
     complete_order p sid w = (inr r, w') /\
     status_of r = Some (JStr "success") /\
     Dict.get "total_price" r
       = Some (JInt (cart_total (food_items w) (cart_of sid w)))) /\
  cart_total (food_items w) (cart_of sid w)
  = cart_total (food_items w)
      (filter (fun kv => in_catalog (food_items w) (fst kv)) (cart_of sid w)).
Proof.
  intros R I N.
  assert (NE : cart_of sid w <> []) by (intros E; rewrite E in I; exact I).
  split.
  { rewrite get_item_price_eq, (faulty_reliable _ R), (advance_reliable _ R).
    now rewrite price_of_missing. }
  split; [now apply order_summary_reliable|].
  split; [now apply complete_order_reliable|].
  apply cart_total_catalogued.
Qed.

(* ===================================================================== *)
(** ** Traces of the notification system *)
(* ===================================================================== *)

Lemma with_trace_nil w : with_trace (trace w ++ []) w = w.
Proof. destruct w; simpl. now rewrite app_nil_r. Qed.

Lemma with_trace_app w e1 e2 :
  with_trace (trace (with_trace (trace w ++ e1) w) ++ e2)
             (with_trace (trace w ++ e1) w)
  = with_trace (trace w ++ (e1 ++ e2)) w.
Proof. destruct w; simpl. now rewrite app_assoc. Qed.

Lemma seen_app obs e1 e2 : seen obs (e1 ++ e2) = (seen obs e1 ++ seen obs e2)%list.
Proof. unfold seen. apply flat_map_app. Qed.

Section Quiet.
Variable obs : event -> list method.

Lemma quiet_ret {A} (Q : A -> Prop) (a : A) : Q a -> quiet obs Q (ret a).
Proof. intros H w. exists (inr a), []. now rewrite with_trace_nil. Qed.

Lemma quiet_raise {A} (Q : A -> Prop) (e : exn) : quiet obs Q (raise e).
Proof. intros w. exists (inl e), []. now rewrite with_trace_nil. Qed.

Lemma quiet_lift {A} (r : exn + A) : quiet obs any (lift r).
Proof.
  intros w. exists r, []. rewrite with_trace_nil. repeat split.
  now destruct r.
Qed.

Lemma quiet_emit e : obs e = [] -> quiet obs any (emit e).
Proof.
  intros H w. exists (inr tt), [e]. split; [reflexivity|].
  unfold seen; simpl. now rewrite H.
Qed.

Lemma quiet_bind {A B} (Q : B -> Prop) (m : M A) (k : A -> M B) :
  quiet obs any m -> (forall a, quiet obs Q (k a)) -> quiet obs Q (bind m k).
Proof.
  intros Hm Hk w. destruct (Hm w) as (r & e1 & E1 & S1 & _). unfold bind. rewrite E1.
  destruct r as [e|a].
  - now exists (inl e), e1.
  - destruct (Hk a (with_trace (trace w ++ e1) w)) as (r2 & e2 & E2 & S2 & Q2).
    exists r2, (e1 ++ e2)%list. rewrite E2, with_trace_app, seen_app, S1, S2. auto.
Qed.

Lemma quiet_try {A} (Q : A -> Prop) (m : M A) (h : exn -> M A) :
  quiet obs Q m -> (forall e, quiet obs Q (h e)) -> quiet obs Q (try_except m h).
Proof.
  intros Hm Hh w. destruct (Hm w) as (r & e1 & E1 & S1 & Q1).
  unfold try_except. rewrite E1. destruct r as [e|a].
  - destruct (Hh e (with_trace (trace w ++ e1) w)) as (r2 & e2 & E2 & S2 & Q2).
    exists r2, (e1 ++ e2)%list. rewrite E2, with_trace_app, seen_app, S1, S2. auto.
  - now exists (inr a), e1.
Qed.

Lemma quiet_any {A} (Q : A -> Prop) (m : M A) : quiet obs Q m -> quiet obs any m.
Proof.
  intros H w. destruct (H w) as (r & evs & E & S & _). exists r, evs.
  repeat split; auto. now destruct r.
Qed.

Lemma quiet_post url headers payload :
  obs (HttpPost url headers payload) = [] ->
  quiet obs any (NotificationSystem.requests_post url headers payload).
Proof.
  intros H. unfold NotificationSystem.requests_post.
  apply quiet_bind; [now apply quiet_emit|].
  intros _ w. exists (inr (http w (trace w))), []. now rewrite with_trace_nil.
Qed.

Lemma quiet_smtp sender recipient subject html text :
  obs (SmtpSend sender recipient subject html text) = [] ->
  quiet obs any (NotificationSystem.smtp_send sender recipient subject html text).
Proof.
  intros H. unfold NotificationSystem.smtp_send.
  apply quiet_bind; [now apply quiet_emit|].
  intros _ w. cbv beta.
  destruct (smtp w (trace w)) as [e|]; [exists (inl e), []|exists (inr tt), []];
    now rewrite with_trace_nil.
Qed.

(** A quiet body under a handler that returns: the whole returns. *)
Lemma shows_try {A} (Q : A -> Prop) (m : M A) (h : exn -> A) :
  quiet obs Q m -> (forall e, Q (h e)) ->
  shows obs Q (try_except m (fun e => ret (h e))) [].
Proof.
  intros Hm Hh w. destruct (Hm w) as (r & e1 & E1 & S1 & Q1).
  unfold try_except. rewrite E1.
  destruct r as [e|a]; [exists (h e), e1|exists a, e1]; auto.
Qed.

Lemma shows_quiet {A} (Q : A -> Prop) (m : M A) : shows obs Q m [] -> quiet obs Q m.
Proof. intros H w. destruct (H w) as (a & evs & E & S & Qa). now exists (inr a), evs. Qed.

Lemma shows_emit e : shows obs any (emit e) (obs e).
Proof.
  intros w. exists tt, [e]. split; [reflexivity|].
  unfold seen; simpl. now rewrite app_nil_r.
Qed.

Lemma shows_bind {A B} (Q : B -> Prop) (m : M A) (k : A -> M B) ms1 ms2 :
  shows obs any m ms1 -> (forall a, shows obs Q (k a) ms2) ->
  shows obs Q (bind m k) (ms1 ++ ms2).
Proof.
  intros Hm Hk w. destruct (Hm w) as (a & e1 & E1 & S1 & _). unfold bind. rewrite E1.
  destruct (Hk a (with_trace (trace w ++ e1) w)) as (b & e2 & E2 & S2 & Q2).
  exists b, (e1 ++ e2)%list. rewrite E2, with_trace_app, seen_app, S1, S2. auto.
Qed.

End Quiet.

Ltac holds := first [exact I | eexists; reflexivity | reflexivity | assumption].

Ltac quiet_step :=
  first
    [ apply quiet_ret; holds
    | apply quiet_raise
    | apply quiet_lift
    | apply quiet_emit; reflexivity
    | apply quiet_post; reflexivity
    | apply quiet_smtp; reflexivity
    | apply quiet_bind; [|intros ?]
    | apply quiet_try; [|intros ?]
    | match goal with
      | |- quiet _ _ (if ?c then _ else _) => destruct c
      | |- quiet _ _ (match ?x with _ => _ end) => destruct x
      end ].

Ltac quiet_tac := repeat quiet_step.

Section Providers.
Variable obs : event -> list method.
Hypothesis obs_post : forall u h p, obs (HttpPost u h p) = [].

Import NotificationSystem.

Lemma quiet_succeeded r : quiet obs any (succeeded r).
Proof. unfold succeeded. quiet_tac. Qed.

Lemma quiet_endpoints self clean_number message endpoints :
  quiet obs (fun o => match o with Some r => reports r | None => True end)
        (greenapi_endpoints self clean_number message endpoints).
Proof.
  induction endpoints as [|url rest IH]; simpl; [apply quiet_ret; exact I|].
  apply quiet_bind.
  - apply quiet_try; [|intros; apply quiet_ret; exact I].
    apply quiet_bind; [apply quiet_post, obs_post|intros response].
    destruct response as [e|code text body]; [apply quiet_raise|].
    destruct (code =? 200); [|apply quiet_ret; exact I].
    apply quiet_bind; [apply quiet_lift|intros; apply quiet_ret; exact I].
  - intros [|]; [apply quiet_ret; holds|exact IH].
Qed.

End Providers.

Lemma shows_enter obs {A} (Q : A -> Prop) (e : event) (m : M A) :
  shows obs Q m [] -> shows obs Q (bind (emit e) (fun _ => m)) (obs e).
Proof.
  intros H. rewrite <- (app_nil_r (obs e)).
  apply shows_bind; [apply shows_emit|intros _; exact H].
Qed.

Section Sends.
Variable obs : event -> list method.
Hypothesis obs_post : forall u h p, obs (HttpPost u h p) = [].
Hypothesis obs_smtp : forall s r j h t, obs (SmtpSend s r j h t) = [].

Import NotificationSystem.

Lemma shows_business self to_number message :
  shows obs reports (_send_whatsapp_business_api self to_number message)
        (obs (Enter BusinessApi (PStr to_number))).
Proof.
  unfold _send_whatsapp_business_api. apply shows_enter.
  apply shows_try; [|intros; holds]. cbv zeta.
  apply quiet_bind; [apply quiet_post, obs_post|intros response].
  quiet_tac.
Qed.

Lemma shows_greenapi self to_number message :
  shows obs reports (_send_whatsapp_greenapi self to_number message)
        (obs (Enter GreenApi (PStr to_number))).
Proof.
  unfold _send_whatsapp_greenapi. apply shows_enter.
  apply shows_try; [|intros; holds]. cbv zeta.
  intros w.
  destruct (quiet_endpoints obs obs_post self (remove_char "+" to_number) message
              ["https://" ++ or_default (greenapi_instance_id self) "None"
                 ++ ".api.greenapi.com/waSendText";
               "https://api.greenapi.com/waSendText";
               "https://greenapi.com/api/waSendText"] w)
    as (o & evs & E & S & Q).
  unfold bind. rewrite E. destruct o as [e|[res|]].
  - now exists (inl e), evs.
  - exists (inr res), evs. auto.
  - exists (inr (failure "All GreenAPI endpoints failed")), evs.
    repeat split; auto. holds.
Qed.

Lemma shows_simple self to_number message :
  shows obs (fun r => r = simple_result)
        (_send_whatsapp_simple self to_number message)
        (obs (Enter SimpleWhatsapp (PStr to_number))).
Proof.
  unfold _send_whatsapp_simple. apply shows_enter.
  intros w. exists simple_result, []. now rewrite with_trace_nil.
Qed.

Lemma shows_send_sms self to_number message :
  shows obs any (send_sms self to_number message) (obs (Enter SendSms to_number)).
Proof.
  unfold send_sms. apply shows_enter.
  apply shows_try; [|intros; holds].
  destruct (negb _); [apply quiet_ret; holds|]. cbv zeta.
  apply quiet_bind; [apply quiet_lift|intros number].
  apply quiet_bind; [apply quiet_post, obs_post|intros response].
  quiet_tac.
Qed.

Lemma shows_send_email self to_email subject html text :
  shows obs any (send_email self to_email subject html text)
        (obs (Enter SendEmail to_email)).
Proof.
  unfold send_email. apply shows_enter.
  apply shows_try; [|intros; holds].
  destruct (_ || _); [apply quiet_ret; holds|].
  apply quiet_bind; [apply quiet_smtp, obs_smtp|intros _; apply quiet_ret; holds].
Qed.

(** When [obs] does not look at provider calls, the chat channel shows only
    its own entry. *)
Lemma shows_send_whatsapp self to_number message :
  (forall m d, In m [BusinessApi; GreenApi; SimpleWhatsapp] -> obs (Enter m d) = []) ->
  shows obs any (send_whatsapp self to_number message)
        (obs (Enter SendWhatsapp to_number)).
Proof.
  intros P. unfold send_whatsapp. apply shows_enter.
  apply shows_try; [|intros; holds].
  assert (B : forall n, quiet obs any (_send_whatsapp_business_api self n message)).
  { intros n. apply (quiet_any obs reports), shows_quiet.
    rewrite <- (P BusinessApi (PStr n)) by (simpl; auto). apply shows_business. }
  assert (G : forall n, quiet obs any (_send_whatsapp_greenapi self n message)).
  { intros n. apply (quiet_any obs reports), shows_quiet.
    rewrite <- (P GreenApi (PStr n)) by (simpl; auto). apply shows_greenapi. }
  assert (S : forall n, quiet obs any (_send_whatsapp_simple self n message)).
  { intros n. apply (quiet_any obs (fun r => r = simple_result)), shows_quiet.
    rewrite <- (P SimpleWhatsapp (PStr n)) by (simpl; auto). apply shows_simple. }
  apply quiet_bind; [apply quiet_lift|intros number]. cbv zeta.
  apply quiet_bind.
  - destruct (_ && _); [|apply quiet_ret; holds].
    apply quiet_bind; [apply B|intros r].
    apply quiet_bind; [apply quiet_succeeded|intros ok; apply quiet_ret; holds].
  - intros [r|]; [apply quiet_ret; holds|].
    apply quiet_bind.
    + destruct (_ && _); [|apply quiet_ret; holds].
      apply quiet_bind; [apply G|intros r].
      apply quiet_bind; [apply quiet_succeeded|intros ok; apply quiet_ret; holds].
    + intros [r|]; [apply quiet_ret; holds|].
      apply quiet_bind; [apply S|intros r].
      apply quiet_bind; [apply quiet_succeeded|intros [|]; apply quiet_ret; holds].
Qed.

End Sends.

Lemma bind_bind {A B C} (m : M A) (f : A -> M B) (g : B -> M C) w :
  bind (bind m f) g w = bind m (fun a => bind (f a) g) w.
Proof. unfold bind. destruct (m w) as [[e|a] w']; reflexivity. Qed.

Lemma bind_ret {A B} (a : A) (k : A -> M B) w : bind (ret a) k w = k a w.
Proof. reflexivity. Qed.

Lemma channel_post u h p : channel_of (HttpPost u h p) = [].
Proof. reflexivity. Qed.

Lemma channel_smtp s r j h t : channel_of (SmtpSend s r j h t) = [].
Proof. reflexivity. Qed.

Lemma channel_provider m d :
  In m [BusinessApi; GreenApi; SimpleWhatsapp] -> channel_of (Enter m d) = [].
Proof. intros [<-|[<-|[<-|[]]]]; reflexivity. Qed.

#[local] Arguments NotificationSystem.send_sms : simpl never.
#[local] Arguments NotificationSystem.send_whatsapp : simpl never.
#[local] Arguments NotificationSystem.send_email : simpl never.
#[local] Arguments NotificationSystem._create_order_confirmation_sms : simpl never.
#[local] Arguments NotificationSystem._create_order_confirmation_whatsapp : simpl never.
#[local] Arguments NotificationSystem._create_order_confirmation_email_html : simpl never.
#[local] Arguments NotificationSystem._create_order_confirmation_email_text : simpl never.

Lemma keys_set_eq {V} k (v : V) d :
  Dict.keys (Dict.set k v d) = add_key k (Dict.keys d).
Proof.
  unfold Dict.keys. induction d as [|[k' v'] r IH]; simpl; [reflexivity|].
  destruct (String.eqb k k'); simpl; [reflexivity|]. now rewrite IH.
Qed.

(** One channel of [send_order_confirmation]: attempted when its contact is
    there, and then it leaves its entry whatever the provider answered. *)
Lemma channel_step (c : option pyval) (key : string) (ch : method)
  (sender : pyval -> M NotificationSystem.result)
  (results : Dict.t NotificationSystem.result) :
  (forall v, shows channel_of any (sender v) [ch]) ->
  forall w, exists results' evs,
    match c with
    | Some v => bind (sender v) (fun r => ret (Dict.set key r results))
    | None => ret results
    end w = (inr results', with_trace (trace w ++ evs) w) /\
    seen channel_of evs = match c with Some _ => [ch] | None => [] end /\
    Dict.keys results' = match c with
                         | Some _ => add_key key (Dict.keys results)
                         | None => Dict.keys results
                         end.
Proof.
  intros H w. destruct c as [v|].
  - destruct (H v w) as (r & evs & E & S & _).
    exists (Dict.set key r results), evs. rewrite (bind_val _ _ _ _ _ E).
    split; [reflexivity|]. split; [exact S|]. apply keys_set_eq.
  - exists results, []. now rewrite with_trace_nil.
Qed.

(** C6.  [send_order_confirmation] returns, whatever the providers answer or
    raise; it enters the SMS and the chat channel exactly when a phone value is
    there and the e-mail channel exactly when an e-mail value is there, each
    once and in that order; and the mapping it returns has one entry for each
    channel entered and no other. *)
Theorem dispatch_independent_and_partial
  (self : NotificationSystem.t) (user_info : Dict.t pyval)
  (od : NotificationSystem.order_details) (w : world) :
  let has_phone := truthy (param_get "phone" user_info) in
  let has_email := truthy (param_get "email" user_info) in
  exists results evs,
    NotificationSystem.send_order_confirmation self user_info od w
      = (inr results, with_trace (trace w ++ evs) w) /\
    seen channel_of evs
      = ((if has_phone then [SendSms; SendWhatsapp] else [])
         ++ (if has_email then [SendEmail] else []))%list /\
    Dict.keys results
      = ((if has_phone then ["sms"; "whatsapp"] else [])
         ++ (if has_email then ["email"] else []))%list.
Proof.
  intros has_phone has_email.
  unfold NotificationSystem.send_order_confirmation.
  assert (Cp : NotificationSystem.contact "phone" user_info
               = if has_phone then Some (param_get "phone" user_info) else None)
    by reflexivity.
  assert (Ce : NotificationSystem.contact "email" user_info
               = if has_email then Some (param_get "email" user_info) else None)
    by reflexivity.
  rewrite Cp, Ce. clear Cp Ce.
  set (sms := NotificationSystem._create_order_confirmation_sms od).
  set (wa := NotificationSystem._create_order_confirmation_whatsapp od).
  set (html := NotificationSystem._create_order_confirmation_email_html od).
  set (text := NotificationSystem._create_order_confirmation_email_text od).
  destruct (channel_step
              (if has_phone then Some (param_get "phone" user_info) else None)
              "sms" SendSms (fun v => NotificationSystem.send_sms self v sms) []
              (fun v => shows_send_sms channel_of channel_post self v sms) w)
    as (r1 & e1 & E1 & S1 & K1).
  rewrite (bind_val _ _ _ _ _ E1).
  destruct (channel_step
              (if has_phone then Some (param_get "phone" user_info) else None)
              "whatsapp" SendWhatsapp
              (fun v => NotificationSystem.send_whatsapp self v wa) r1
              (fun v => shows_send_whatsapp channel_of channel_post self v wa channel_provider)
              (with_trace (trace w ++ e1) w))
    as (r2 & e2 & E2 & S2 & K2).
  rewrite (bind_val _ _ _ _ _ E2), with_trace_app.
  destruct (channel_step
              (if has_email then Some (param_get "email" user_info) else None)
              "email" SendEmail
              (fun v => NotificationSystem.send_email self v
                          ("Order Confirmation - #" ++ NotificationSystem.order_id od)
                          html text) r2
              (fun v => shows_send_email channel_of channel_smtp self v _ html text)
              (with_trace (trace w ++ (e1 ++ e2)) w))
    as (r3 & e3 & E3 & S3 & K3).
  rewrite (bind_val _ _ _ _ _ E3), with_trace_app.
  exists r3, ((e1 ++ e2) ++ e3)%list. split; [reflexivity|].
  rewrite !seen_app, S1, S2, S3, K3, K2, K1.
  destruct has_phone, has_email; split; reflexivity.
Qed.

(* ===================================================================== *)
(** ** The chat-messaging fallback chain *)
(* ===================================================================== *)

#[local] Arguments NotificationSystem._send_whatsapp_business_api : simpl never.
#[local] Arguments NotificationSystem._send_whatsapp_greenapi : simpl never.
#[local] Arguments NotificationSystem._send_whatsapp_simple : simpl never.
#[local] Arguments NotificationSystem.succeeded : simpl never.

Lemma provider_post u h p : provider_of (HttpPost u h p) = [].
Proof. reflexivity. Qed.

Lemma succeeded_reports r w :
  reports r ->
  NotificationSystem.succeeded r w = (inr (truthy (param_get "success" r)), w).
Proof.
  intros [b E]. unfold NotificationSystem.succeeded, bind, lift, param_item, param_get.
  now rewrite E.
Qed.

(** [send_whatsapp] is the spec's chain over the three providers. *)
Lemma send_whatsapp_is_chain self to_number message w :
  NotificationSystem.send_whatsapp self (PStr to_number) message w =
  bind (emit (Enter SendWhatsapp (PStr to_number)))
       (fun _ =>
          try_except
            (fallback_chain (whatsapp_providers self)
               (NotificationSystem.failure "All WhatsApp methods failed")
               (format_whatsapp_number to_number) message)
            (fun e => ret (NotificationSystem.failure (str_of_exn e)))) w.
Proof.
  unfold NotificationSystem.send_whatsapp, whatsapp_providers, fallback_chain,
    format_whatsapp_number.
  cbn [is_configured send].
  assert (Ee : emit (Enter SendWhatsapp (PStr to_number)) w
               = (inr tt, with_trace (trace w ++ [Enter SendWhatsapp (PStr to_number)]) w))
    by reflexivity.
  rewrite !(bind_val _ _ _ _ _ Ee).
  set (w0 := with_trace (trace w ++ [Enter SendWhatsapp (PStr to_number)]) w).
  clearbody w0. clear Ee.
  unfold try_except, bind, lift, NotificationSystem.as_str. cbv beta iota zeta.
  set (n := if startswith "+0" to_number then "+92" ++ drop 2 to_number
            else to_number).
  unfold ret.
  repeat first
    [ reflexivity
    | progress cbv beta iota
    | match goal with
      | |- context [NotificationSystem._send_whatsapp_business_api ?s ?a ?b ?x] =>
          destruct (NotificationSystem._send_whatsapp_business_api s a b x)
            as [[?|?] ?]
      | |- context [NotificationSystem._send_whatsapp_greenapi ?s ?a ?b ?x] =>
          destruct (NotificationSystem._send_whatsapp_greenapi s a b x)
            as [[?|?] ?]
      | |- context [NotificationSystem._send_whatsapp_simple ?s ?a ?b ?x] =>
          destruct (NotificationSystem._send_whatsapp_simple s a b x)
            as [[?|?] ?]
      | |- context [NotificationSystem.succeeded ?r ?x] =>
          destruct (NotificationSystem.succeeded r x) as [[?|[|]] ?]
      | |- context [andb ?a ?b] => destruct (andb a b)
      end ].
Qed.

Section Chain.
Variables (self : NotificationSystem.t) (n message : string)
          (exhausted : NotificationSystem.result).

Import NotificationSystem.

Lemma simple_eq w :
  _send_whatsapp_simple self n message w
  = (inr simple_result, with_trace (trace w ++ [Enter SimpleWhatsapp (PStr n)]) w).
Proof. reflexivity. Qed.

Lemma succeeded_simple w : succeeded simple_result w = (inr true, w).
Proof. reflexivity. Qed.

(** The last link: the local provider is tried and its answer is returned. *)
Lemma chain_simple w :
  fallback_chain [Provider true (_send_whatsapp_simple self)] exhausted n message w
  = (inr simple_result,
     with_trace (trace w ++ [Enter SimpleWhatsapp (PStr n)]) w).
Proof.
  unfold fallback_chain. cbn [is_configured send].
  rewrite (bind_val _ _ _ _ _ (simple_eq w)).
  rewrite (bind_val _ _ _ _ _ (succeeded_simple _)). reflexivity.
Qed.

(** The last two links. *)
Lemma chain_green (cg : bool) w :
  exists r evs (g s : bool),
    fallback_chain
      [Provider cg (_send_whatsapp_greenapi self);
       Provider true (_send_whatsapp_simple self)]
      exhausted n message w
    = (inr r, with_trace (trace w ++ evs) w) /\
    truthy (param_get "success" r) = true /\
    seen provider_of evs
    = ((if g then [GreenApi] else []) ++ (if s then [SimpleWhatsapp] else []))%list /\
    (cg = false -> g = false) /\
    (g = false -> r = simple_result /\ evs = [Enter SimpleWhatsapp (PStr n)]).
Proof.
  change (fallback_chain
            [Provider cg (_send_whatsapp_greenapi self);
             Provider true (_send_whatsapp_simple self)] exhausted n message)
    with (if cg then
            bind (_send_whatsapp_greenapi self n message) (fun r =>
            bind (succeeded r) (fun ok =>
            if ok then ret r
            else fallback_chain [Provider true (_send_whatsapp_simple self)]
                                exhausted n message))
          else fallback_chain [Provider true (_send_whatsapp_simple self)]
                              exhausted n message).
  destruct cg.
  - destruct (shows_greenapi provider_of provider_post self n message w)
      as (r & evs & E & S & R).
    rewrite (bind_val _ _ _ _ _ E), (bind_val _ _ _ _ _ (succeeded_reports r _ R)).
    destruct (truthy (param_get "success" r)) eqn:T.
    + exists r, evs, true, false.
      split; [reflexivity|]. split; [exact T|]. split; [exact S|].
      split; [auto|discriminate].
    + rewrite chain_simple, with_trace_app.
      exists simple_result, (evs ++ [Enter SimpleWhatsapp (PStr n)])%list, true, true.
      rewrite seen_app, S.
      split; [reflexivity|]. split; [reflexivity|]. split; [reflexivity|].
      split; [auto|discriminate].
  - rewrite chain_simple.
    exists simple_result, [Enter SimpleWhatsapp (PStr n)], false, true.
    split; [reflexivity|]. split; [reflexivity|]. split; [reflexivity|]. auto.
Qed.

(** The whole chain. *)
Lemma chain_whatsapp w :
  let cb := configured (whatsapp_token self) && configured (whatsapp_phone_id self) in
  let cg := configured (greenapi_token self) && configured (greenapi_instance_id self) in
  exists r evs (b g s : bool),
    fallback_chain (whatsapp_providers self) exhausted n message w
    = (inr r, with_trace (trace w ++ evs) w) /\
    truthy (param_get "success" r) = true /\
    seen provider_of evs
    = ((if b then [BusinessApi] else []) ++ (if g then [GreenApi] else [])
       ++ (if s then [SimpleWhatsapp] else []))%list /\
    (cb = false -> b = false) /\
    (cg = false -> g = false) /\
    (b = false -> g = false ->
     r = simple_result /\ evs = [Enter SimpleWhatsapp (PStr n)]).
Proof.
  intros cb cg.
  change (fallback_chain (whatsapp_providers self) exhausted n message)
    with (if cb then
            bind (_send_whatsapp_business_api self n message) (fun r =>
            bind (succeeded r) (fun ok =>
            if ok then ret r
            else fallback_chain
                   [Provider cg (_send_whatsapp_greenapi self);
                    Provider true (_send_whatsapp_simple self)]
                   exhausted n message))
          else fallback_chain
                 [Provider cg (_send_whatsapp_greenapi self);
                  Provider true (_send_whatsapp_simple self)]
                 exhausted n message).
  destruct cb.
  - destruct (shows_business provider_of provider_post self n message w)
      as (r & evs & E & S & R).
    rewrite (bind_val _ _ _ _ _ E), (bind_val _ _ _ _ _ (succeeded_reports r _ R)).
    destruct (truthy (param_get "success" r)) eqn:T.
    + exists r, evs, true, false, false.
      split; [reflexivity|]. split; [exact T|]. split; [exact S|].
      split; [discriminate|]. split; [auto|discriminate].
    + destruct (chain_green cg (with_trace (trace w ++ evs) w))
        as (r2 & e2 & g & s & E2 & T2 & S2 & Cg & _).
      rewrite E2, with_trace_app.
      exists r2, (evs ++ e2)%list, true, g, s.
      rewrite seen_app, S, S2.
      split; [reflexivity|]. split; [exact T2|]. split; [reflexivity|].
      split; [discriminate|]. split; [exact Cg|discriminate].
  - destruct (chain_green cg w) as (r2 & e2 & g & s & E2 & T2 & S2 & Cg & N).
    rewrite E2. exists r2, e2, false, g, s.
    split; [reflexivity|]. split; [exact T2|]. split; [exact S2|].
    split; [auto|]. split; [exact Cg|]. intros _ Hg. now apply N.
Qed.

End Chain.

(** C4.  [send_whatsapp] on a string destination is the spec's fallback chain
    over the business API, GreenAPI and the local provider, in that order: a
    provider that is not configured is skipped without being tried, the chain
    stops at the first success, and since the local provider always succeeds
    the answer always says success; with neither remote provider configured
    only the local provider is tried and its answer is returned. *)
Theorem whatsapp_fallback
  (self : NotificationSystem.t) (to_number message : string) (w : world) :
  let cb := NotificationSystem.configured (NotificationSystem.whatsapp_token self)
            && NotificationSystem.configured (NotificationSystem.whatsapp_phone_id self) in
  let cg := NotificationSystem.configured (NotificationSystem.greenapi_token self)
            && NotificationSystem.configured (NotificationSystem.greenapi_instance_id self) in
  let number := format_whatsapp_number to_number in
  NotificationSystem.send_whatsapp self (PStr to_number) message w
  = bind (emit (Enter SendWhatsapp (PStr to_number)))
         (fun _ =>
            try_except
              (fallback_chain (whatsapp_providers self)
                 (NotificationSystem.failure "All WhatsApp methods failed")
                 number message)
              (fun e => ret (NotificationSystem.failure (str_of_exn e)))) w
  /\
  exists r evs (b g s : bool),
    NotificationSystem.send_whatsapp self (PStr to_number) message w
    = (inr r, with_trace (trace w ++ evs) w) /\
    truthy (param_get "success" r) = true /\
    seen provider_of evs
    = ((if b then [BusinessApi] else []) ++ (if g then [GreenApi] else [])
       ++ (if s then [SimpleWhatsapp] else []))%list /\
    (cb = false -> b = false) /\
    (cg = false -> g = false) /\
    (cb = false -> cg = false ->
     r = simple_result /\
     evs = [Enter SendWhatsapp (PStr to_number); Enter SimpleWhatsapp (PStr number)]).
Proof.
  intros cb cg number. split; [apply send_whatsapp_is_chain|].
  rewrite send_whatsapp_is_chain.
  assert (Ee : emit (Enter SendWhatsapp (PStr to_number)) w
               = (inr tt, with_trace (trace w ++ [Enter SendWhatsapp (PStr to_number)]) w))
    by reflexivity.
  rewrite (bind_val _ _ _ _ _ Ee).
  destruct (chain_whatsapp self (format_whatsapp_number to_number) message
              (NotificationSystem.failure "All WhatsApp methods failed")
              (with_trace (trace w ++ [Enter SendWhatsapp (PStr to_number)]) w))
    as (r & evs & b & g & s & E & T & S & Cb & Cg & N).
  unfold try_except. rewrite E, with_trace_app.
  exists r, (Enter SendWhatsapp (PStr to_number) :: evs), b, g, s.
  split; [reflexivity|]. split; [exact T|]. split; [exact S|].
  split; [exact Cb|]. split; [exact Cg|].
  intros Hb Hg. destruct (N (Cb Hb) (Cg Hg)) as [-> ->]. auto.
Qed.

(* ===================================================================== *)
(** ** Concrete runs *)
(* ===================================================================== *)

(** C1, witness: a batch of a known and an unknown item. *)
Lemma add_unknown_item_rejected_witness :
  exists item w',
    add_to_order [("food-item", PList [PStr "Burger"; PStr "Dragon"]);
                  ("number", PList [PStr "2"; PInt 1])] "s1" sample_world
      = (inr (not_available item), w') /\
    In item (names_of [PStr "Burger"; PStr "Dragon"]) /\
    inprogress_orders w' = inprogress_orders sample_world /\
    cart_of "s1" w' = cart_of "s1" sample_world /\
    (faults sample_world = [] ->
     in_catalog (food_items sample_world) item = false /\ w' = sample_world).
Proof.
  apply (add_unknown_item_rejected sample_world _ "s1" "Dragon"
           [PStr "Burger"; PStr "Dragon"]).
  - reflexivity.
  - reflexivity.
  - reflexivity.
  - simpl. right. left. reflexivity.
  - reflexivity.
Defined.

(** C1, as stated, fails.  With an unknown item in the list, a quantity list
    of the wrong length is answered by the validation error, which names no
    item; and an empty quantity list is answered by success. *)
Lemma add_unknown_item_counterexample :
  in_catalog (food_items sample_world) (sanitize_food_item "Dragon") = false /\
  fst (add_to_order [("food-item", PList [PStr "Dragon"; PStr "Pizza"]);
                     ("number", PList [PStr "2"])] "s1" sample_world)
    = inr (error_response "Please specify quantity for each food item.") /\
  fst (add_to_order [("food-item", PList [PStr "Dragon"]);
                     ("number", PList [])] "s1" sample_world)
    = inr (added [("pizza", 5)]) /\
  status_of (added [("pizza", 5)]) = Some (JStr "success").
Proof. repeat split; reflexivity. Qed.

(** C2, witness: one pizza asked of the five in the cart. *)
Lemma remove_clears_named_items_witness :
  exists r w',
    remove_from_order [("food-item", PList [PStr "Pizza"]);
                       ("number", PList [PStr "1"])] "s1" sample_world
      = (inr r, w') /\
    status_of r = Some (JStr "success") /\
    Dict.get "removed_items" r = Some (JStrs ["1 pizza"]) /\
    Dict.get "remaining_items" r = Some (JCart []) /\
    cart_of "s1" w' = [] /\
    (forall x, In x ["pizza"] -> Dict.mem x (@nil (string * Z)) = false).
Proof.
  apply (remove_clears_named_items sample_world
           [("food-item", PList [PStr "Pizza"]); ("number", PList [PStr "1"])]
           "s1" [PStr "Pizza"] [("pizza", 5)]).
  - reflexivity.
  - constructor; [intros []|constructor].
  - reflexivity.
  - reflexivity.
  - constructor; [intros []|constructor].
  - reflexivity.
  - intros x [<-|[]]. reflexivity.
Defined.

(** C2, as stated, fails.  Every named item is in the cart, yet a quantity of
    zero is answered by the validation error, and a request naming the same
    item twice is answered by the general error; both leave the item in the
    cart. *)
Lemma remove_not_always_clearing :
  Dict.mem "pizza" (cart_of "s1" sample_world) = true /\
  remove_from_order [("food-item", PList [PStr "pizza"]);
                     ("number", PList [PStr "0"])] "s1" sample_world
    = (inr (error_response "Quantities must be positive numbers."), sample_world) /\
  names_of [PStr "pizza"; PStr "Pizza"] = ["pizza"; "pizza"] /\
  remove_from_order [("food-item", PList [PStr "pizza"; PStr "Pizza"])]
                    "s1" sample_world
    = (inr (error_response "Sorry, an error occurred while removing from your order."),
       sample_world).
Proof. repeat split; reflexivity. Qed.

(** An item of the request that the cart does not hold ends the loop with a
    [KeyError], at the [del] that follows the [if]/[else]. *)
Lemma remove_loop_absent l : forall st w,
  (exists iq, In iq l /\ Dict.get (fst iq) (current st) = None) ->
  exists e, for_each l remove_step st w = (inl e, w).
Proof.
  induction l as [|[item qty] l IH]; intros st w (iq & I & G); [destruct I|].
  rewrite for_each_cons.
  destruct (Dict.get item (current st)) as [have|] eqn:H.
  - rewrite (remove_step_present item qty st w have H).
    apply IH. destruct I as [<-|I]; [simpl in G; congruence|].
    exists iq. split; [exact I|]. simpl.
    destruct (string_dec item (fst iq)) as [<-|N].
    + apply get_remove_same.
    + now rewrite get_remove_other.
  - rewrite (remove_step_absent item qty st w H). eauto.
Qed.

Lemma in_zip_left {A B} (x : A) (a : list A) : forall (b : list B),
  List.length a = List.length b -> In x a -> exists y, In (x, y) (zip a b).
Proof.
  unfold zip. induction a as [|h a IH]; intros [|y b] L I; simpl in *;
    try discriminate; try contradiction.
  destruct I as [->|I]; [eauto|].
  destruct (IH b) as [y' Iy]; auto. eauto.
Qed.

(** On a store that answers, a removal request that passes validation and
    names an item the cart does not hold is answered by the general error,
    and nothing is removed. *)
Lemma remove_absent_item_is_fatal (w : world) (p : Dict.t pyval) (sid x : string)
  (items : list pyval) :
  faults w = [] ->
  fst (validate_order_params p) = true ->
  param_get "food-item" p = PList items ->
  In x (names_of items) ->
  Dict.mem x (cart_of sid w) = false ->
  remove_from_order p sid w
  = (inr (error_response "Sorry, an error occurred while removing from your order."),
     w).
Proof.
  intros R V F I A.
  rewrite (remove_from_order_valid p sid w items V F).
  rewrite (faulty_reliable _ R), (advance_reliable _ R).
  destruct (validate_ok _ V) as (items' & F' & _ & S & _).
  rewrite F in F'. inversion F'; subst items'. clear F'.
  destruct (in_zip_left x (names_of items) (requested p (List.length items)))
    as [q Iq]; auto.
  { rewrite (requested_length p items V F). apply (proj2 (sanitize_all_strs _ S)). }
  destruct (remove_loop_absent
              (zip (names_of items) (requested p (List.length items)))
              (Removal (cart_of sid w) [] []) w) as [e ->]; [|reflexivity].
  exists (x, q). split; [exact Iq|]. simpl. unfold Dict.mem in A.
  destruct (Dict.get x (cart_of sid w)); [discriminate|reflexivity].
Qed.

(** C3, at a failing input.  The cart holds pizza and no burger; a request to
    remove both is answered by the general error instead of a success that
    lists the burger as not found, and the pizza stays in the cart. *)
Theorem remove_absent_item_fails :
  remove_from_order [("food-item", PList [PStr "Pizza"; PStr "Burger"]);
                     ("number", PList [PStr "1"; PStr "1"])] "s1" sample_world
  = (inr (error_response "Sorry, an error occurred while removing from your order."),
     sample_world)
  /\ for_each [("pizza", 1); ("burger", 1)] remove_step
              (Removal [("pizza", 5)] [] []) sample_world
     = (inl (KeyError "burger"), sample_world).
Proof. split; reflexivity. Qed.

(** The two branches of the SMS number formatting. *)
Lemma format_sms_number_branches (s : string) :
  (startswith "+" s = false ->
   NotificationSystem.format_sms_number s = "+92" ++ s) /\
  NotificationSystem.format_sms_number ("+0" ++ s) = "+92" ++ s.
Proof.
  unfold NotificationSystem.format_sms_number. split.
  - intros ->. reflexivity.
  - change ("+0" ++ s) with (String "+" (String "0" s)).
    unfold startswith. cbn [String.prefix Ascii.eqb Bool.eqb andb negb drop].
    change (drop 2 (String "+" (String "0" s))) with s.
    destruct (String.prefix "" s) eqn:P; [reflexivity|].
    destruct s; discriminate.
Qed.

(** C5, at a failing input.  The local number [03001234567] gets the country
    code in front and keeps its leading zero, so that the provider is sent
    [9203001234567]; the [+0] form loses the zero. *)
Theorem sms_local_number_keeps_zero :
  NotificationSystem.format_sms_number "03001234567" = "+9203001234567"
  /\ NotificationSystem.format_sms_number "+0987654321" = "+92987654321"
  /\ trace (snd (NotificationSystem.send_sms sms_only (PStr "03001234567") "hi"
                   sample_world))
     = [Enter SendSms (PStr "03001234567");
        HttpPost "https://api.msg91.com/api/v5/flow/"
                 [("authkey", "key"); ("Content-Type", "application/json")]
                 (PDict [("flow_id", PStr "default_template");
                         ("sender", PStr "FOODIB");
                         ("mobiles", PStr "9203001234567");
                         ("VAR1", PStr "hi")])].
Proof. repeat split; reflexivity. Qed.

(** C7, at failing inputs.  The store answers the reads and fails the write:
    each of the three operations answers success, and the store holds what it
    held before. *)
Theorem storage_failure_reported_as_success :
  let add := add_to_order [("food-item", PList [PStr "Burger"]);
                           ("number", PList [PStr "2"])] "s1"
                          (with_faults [false; false; true] sample_world) in
  let remove := remove_from_order [("food-item", PList [PStr "Pizza"])] "s1"
                                  (with_faults [false; true] sample_world) in
  let collect := collect_phone_number [("phone-number", PStr "03001234567")] "s1"
                                      (with_faults [true] sample_world) in
  fst add = inr (added [("pizza", 5); ("burger", 2)])
  /\ cart_of "s1" (snd add) = [("pizza", 5)]
  /\ (exists r, fst remove = inr r /\ status_of r = Some (JStr "success")
                /\ Dict.get "remaining_items" r = Some (JCart []))
  /\ cart_of "s1" (snd remove) = [("pizza", 5)]
  /\ (exists r, fst collect = inr r /\ status_of r = Some (JStr "success"))
  /\ user_contacts (snd collect) = [].
Proof.
  cbv zeta. split; [reflexivity|]. split; [reflexivity|].
  split; [eexists; repeat split; reflexivity|]. split; [reflexivity|].
  split; [eexists; repeat split; reflexivity|reflexivity].
Qed.

(** A request that fails validation is answered by the validation message and
    changes nothing. *)
Lemma add_to_order_invalid p sid w :
  fst (validate_order_params p) = false ->
  add_to_order p sid w = (inr (error_response (snd (validate_order_params p))), w).
Proof.
  intros V. unfold add_to_order. destruct (validate_order_params p) as [b msg].
  simpl in V; subst b. reflexivity.
Qed.

(** C8, at failing inputs.  Without a quantity list the request passes
    validation, but [add_to_order] does not default to one per item: without
    the [number] key it answers the general error, with an empty list it
    answers success and adds nothing.  [remove_from_order] on the same
    requests does default to one. *)
Theorem add_without_quantities_does_not_default :
  let no_key := [("food-item", PList [PStr "Burger"])] in
  let empty := [("food-item", PList [PStr "Burger"]); ("number", PList [])] in
  in_catalog (food_items sample_world) (sanitize_food_item "Burger") = true
  /\ validate_order_params no_key = (true, "")
  /\ validate_order_params empty = (true, "")
  /\ add_to_order no_key "s1" sample_world
     = (inr (error_response "Sorry, an error occurred while adding to your order."),
        sample_world)
  /\ fst (add_to_order empty "s1" sample_world) = inr (added [("pizza", 5)])
  /\ cart_of "s1" (snd (add_to_order empty "s1" sample_world)) = [("pizza", 5)]
  /\ requested no_key 1 = [1]
  /\ requested empty 1 = [1].
Proof. cbv zeta. repeat split; reflexivity. Qed.

(** C4, witness: without credentials only the local provider is tried. *)
Lemma whatsapp_fallback_witness :
  exists r evs,
    NotificationSystem.send_whatsapp unconfigured (PStr "+03001234567") "hi"
                                     sample_world
    = (inr r, with_trace (trace sample_world ++ evs) sample_world) /\
    r = simple_result /\
    evs = [Enter SendWhatsapp (PStr "+03001234567");
           Enter SimpleWhatsapp (PStr "+923001234567")].
Proof.
  destruct (whatsapp_fallback unconfigured "+03001234567" "hi" sample_world)
    as [_ (r & evs & b & g & s & E & _ & _ & _ & _ & N)].
  exists r, evs. split; [exact E|]. exact (N eq_refl eq_refl).
Defined.

(** C9, witness: the cart after adding two burgers to a fresh store. *)
Lemma cart_positivity_invariant_witness :
  let w := snd (add_to_order [("food-item", PList [PStr "Burger"]);
                              ("number", PList [PStr "2"])] "s2" fresh_world) in
  reachable w /\ Dict.get "burger" (cart_of "s2" w) = Some 2 /\ 0 < 2.
Proof.
  cbv zeta.
  assert (R : reachable
                (snd (add_to_order [("food-item", PList [PStr "Burger"]);
                                    ("number", PList [PStr "2"])] "s2" fresh_world))).
  { apply reach_add, reach_fresh. reflexivity. }
  split; [exact R|]. split; [reflexivity|].
  apply (cart_positivity_invariant _ R "s2" "burger" 2). reflexivity.
Defined.

(** C10, witness: a cart with an item the menu no longer has. *)
Lemma uncatalogued_item_counts_zero_witness :
  db_helper.get_item_price "ghost" stale_world = (inr 0, stale_world) /\
  order_summary_intent [] "s1" stale_world
    = (inr (summary_response 7 60), stale_world) /\
  (exists r w',
     complete_order [] "s1" stale_world = (inr r, w') /\
     status_of r = Some (JStr "success") /\
     Dict.get "total_price" r = Some (JInt 60)) /\
  cart_total (food_items stale_world) [("pizza", 5); ("ghost", 2)]
  = cart_total (food_items stale_world) [("pizza", 5)].
Proof.
  apply (uncatalogued_item_counts_zero stale_world [] "s1" "ghost" 2).
  - reflexivity.
  - simpl. right. left. reflexivity.
  - reflexivity.
Defined.

(* ===================================================================== *)
(** ** Further checks on the sample world *)
(* ===================================================================== *)

(** A destination that is not a string makes [startswith] raise inside
    [send_whatsapp]; the handler turns it into a failure record and no
    provider is tried. *)
Lemma send_whatsapp_non_string (self : NotificationSystem.t) (message : string)
  (z : Z) (w : world) :
  NotificationSystem.send_whatsapp self (PInt z) message w
  = (inr (NotificationSystem.failure "object has no attribute 'startswith'"),
     with_trace (trace w ++ [Enter SendWhatsapp (PInt z)]) w).
Proof. reflexivity. Qed.

(** The merge law of the spec: two pizzas, then three more, on an empty cart. *)
Example add_merges_quantities :
  let two := [("food-item", PList [PStr "Pizza"]); ("number", PList [PInt 2])] in
  let three := [("food-item", PList [PStr "pizza!"]); ("number", PList [PStr "3"])] in
  cart_of "s9" (snd (add_to_order three "s9" (snd (add_to_order two "s9" fresh_world))))
  = [("pizza", 5)].
Proof. reflexivity. Qed.

(** Removing the last item deletes the cart record, and the summary then
    finds no cart. *)
Example remove_last_item_empties :
  let w := snd (remove_from_order [("food-item", PList [PStr "Pizza"])] "s1"
                                  sample_world) in
  inprogress_orders w = []
  /\ fst (order_summary_intent [] "s1" w)
     = inr (error_response "You don't have any items in your order yet.").
Proof. split; reflexivity. Qed.

(** Sanitizing keeps letters, digits, hyphens and inner spaces, lower-cases and
    cuts at thirty characters. *)
Example sanitize_food_item_examples :
  sanitize_food_item "  Chicken-65 Roll!! " = "chicken-65 roll"
  /\ sanitize_food_item "!!!" = ""
  /\ String.length (sanitize_food_item "abcdefghijklmnopqrstuvwxyzabcdefghijklmnopqrstuvwxyz")
     = 30%nat.
Proof. repeat split; reflexivity. Qed.

(* ===================================================================== *)
(** ** Validation *)
(* ===================================================================== *)

(** X2.  A request that fails validation is answered by the validation message
    by [add_to_order] and by [remove_from_order] alike, and the world is left
    exactly as it was: no store call is made. *)
Theorem invalid_request_changes_nothing (p : Dict.t pyval) (sid : string) (w : world) :
  fst (validate_order_params p) = false ->
  add_to_order p sid w
  = (inr (error_response (snd (validate_order_params p))), w)
  /\ remove_from_order p sid w
     = (inr (error_response (snd (validate_order_params p))), w).
Proof.
  intros V. split; [now apply add_to_order_invalid|].
  unfold remove_from_order. destruct (validate_order_params p) as [b msg].
  simpl in V; subst b. reflexivity.
Qed.

Lemma invalid_request_changes_nothing_witness :
  add_to_order [("food-item", PList [PStr "Pizza"]); ("number", PList [PStr "-1"])]
               "s1" sample_world
  = (inr (error_response "Quantities must be positive numbers."), sample_world)
  /\ remove_from_order [("food-item", PList [PStr "Pizza"]); ("number", PList [PStr "-1"])]
                       "s1" sample_world
     = (inr (error_response "Quantities must be positive numbers."), sample_world).
Proof.
  apply (invalid_request_changes_nothing
           [("food-item", PList [PStr "Pizza"]); ("number", PList [PStr "-1"])]
           "s1" sample_world).
  reflexivity.
Defined.

(* ===================================================================== *)
(** ** The additive merge *)
(* ===================================================================== *)

Lemma held_set_same (c : cart) k q : held (Dict.set k q c) k = q.
Proof. unfold held. now rewrite get_set_same. Qed.

Lemma held_set_other (c : cart) k x q : k <> x -> held (Dict.set k q c) x = held c x.
Proof. intros N. unfold held. now rewrite get_set_other. Qed.

Lemma held_absent (c : cart) x : ~ In x (Dict.keys c) -> held c x = 0.
Proof.
  unfold held, Dict.keys. induction c as [|[k q] r IH]; simpl; intros N; [reflexivity|].
  destruct (String.eqb_spec x k) as [->|Ne]; [tauto|]. apply IH. tauto.
Qed.

Lemma nodup_add_key k ks : NoDup ks -> NoDup (add_key k ks).
Proof.
  induction ks as [|k' r IH]; simpl; intros D.
  - constructor; [intros []|constructor].
  - inversion D as [|? ? N D']; subst.
    destruct (String.eqb_spec k k') as [->|Ne]; [now constructor|].
    constructor; [|auto].
    intros I. apply N. clear - I Ne. induction r as [|a r IHr]; simpl in *.
    + destruct I as [->|[]]. congruence.
    + destruct (String.eqb_spec k a); simpl in I; intuition; subst; intuition.
Qed.

Lemma of_zip_nodup ns : forall (zs : list Z) (acc : cart),
  NoDup (Dict.keys acc) -> NoDup (Dict.keys (Dict.of_zip acc ns zs)).
Proof.
  induction ns as [|n ns IH]; intros [|z zs] acc D; simpl; auto.
  change (Dict.of_zip acc (n :: ns) (z :: zs))
    with (Dict.of_zip (Dict.set n z acc) ns zs).
  apply IH. rewrite keys_set_eq. now apply nodup_add_key.
Qed.

Lemma held_cons (l : cart) k q x :
  held ((k, q) :: l) x = if String.eqb x k then q else held l x.
Proof. unfold held; simpl. now destruct (String.eqb x k). Qed.

(** After the loop of [add_to_order] over a batch with one entry per name,
    every item holds what it held plus what the batch gives. *)
Lemma held_merge l : forall (c : cart) x,
  NoDup (Dict.keys l) ->
  held (merge_items l c) x = held c x + held l x.
Proof.
  unfold merge_items.
  induction l as [|[k q] l IH]; intros c x D.
  - simpl. change (held [] x) with 0. lia.
  - inversion D as [|? ? N D']; subst. simpl fold_left. rewrite IH by exact D'.
    fold (held c k). rewrite held_cons.
    destruct (String.eqb_spec x k) as [->|Ne].
    + rewrite held_set_same, (held_absent l k N). lia.
    + rewrite held_set_other by congruence. reflexivity.
Qed.

(** X3.  On a store that answers, a request that passes validation with a
    quantity list and names only catalog items, and whose merged quantities
    fit in eight bytes each, succeeds: the merged cart is returned and
    persisted, and every item then holds what it held before plus what the
    batch [dict(zip(names, quantities))] gives for it. *)
Theorem add_known_items_merges
  (w : world) (p : Dict.t pyval) (sid : string)
  (items qs : list pyval) (zs : list Z) :
  faults w = [] ->
  fst (validate_order_params p) = true ->
  param_get "food-item" p = PList items ->
  param_get "number" p = PList qs ->
  py_ints qs = inr zs ->
  (forall x, In x (names_of items) -> in_catalog (food_items w) x = true) ->
  cart_fits (merge_items (Dict.of_zip [] (names_of items) zs) (cart_of sid w)) = true ->
  let batch := Dict.of_zip [] (names_of items) zs in
  exists c',
    add_to_order p sid w
    = (inr (added c'), with_orders (Dict.set sid c' (inprogress_orders w)) w) /\
    cart_of sid (with_orders (Dict.set sid c' (inprogress_orders w)) w) = c' /\
    forall x, held c' x = held (cart_of sid w) x + held batch x.
Proof.
  intros R V F N Hz K Fit batch.
  destruct (validate_ok _ V) as (items' & F' & NE & S & _).
  rewrite F in F'. inversion F'; subst items'. clear F'.
  rewrite (add_to_order_valid p sid w items qs zs V F S N Hz).
  rewrite (faulty_reliable _ R), (advance_reliable _ R).
  destruct (add_items_spec batch (cart_of sid w) w) as (o & f & E & Rf & O).
  fold batch. rewrite E, (Rf R).
  replace (with_faults [] w) with w by (rewrite <- R; symmetry; apply with_faults_same).
  destruct o as [r|c'].
  - destruct O as (item & I & _ & Nc). specialize (Nc R).
    apply keys_of_zip in I. destruct I as [I|[]].
    rewrite (K item I) in Nc. discriminate.
  - destruct O as [-> _]. exists (merge_items batch (cart_of sid w)).
    rewrite set_order_eq, (faulty_reliable _ R), (advance_reliable _ R).
    split; [reflexivity|]. split.
    + unfold cart_of; simpl. now rewrite get_set_same.
    + intros x. apply held_merge. apply of_zip_nodup. constructor.
Qed.

Lemma add_known_items_merges_witness :
  exists c',
    add_to_order [("food-item", PList [PStr "Pizza"; PStr "Burger"]);
                  ("number", PList [PStr "2"; PInt 1])] "s1" sample_world
    = (inr (added c'),
       with_orders (Dict.set "s1" c' (inprogress_orders sample_world)) sample_world) /\
    cart_of "s1" (with_orders (Dict.set "s1" c' (inprogress_orders sample_world))
                              sample_world) = c' /\
    forall x, held c' x
              = held (cart_of "s1" sample_world) x
                + held (Dict.of_zip [] (names_of [PStr "Pizza"; PStr "Burger"]) [2; 1]) x.
Proof.
  apply (add_known_items_merges sample_world
           [("food-item", PList [PStr "Pizza"; PStr "Burger"]);
            ("number", PList [PStr "2"; PInt 1])]
           "s1" [PStr "Pizza"; PStr "Burger"] [PStr "2"; PInt 1] [2; 1]).
  - reflexivity.
  - reflexivity.
  - reflexivity.
  - reflexivity.
  - reflexivity.
  - intros x [<-|[<-|[]]]; reflexivity.
  - reflexivity.
Defined.

(* ===================================================================== *)
(** ** What the cart operations leave alone *)
(* ===================================================================== *)

Lemma world_same w :
  w = with_orders (inprogress_orders w) (with_faults (faults w) w).
Proof. destruct w; reflexivity. Qed.

Lemma with_orders_same f w :
  with_faults f w = with_orders (inprogress_orders w) (with_faults f w).
Proof. destruct w; reflexivity. Qed.

Lemma with_faults_twice f g w : with_faults f (with_faults g w) = with_faults f w.
Proof. reflexivity. Qed.

Lemma faults_with_faults f w : faults (with_faults f w) = f.
Proof. reflexivity. Qed.

Ltac schedule :=
  unfold advance; repeat rewrite ?faults_with_faults, ?with_faults_twice.

(** [add_to_order] returns, and the world it leaves differs from the one it
    found at most in the fault schedule and in the cart of its session. *)
Lemma add_to_order_footprint p sid w :
  exists r f o,
    add_to_order p sid w = (inr r, with_orders o (with_faults f w)) /\
    (o = inprogress_orders w \/ exists c, o = Dict.set sid c (inprogress_orders w)).
Proof.
  destruct (fst (validate_order_params p)) eqn:V.
  2:{ rewrite add_to_order_invalid by exact V.
      eexists _, (faults w), _. split; [now rewrite <- world_same|auto]. }
  destruct (validate_ok _ V) as (items & F & NE & S & Q).
  destruct (truthy (param_get "number" p)) eqn:T.
  - destruct (Q eq_refl) as (qs & zs & N & L & Hz & P).
    rewrite (add_to_order_valid p sid w items qs zs V F S N Hz).
    destruct (add_items_spec (Dict.of_zip [] (names_of items) zs)
                (if faulty w then [] else cart_of sid w) (advance w))
      as (o & f & E & _ & _).
    rewrite E. destruct o as [r|c].
    + schedule. eexists r, _, _. split; [apply f_equal, with_orders_same|auto].
    + rewrite set_order_eq.
      destruct (faulty (with_faults f (advance w))); schedule.
      * eexists _, _, _. split; [apply f_equal, with_orders_same|auto].
      * eexists _, _, _. split; [reflexivity|]. right. eexists. reflexivity.
  - unfold add_to_order. destruct (validate_order_params p) as [b msg].
    simpl in V; subst b. simpl.
    unfold try_except, bind, lift.
    rewrite (param_item_get _ _ _ F) by discriminate. simpl.
    rewrite (proj1 (sanitize_all_strs _ S)).
    unfold param_get in T. unfold param_item.
    destruct (Dict.get "number" p) as [v|];
      [|eexists _, (faults w), _; split; [now rewrite <- world_same|auto]].
    assert (E : py_iter v = inr [] \/ exists e, py_iter v = inl e).
    { destruct v as [| | |s|l|d]; simpl in *; eauto.
      - destruct s; [auto|discriminate].
      - destruct l; [auto|discriminate].
      - destruct d; [auto|discriminate]. }
    destruct E as [->|[e ->]];
      [|eexists _, (faults w), _; split; [now rewrite <- world_same|auto]].
    simpl. rewrite get_order_eq.
    replace (Dict.of_zip [] (names_of items) []) with (@nil (string * Z))
      by (destruct (names_of items); reflexivity).
    change (add_items [] ?c ?w0) with (@inr exn (response + cart) (inr c), w0).
    cbv beta iota. rewrite set_order_eq.
    destruct (faulty (advance w)); schedule.
    + eexists _, _, _. split; [apply f_equal, with_orders_same|auto].
    + eexists _, _, _. split; [reflexivity|]. right. eexists. reflexivity.
Qed.

(** The same for [remove_from_order], which may also delete the record. *)
Lemma remove_from_order_footprint p sid w :
  exists r f o,
    remove_from_order p sid w = (inr r, with_orders o (with_faults f w)) /\
    (o = inprogress_orders w \/
     (exists c, o = Dict.set sid c (inprogress_orders w)) \/
     o = Dict.remove_first sid (inprogress_orders w)).
Proof.
  destruct (fst (validate_order_params p)) eqn:V.
  2:{ unfold remove_from_order. destruct (validate_order_params p) as [b msg].
      simpl in V; subst b.
      eexists _, (faults w), _. split; [simpl; now rewrite <- world_same|auto]. }
  destruct (validate_ok _ V) as (items & F & _).
  rewrite (remove_from_order_valid p sid w items V F).
  assert (L : forall st0, exists res,
             for_each (zip (names_of items) (requested p (List.length items)))
                      remove_step st0 (advance w) = (res, advance w)).
  { intros st0.
    generalize (zip (names_of items) (requested p (List.length items))).
    intros l. revert st0. induction l as [|[item qty] l IH]; intros st0.
    - eexists. reflexivity.
    - rewrite for_each_cons.
      destruct (Dict.get item (current st0)) as [have|] eqn:G.
      + rewrite (remove_step_present item qty st0 (advance w) have G). apply IH.
      + rewrite (remove_step_absent item qty st0 (advance w) G). eexists. reflexivity. }
  destruct (L (Removal (if faulty w then [] else cart_of sid w) [] [])) as (res & ->).
  destruct res as [e|st].
  - schedule. eexists _, _, _. split; [apply f_equal, with_orders_same|auto].
  - destruct (current st) eqn:Cs.
    + rewrite delete_order_eq. destruct (faulty (advance w)); schedule.
      * eexists _, _, _. split; [apply f_equal, with_orders_same|auto].
      * eexists _, _, _. split; [reflexivity|auto].
    + rewrite set_order_eq. destruct (faulty (advance w)); schedule.
      * eexists _, _, _. split; [apply f_equal, with_orders_same|auto].
      * eexists _, _, _. split; [reflexivity|]. right. left. eexists. reflexivity.
Qed.

Lemma get_remove_first_other {V} k k' (d : Dict.t V) :
  k <> k' -> Dict.get k' (Dict.remove_first k d) = Dict.get k' d.
Proof.
  intros N. induction d as [|[k0 v0] r IH]; simpl; [reflexivity|].
  destruct (String.eqb_spec k k0) as [->|Ne]; simpl.
  - destruct (String.eqb_spec k' k0); congruence.
  - destruct (String.eqb_spec k' k0); auto.
Qed.

(** X4.  Whatever the request and whatever the store does, [add_to_order] and
    [remove_from_order] for one session never change the cart of another
    session, the menu, the contacts or the trace of outbound calls. *)
Theorem cart_operations_are_session_local
  (p : Dict.t pyval) (sid other : string) (w : world) :
  sid <> other ->
  let wa := snd (add_to_order p sid w) in
  let wr := snd (remove_from_order p sid w) in
  (cart_of other wa = cart_of other w /\ food_items wa = food_items w /\
   user_contacts wa = user_contacts w /\ trace wa = trace w)
  /\
  (cart_of other wr = cart_of other w /\ food_items wr = food_items w /\
   user_contacts wr = user_contacts w /\ trace wr = trace w).
Proof.
  intros N wa wr. split.
  - destruct (add_to_order_footprint p sid w) as (r & f & o & E & [->|[c ->]]);
      subst wa; rewrite E; simpl; repeat split; auto.
    unfold cart_of; simpl. now rewrite get_set_other.
  - destruct (remove_from_order_footprint p sid w)
      as (r & f & o & E & [->|[[c ->]| ->]]);
      subst wr; rewrite E; simpl; repeat split; auto; unfold cart_of; simpl.
    + now rewrite get_set_other.
    + now rewrite get_remove_first_other.
Qed.

Lemma cart_operations_are_session_local_witness :
  let p := [("food-item", PList [PStr "Burger"]); ("number", PList [PInt 3])] in
  let wa := snd (add_to_order p "s2" sample_world) in
  let wr := snd (remove_from_order p "s2" sample_world) in
  (cart_of "s1" wa = cart_of "s1" sample_world /\
   food_items wa = food_items sample_world /\
   user_contacts wa = user_contacts sample_world /\ trace wa = trace sample_world)
  /\
  (cart_of "s1" wr = cart_of "s1" sample_world /\
   food_items wr = food_items sample_world /\
   user_contacts wr = user_contacts sample_world /\ trace wr = trace sample_world).
Proof.
  apply (cart_operations_are_session_local
           [("food-item", PList [PStr "Burger"]); ("number", PList [PInt 3])]
           "s2" "s1" sample_world).
  discriminate.
Defined.

(* ===================================================================== *)
(** ** Emptying the cart, and the store in trouble *)
(* ===================================================================== *)

Lemma without_subset names : forall (c : cart) kv,
  In kv (without names c) -> In kv c /\ ~ In (fst kv) names.
Proof.
  induction names as [|a names IH]; intros c kv I; [auto|].
  change (without (a :: names) c) with (without names (Dict.remove a c)) in I.
  apply IH in I as [I N]. unfold Dict.remove in I. apply filter_In in I as [I E].
  split; [exact I|]. intros [->|J]; [|contradiction].
  rewrite String.eqb_refl in E. discriminate.
Qed.

Lemma without_all names (c : cart) :
  (forall k, In k (Dict.keys c) -> In k names) -> without names c = [].
Proof.
  intros H. destruct (without names c) as [|kv r] eqn:E; [reflexivity|].
  destruct (without_subset names c kv) as [I N]; [rewrite E; now left|].
  exfalso. apply N, H. unfold Dict.keys. now apply in_map.
Qed.

(** X5.  On a store that answers and keeps one cart record per session, a
    valid removal request whose distinct names are exactly the items of the
    cart succeeds with an empty remaining cart, the cart record is deleted,
    and a summary asked next finds no cart. *)
Theorem remove_all_deletes_record
  (w : world) (p : Dict.t pyval) (sid : string) (items : list pyval) :
  faults w = [] ->
  NoDup (Dict.keys (inprogress_orders w)) ->
  fst (validate_order_params p) = true ->
  param_get "food-item" p = PList items ->
  NoDup (names_of items) ->
  (forall x, In x (names_of items) <-> In x (Dict.keys (cart_of sid w))) ->
  exists r,
    remove_from_order p sid w
    = (inr r, with_orders (Dict.remove_first sid (inprogress_orders w)) w) /\
    status_of r = Some (JStr "success") /\
    Dict.get "remaining_items" r = Some (JCart []) /\
    Dict.get sid (Dict.remove_first sid (inprogress_orders w)) = None /\
    forall q,
      fst (order_summary_intent q sid
             (with_orders (Dict.remove_first sid (inprogress_orders w)) w))
      = inr (error_response "You don't have any items in your order yet.").
Proof.
  intros R U V F D K.
  rewrite (remove_from_order_valid p sid w items V F).
  rewrite (faulty_reliable _ R), (advance_reliable _ R).
  destruct (validate_ok _ V) as (items' & F' & _ & S & _).
  rewrite F in F'. inversion F'; subst items'. clear F'.
  rewrite remove_loop_present; auto.
  2:{ rewrite (requested_length p items V F). apply (proj2 (sanitize_all_strs _ S)). }
  2:{ intros x I. apply K in I. unfold Dict.mem, Dict.keys in *.
      clear - I. induction (cart_of sid w) as [|[k v] r IH]; simpl in *; [contradiction|].
      destruct (String.eqb_spec x k); [reflexivity|]. apply IH. destruct I; congruence. }
  assert (W : without (names_of items) (cart_of sid w) = []).
  { apply without_all. intros k I. now apply K. }
  unfold removal_response. cbn [current]. rewrite W.
  rewrite delete_order_eq, (faulty_reliable _ R), (advance_reliable _ R).
  eexists. split; [reflexivity|]. split; [reflexivity|]. split; [reflexivity|].
  assert (G : Dict.get sid (Dict.remove_first sid (inprogress_orders w)) = None)
    by now apply get_remove_first_unique.
  split; [exact G|]. intros q.
  unfold order_summary_intent, try_except.
  erewrite bind_val;
    [|rewrite get_order_eq; unfold faulty, advance; cbn [faults with_orders];
      rewrite R; reflexivity].
  unfold cart_of. cbn [inprogress_orders with_orders]. rewrite G. reflexivity.
Qed.

Lemma remove_all_deletes_record_witness :
  exists r,
    remove_from_order [("food-item", PList [PStr "Pizza"])] "s1" sample_world
    = (inr r, with_orders (Dict.remove_first "s1" (inprogress_orders sample_world))
                          sample_world) /\
    status_of r = Some (JStr "success") /\
    Dict.get "remaining_items" r = Some (JCart []) /\
    Dict.get "s1" (Dict.remove_first "s1" (inprogress_orders sample_world)) = None /\
    forall q,
      fst (order_summary_intent q "s1"
             (with_orders (Dict.remove_first "s1" (inprogress_orders sample_world))
                          sample_world))
      = inr (error_response "You don't have any items in your order yet.").
Proof.
  apply (remove_all_deletes_record sample_world
           [("food-item", PList [PStr "Pizza"])] "s1" [PStr "Pizza"]).
  - reflexivity.
  - constructor; [intros []|constructor].
  - reflexivity.
  - reflexivity.
  - constructor; [intros []|constructor].
  - intros x. simpl. tauto.
Defined.

(** X6.  A removal request that passes validation and names an item the cart
    read from the store does not hold is answered by the general error and
    removes nothing, not even the items it names that are there.  A cart the
    store failed to return reads as empty, so that during such an outage every
    valid removal is answered this way. *)
Theorem absent_item_aborts_removal
  (w : world) (p : Dict.t pyval) (sid x : string) (items : list pyval) :
  fst (validate_order_params p) = true ->
  param_get "food-item" p = PList items ->
  In x (names_of items) ->
  Dict.mem x (if faulty w then [] else cart_of sid w) = false ->
  remove_from_order p sid w
  = (inr (error_response "Sorry, an error occurred while removing from your order."),
     advance w).
Proof.
  intros V F I A.
  rewrite (remove_from_order_valid p sid w items V F).
  destruct (validate_ok _ V) as (items' & F' & _ & S & _).
  rewrite F in F'. inversion F'; subst items'. clear F'.
  destruct (in_zip_left x (names_of items) (requested p (List.length items)))
    as [q Iq]; auto.
  { rewrite (requested_length p items V F). apply (proj2 (sanitize_all_strs _ S)). }
  destruct (remove_loop_absent
              (zip (names_of items) (requested p (List.length items)))
              (Removal (if faulty w then [] else cart_of sid w) [] []) (advance w))
    as [e ->]; [|reflexivity].
  exists (x, q). split; [exact Iq|]. simpl. unfold Dict.mem in A.
  destruct (Dict.get x (if faulty w then [] else cart_of sid w)) eqn:G;
    [discriminate|exact G].
Qed.

Lemma absent_item_aborts_removal_witness :
  remove_from_order [("food-item", PList [PStr "Pizza"; PStr "Burger"])] "s1"
                    sample_world
  = (inr (error_response "Sorry, an error occurred while removing from your order."),
     advance sample_world).
Proof.
  apply (absent_item_aborts_removal sample_world
           [("food-item", PList [PStr "Pizza"; PStr "Burger"])] "s1" "burger"
           [PStr "Pizza"; PStr "Burger"]).
  - reflexivity.
  - reflexivity.
  - simpl. right. left. reflexivity.
  - reflexivity.
Defined.

Lemma of_zip_head ns : forall (zs : list Z) k v (acc : cart),
  exists v' rest, Dict.of_zip ((k, v) :: acc) ns zs = (k, v') :: rest.
Proof.
  induction ns as [|n ns IH]; intros [|z zs] k v acc; try (eexists _, _; reflexivity).
  change (Dict.of_zip ((k, v) :: acc) (n :: ns) (z :: zs))
    with (Dict.of_zip (Dict.set n z ((k, v) :: acc)) ns zs).
  simpl. destruct (String.eqb n k) eqn:E.
  - apply String.eqb_eq in E. subst n. apply IH.
  - apply IH.
Qed.

(** X7.  When the store fails on the first catalog lookup, [add_to_order]
    tells the user that the first item of the request is not on the menu,
    whether it is or not, and touches no cart. *)
Theorem lookup_outage_reads_as_not_on_menu
  (w : world) (p : Dict.t pyval) (sid raw : string) (rest : list pyval)
  (b : bool) (f : list bool) :
  faults w = b :: true :: f ->
  fst (validate_order_params p) = true ->
  truthy (param_get "number" p) = true ->
  param_get "food-item" p = PList (PStr raw :: rest) ->
  add_to_order p sid w
  = (inr (not_available (sanitize_food_item raw)), with_faults f w).
Proof.
  intros Fw V T F.
  destruct (validate_ok _ V) as (items' & F' & NE & S & Q).
  rewrite F in F'. inversion F'; subst items'. clear F'.
  destruct (Q T) as (qs & zs & N & L & Hz & P).
  rewrite (add_to_order_valid p sid w _ qs zs V F S N Hz).
  destruct zs as [|z zs].
  { apply py_ints_length in Hz. rewrite L in Hz. discriminate. }
  cbn [names_of flat_map app].
  change (Dict.of_zip [] (sanitize_food_item raw :: ?ns) (z :: zs))
    with (Dict.of_zip [(sanitize_food_item raw, z)] ns zs).
  destruct (of_zip_head (flat_map
                           (fun v => match v with
                                     | PStr s => [sanitize_food_item s]
                                     | _ => []
                                     end) rest) zs (sanitize_food_item raw) z [])
    as (v' & more & ->).
  change (add_items ((?k, ?q) :: ?l) ?c ?w0)
    with (bind (db_helper.food_item_exists k)
               (fun found =>
                  if negb found then ret (inl (not_available k))
                  else add_items l
                         (Dict.set k (match Dict.get k c with
                                      | Some q0 => q0 | None => 0 end + q) c)) w0).
  unfold bind. rewrite food_item_exists_eq.
  assert (Fa : faulty (advance w) = true) by (unfold faulty, advance; simpl; now rewrite Fw).
  rewrite Fa. cbn [negb andb]. unfold ret.
  unfold advance. rewrite !faults_with_faults, Fw. reflexivity.
Qed.

Lemma lookup_outage_reads_as_not_on_menu_witness :
  in_catalog (food_items sample_world) (sanitize_food_item "Pizza") = true /\
  add_to_order [("food-item", PList [PStr "Pizza"]); ("number", PList [PInt 1])]
               "s1" (with_faults [false; true] sample_world)
  = (inr (not_available (sanitize_food_item "Pizza")),
     with_faults [] (with_faults [false; true] sample_world)).
Proof.
  split; [reflexivity|].
  apply (lookup_outage_reads_as_not_on_menu
           (with_faults [false; true] sample_world)
           [("food-item", PList [PStr "Pizza"]); ("number", PList [PInt 1])]
           "s1" "Pizza" [] false []); reflexivity.
Defined.

(** X8.  When the store fails on the read of the cart and answers afterwards,
    a valid request for catalog items whose quantities fit in eight bytes each
    succeeds and the persisted cart becomes the batch alone: what the cart
    held before is overwritten. *)
Theorem failed_read_overwrites_cart
  (w : world) (p : Dict.t pyval) (sid : string)
  (items qs : list pyval) (zs : list Z) :
  faults w = [true] ->
  fst (validate_order_params p) = true ->
  param_get "food-item" p = PList items ->
  param_get "number" p = PList qs ->
  py_ints qs = inr zs ->
  (forall x, In x (names_of items) -> in_catalog (food_items w) x = true) ->
  forallb Mongo.fits_int64 zs = true ->
  let batch := Dict.of_zip [] (names_of items) zs in
  exists c',
    add_to_order p sid w
    = (inr (added c'),
       with_orders (Dict.set sid c' (inprogress_orders w)) (with_faults [] w)) /\
    forall x, held c' x = held batch x.
Proof.
  intros Fw V F N Hz K Fit batch.
  destruct (validate_ok _ V) as (items' & F' & NE & S & _).
  rewrite F in F'. inversion F'; subst items'. clear F'.
  rewrite (add_to_order_valid p sid w items qs zs V F S N Hz).
  assert (Fa : faulty w = true) by (unfold faulty; now rewrite Fw).
  assert (Ra : faults (advance w) = []) by (unfold advance; simpl; now rewrite Fw).
  rewrite Fa.
  destruct (add_items_spec batch [] (advance w)) as (o & f & E & Rf & O).
  fold batch. rewrite E, (Rf Ra). schedule.
  destruct o as [r|c'].
  - destruct O as (item & I & _ & Nc). specialize (Nc Ra).
    apply keys_of_zip in I. destruct I as [I|[]].
    change (food_items (advance w)) with (food_items w) in Nc.
    rewrite (K item I) in Nc. discriminate.
  - destruct O as [-> _]. exists (merge_items batch []).
    rewrite set_order_eq. split; [reflexivity|].
    intros x. rewrite held_merge by (apply of_zip_nodup; constructor).
    reflexivity.
Qed.

Lemma failed_read_overwrites_cart_witness :
  exists c',
    add_to_order [("food-item", PList [PStr "Burger"]); ("number", PList [PInt 1])]
                 "s1" (with_faults [true] sample_world)
    = (inr (added c'),
       with_orders (Dict.set "s1" c' (inprogress_orders sample_world))
                   (with_faults [] sample_world)) /\
    forall x, held c' x = held (Dict.of_zip [] (names_of [PStr "Burger"]) [1]) x.
Proof.
  apply (failed_read_overwrites_cart (with_faults [true] sample_world)
           [("food-item", PList [PStr "Burger"]); ("number", PList [PInt 1])]
           "s1" [PStr "Burger"] [PInt 1] [1]).
  - reflexivity.
  - reflexivity.
  - reflexivity.
  - reflexivity.
  - reflexivity.
  - intros x [<-|[]]. reflexivity.
  - reflexivity.
Defined.

(* ===================================================================== *)
(** ** Operations that only read the store *)
(* ===================================================================== *)

Lemma keeps_world w :
  w = with_trace (trace w ++ []) (with_faults (faults w) w).
Proof. destruct w; simpl. now rewrite app_nil_r. Qed.

Section Keeps.
Variable P : list event -> Prop.
Hypothesis P_nil : P [].
Hypothesis P_app : forall a b, P a -> P b -> P (a ++ b)%list.

Lemma keeps_ret {A} (a : A) : keeps_store P (ret a).
Proof. intros w. exists (inr a), [], (faults w). now rewrite <- keeps_world. Qed.

Lemma keeps_lift {A} (r : exn + A) : keeps_store P (lift r).
Proof. intros w. exists r, [], (faults w). now rewrite <- keeps_world. Qed.

Lemma keeps_bind {A B} (m : M A) (k : A -> M B) :
  keeps_store P m -> (forall a, keeps_store P (k a)) -> keeps_store P (bind m k).
Proof.
  intros Hm Hk w. destruct (Hm w) as (r & e1 & f1 & E1 & P1 & R1). unfold bind. rewrite E1.
  destruct r as [e|a]; [now exists (inl e), e1, f1|].
  destruct (Hk a (with_trace (trace w ++ e1) (with_faults f1 w)))
    as (r2 & e2 & f2 & E2 & P2 & R2).
  exists r2, (e1 ++ e2)%list, f2. rewrite E2. split; [|split].
  - destruct w; simpl. now rewrite app_assoc.
  - auto.
  - intros R. apply R2. simpl. auto.
Qed.

Lemma keeps_try {A} (m : M A) (h : exn -> M A) :
  keeps_store P m -> (forall e, keeps_store P (h e)) -> keeps_store P (try_except m h).
Proof.
  intros Hm Hh w. destruct (Hm w) as (r & e1 & f1 & E1 & P1 & R1).
  unfold try_except. rewrite E1.
  destruct r as [e|a]; [|now exists (inr a), e1, f1].
  destruct (Hh e (with_trace (trace w ++ e1) (with_faults f1 w)))
    as (r2 & e2 & f2 & E2 & P2 & R2).
  exists r2, (e1 ++ e2)%list, f2. rewrite E2. split; [|split].
  - destruct w; simpl. now rewrite app_assoc.
  - auto.
  - intros R. apply R2. simpl. auto.
Qed.

(** A store call that only reads. *)
Lemma keeps_read {A} (m : M A) (v : world -> A) :
  (forall w, m w = (inr (v w), advance w)) -> keeps_store P m.
Proof.
  intros H w. exists (inr (v w)), [], (tl (faults w)). rewrite H. split; [|split].
  - destruct w; simpl. now rewrite app_nil_r.
  - exact P_nil.
  - now intros ->.
Qed.

Lemma keeps_get_order sid : keeps_store P (get_order sid).
Proof. apply (keeps_read _ _ (get_order_eq sid)). Qed.

Lemma keeps_get_user_phone sid : keeps_store P (db_helper.get_user_phone sid).
Proof. apply (keeps_read _ _ (get_user_phone_eq sid)). Qed.

Lemma keeps_get_user_email sid : keeps_store P (db_helper.get_user_email sid).
Proof. apply (keeps_read _ _ (get_user_email_eq sid)). Qed.

Lemma keeps_get_item_price item : keeps_store P (db_helper.get_item_price item).
Proof. apply (keeps_read _ _ (get_item_price_eq item)). Qed.

Lemma keeps_for_each {A S} (l : list A) (body : A -> S -> M S) :
  (forall x s, keeps_store P (body x s)) -> forall s, keeps_store P (for_each l body s).
Proof.
  intros H. induction l as [|x l IH]; intros s; [apply keeps_ret|].
  change (for_each (x :: l) body s) with (bind (body x s) (for_each l body)).
  apply keeps_bind; auto.
Qed.

Lemma keeps_total_of order : keeps_store P (total_of order).
Proof.
  unfold total_of. apply keeps_for_each. intros kv t.
  apply keeps_bind; [apply keeps_get_item_price|intros; apply keeps_ret].
Qed.

Lemma keeps_item_prices order : keeps_store P (item_prices_of order).
Proof.
  unfold item_prices_of. apply keeps_for_each. intros item prices.
  apply keeps_bind; [apply keeps_get_item_price|intros; apply keeps_ret].
Qed.

Lemma keeps_init : keeps_store P NotificationSystem.init.
Proof.
  intros w. eexists _, [], (faults w). split; [|auto].
  unfold NotificationSystem.init. now rewrite <- keeps_world.
Qed.

Lemma keeps_time : keeps_store P time_time.
Proof.
  intros w. exists (inr (clock w)), [], (faults w). now rewrite <- keeps_world.
Qed.

Lemma keeps_dispatch sms wa mail user_info :
  (forall v, keeps_store P (sms v)) -> (forall v, keeps_store P (wa v)) ->
  (forall v, keeps_store P (mail v)) ->
  keeps_store P (dispatch sms wa mail user_info).
Proof.
  intros Hs Hw Hm. unfold dispatch.
  apply keeps_bind.
  { destruct (NotificationSystem.contact "phone" user_info); [|apply keeps_ret].
    apply keeps_bind; [apply Hs|intros; apply keeps_ret]. }
  intros r1. apply keeps_bind.
  { destruct (NotificationSystem.contact "phone" user_info); [|apply keeps_ret].
    apply keeps_bind; [apply Hw|intros; apply keeps_ret]. }
  intros r2. apply keeps_bind; [|intros; apply keeps_ret].
  destruct (NotificationSystem.contact "email" user_info); [|apply keeps_ret].
  apply keeps_bind; [apply Hm|intros; apply keeps_ret].
Qed.

End Keeps.

Lemma keeps_shows obs {A} (Q : A -> Prop) (m : M A) ms :
  shows obs Q m ms -> keeps_store some_events m.
Proof.
  intros H w. destruct (H w) as (a & evs & E & _). exists (inr a), evs, (faults w).
  rewrite E, with_faults_same. unfold some_events. auto.
Qed.

Lemma confirmation_is_dispatch self user_info od :
  NotificationSystem.send_order_confirmation self user_info od
  = dispatch
      (fun p => NotificationSystem.send_sms self p
                  (NotificationSystem._create_order_confirmation_sms od))
      (fun p => NotificationSystem.send_whatsapp self p
                  (NotificationSystem._create_order_confirmation_whatsapp od))
      (fun e => NotificationSystem.send_email self e
                  ("Order Confirmation - #" ++ NotificationSystem.order_id od)
                  (NotificationSystem._create_order_confirmation_email_html od)
                  (NotificationSystem._create_order_confirmation_email_text od))
      user_info.
Proof. reflexivity. Qed.

Lemma some_events_app a b : some_events a -> some_events b -> some_events (a ++ b).
Proof. exact (fun _ _ => I). Qed.

Lemma no_events_app a b : no_events a -> no_events b -> no_events (a ++ b).
Proof. unfold no_events. now intros -> ->. Qed.

Lemma keeps_confirmation self user_info od :
  keeps_store some_events
    (NotificationSystem.send_order_confirmation self user_info od).
Proof.
  rewrite confirmation_is_dispatch.
  apply (keeps_dispatch some_events I some_events_app); intros v.
  - apply (keeps_shows channel_of any _ _ (shows_send_sms channel_of channel_post _ _ _)).
  - apply (keeps_shows channel_of any _ _
             (shows_send_whatsapp channel_of channel_post _ _ _ channel_provider)).
  - apply (keeps_shows channel_of any _ _
             (shows_send_email channel_of channel_smtp _ _ _ _ _)).
Qed.

Ltac keeps_step nil app :=
  first
    [ apply (keeps_ret _ nil) | apply (keeps_lift _ nil)
    | apply (keeps_get_order _ nil) | apply (keeps_get_user_phone _ nil)
    | apply (keeps_get_user_email _ nil) | apply (keeps_get_item_price _ nil)
    | apply (keeps_total_of _ nil app) | apply (keeps_item_prices _ nil app)
    | apply keeps_confirmation | apply (keeps_init _ nil) | apply (keeps_time _ nil)
    | apply (keeps_bind _ app); [|intros ?]
    | apply (keeps_try _ app); [|intros ?]
    | match goal with
      | |- keeps_store _ (if ?c then _ else _) => destruct c
      | |- keeps_store _ (match ?x with _ => _ end) => destruct x
      end ].

Lemma keeps_order_summary p sid : keeps_store no_events (order_summary_intent p sid).
Proof.
  unfold order_summary_intent.
  repeat keeps_step (eq_refl : no_events []) no_events_app.
Qed.

Lemma keeps_complete_order p sid : keeps_store some_events (complete_order p sid).
Proof. unfold complete_order. repeat keeps_step I some_events_app. Qed.

Lemma keeps_send_notifications p sid :
  keeps_store some_events (send_notifications p sid).
Proof. unfold send_notifications. repeat keeps_step I some_events_app. Qed.

(** A handler whose body is wrapped in [try ... except Exception] with a
    returning handler returns. *)
Lemma keeps_answers (P : list event -> Prop) (m : M response)
  (h : exn -> response) w :
  keeps_store P (try_except m (fun e => ret (h e))) ->
  exists r w' evs,
    try_except m (fun e => ret (h e)) w = (inr r, w') /\
    same_store w w' /\ trace w' = (trace w ++ evs)%list /\ P evs /\
    (faults w = [] -> faults w' = []).
Proof.
  intros K. destruct (K w) as (r & evs & f & E & Pe & R).
  assert (exists a, r = inr a) as [a ->].
  { revert E. unfold try_except. destruct (m w) as [[e|a] w1].
    - intros [= <- _]. now eexists.
    - intros [= <- _]. now eexists. }
  exists a, (with_trace (trace w ++ evs) (with_faults f w)), evs. split; [exact E|].
  split; [now repeat split|]. split; [reflexivity|]. split; [exact Pe|exact R].
Qed.

(** X9.  The summary, the commit and the notification handler only read the
    store: whatever the store, the providers and the parameters do, each returns
    a response, and the carts, the contacts and the menu are afterwards what
    they were; the summary sends nothing.  In particular a committed cart is
    still there. *)
Theorem summary_commit_and_notify_only_read
  (p : Dict.t pyval) (sid : string) (w : world) :
  (exists r w', order_summary_intent p sid w = (inr r, w') /\
                same_store w w' /\ trace w' = trace w) /\
  (exists r w', complete_order p sid w = (inr r, w') /\ same_store w w') /\
  (exists r w', send_notifications p sid w = (inr r, w') /\ same_store w w').
Proof.
  split; [|split].
  - destruct (keeps_answers no_events _ (fun _ => _) w (keeps_order_summary p sid))
      as (r & w' & evs & E & S & T & Pe & _).
    exists r, w'. split; [exact E|]. split; [exact S|].
    rewrite T, Pe. apply app_nil_r.
  - destruct (keeps_answers some_events _ (fun e => _) w (keeps_complete_order p sid))
      as (r & w' & evs & E & S & _).
    now exists r, w'.
  - destruct (keeps_answers some_events _ (fun _ => _) w (keeps_send_notifications p sid))
      as (r & w' & evs & E & S & _).
    now exists r, w'.
Qed.

(* ===================================================================== *)
(** ** The dispatchers *)
(* ===================================================================== *)

(** The chat channel on a string destination says success. *)
Lemma whatsapp_says_success self v message :
  shows channel_of (fun r => is_str v = true -> says_success r)
        (NotificationSystem.send_whatsapp self v message) [SendWhatsapp].
Proof.
  intros w.
  destruct (shows_send_whatsapp channel_of channel_post self v message
              channel_provider w) as (a & evs & E & S & _).
  exists a, evs. split; [exact E|]. split; [exact S|].
  intros Hs. destruct v as [| | |n| |]; try discriminate Hs.
  rewrite send_whatsapp_is_chain in E.
  assert (Ee : emit (Enter SendWhatsapp (PStr n)) w
               = (inr tt, with_trace (trace w ++ [Enter SendWhatsapp (PStr n)]) w))
    by reflexivity.
  rewrite (bind_val _ _ _ _ _ Ee) in E.
  destruct (chain_whatsapp self (format_whatsapp_number n) message
              (NotificationSystem.failure "All WhatsApp methods failed")
              (with_trace (trace w ++ [Enter SendWhatsapp (PStr n)]) w))
    as (r & evs' & b & g & s & E' & T & _).
  unfold try_except in E. rewrite E' in E. injection E as <- _. exact T.
Qed.

Lemma dispatch_law sms wa mail
  (Qs Qw Qm : pyval -> NotificationSystem.result -> Prop) user_info :
  (forall v, shows channel_of (Qs v) (sms v) [SendSms]) ->
  (forall v, shows channel_of (Qw v) (wa v) [SendWhatsapp]) ->
  (forall v, shows channel_of (Qm v) (mail v) [SendEmail]) ->
  forall w, exists results evs,
    dispatch sms wa mail user_info w = (inr results, with_trace (trace w ++ evs) w) /\
    seen channel_of evs
      = ((if truthy (param_get "phone" user_info) then [SendSms; SendWhatsapp] else [])
         ++ (if truthy (param_get "email" user_info) then [SendEmail] else []))%list /\
    dispatched Qs Qw Qm user_info results.
Proof.
  intros Hs Hw Hm w. unfold dispatch, dispatched, NotificationSystem.contact.
  cbv zeta.
  destruct (truthy (param_get "phone" user_info));
    destruct (truthy (param_get "email" user_info)).
  - destruct (Hs (param_get "phone" user_info) w) as (r1 & e1 & E1 & S1 & Q1).
    destruct (Hw (param_get "phone" user_info) (with_trace (trace w ++ e1) w))
      as (r2 & e2 & E2 & S2 & Q2).
    destruct (Hm (param_get "email" user_info)
                 (with_trace (trace (with_trace (trace w ++ e1) w) ++ e2)
                             (with_trace (trace w ++ e1) w)))
      as (r3 & e3 & E3 & S3 & Q3).
    exists [("sms", r1); ("whatsapp", r2); ("email", r3)], (e1 ++ (e2 ++ e3))%list.
    split.
    + rewrite bind_bind, (bind_val _ _ _ _ _ E1), bind_ret.
      rewrite bind_bind, (bind_val _ _ _ _ _ E2), bind_ret.
      rewrite bind_bind, (bind_val _ _ _ _ _ E3), bind_ret.
      rewrite !with_trace_app. reflexivity.
    + split; [now rewrite !seen_app, S1, S2, S3|]. now exists r1, r2, r3.
  - destruct (Hs (param_get "phone" user_info) w) as (r1 & e1 & E1 & S1 & Q1).
    destruct (Hw (param_get "phone" user_info) (with_trace (trace w ++ e1) w))
      as (r2 & e2 & E2 & S2 & Q2).
    exists [("sms", r1); ("whatsapp", r2)], (e1 ++ e2)%list.
    split.
    + rewrite bind_bind, (bind_val _ _ _ _ _ E1), bind_ret.
      rewrite bind_bind, (bind_val _ _ _ _ _ E2), bind_ret.
      rewrite !with_trace_app. reflexivity.
    + split; [now rewrite !seen_app, S1, S2|]. now exists r1, r2.
  - destruct (Hm (param_get "email" user_info) w) as (r3 & e3 & E3 & S3 & Q3).
    exists [("email", r3)], e3.
    split.
    + rewrite !bind_ret, bind_bind, (bind_val _ _ _ _ _ E3), bind_ret. reflexivity.
    + split; [exact S3|]. now exists r3.
  - exists [], []. rewrite with_trace_nil. auto.
Qed.

(** Any dispatcher built from the three channel methods of an instance. *)
Lemma dispatch_by_contact self user_info m_sms m_wa subject html text w :
  dispatches_by_contact user_info
    (dispatch (fun p => NotificationSystem.send_sms self p m_sms)
              (fun p => NotificationSystem.send_whatsapp self p m_wa)
              (fun e => NotificationSystem.send_email self e subject html text)
              user_info) w.
Proof.
  destruct (dispatch_law
              (fun p => NotificationSystem.send_sms self p m_sms)
              (fun p => NotificationSystem.send_whatsapp self p m_wa)
              (fun e => NotificationSystem.send_email self e subject html text)
              (fun _ => any) (fun v r => is_str v = true -> says_success r)
              (fun _ => any) user_info
              (fun v => shows_send_sms channel_of channel_post self v m_sms)
              (fun v => whatsapp_says_success self v m_wa)
              (fun v => shows_send_email channel_of channel_smtp self v subject html text)
              w) as (results & evs & E & S & D).
  exists results, evs. split; [exact E|]. split; [exact S|].
  revert D. unfold dispatched, NotificationSystem.contact. cbv zeta.
  destruct (truthy (param_get "phone" user_info));
    destruct (truthy (param_get "email" user_info)).
  - intros (r1 & r2 & r3 & -> & _ & Q & _). split; [reflexivity|].
    intros _ Hs. exact (Q Hs).
  - intros (r1 & r2 & -> & _ & Q). split; [reflexivity|].
    intros _ Hs. exact (Q Hs).
  - intros (r3 & -> & _). split; [reflexivity|]. discriminate.
  - intros ->. split; [reflexivity|]. discriminate.
Qed.

(** X10.  The status update and the delivery notice dispatch as the order
    confirmation does: each returns whatever the providers answer or raise,
    enters SMS and chat exactly when a phone value is there and e-mail exactly
    when an e-mail value is there, in that order, and leaves one entry per
    channel entered; the chat entry says success whenever the phone value is a
    string. *)
Theorem status_and_delivery_dispatch_by_contact
  (self : NotificationSystem.t) (user_info : Dict.t pyval)
  (od : NotificationSystem.order_details) (status : string) (w : world) :
  dispatches_by_contact user_info
    (NotificationSystem.send_status_update self user_info od status) w /\
  dispatches_by_contact user_info
    (NotificationSystem.send_delivery_notification self user_info od) w.
Proof.
  split.
  - exact (dispatch_by_contact self user_info
             (NotificationSystem._create_status_update_sms od status)
             (NotificationSystem._create_status_update_whatsapp od status)
             ("Order Update - #" ++ NotificationSystem.order_id od ++ " - " ++ title status)
             (NotificationSystem._create_status_update_email_html od status)
             (NotificationSystem._create_status_update_email_text od status) w).
  - exact (dispatch_by_contact self user_info
             (NotificationSystem._create_delivery_sms od)
             (NotificationSystem._create_delivery_whatsapp od)
             ("Your Order is Delivered! - #" ++ NotificationSystem.order_id od)
             (NotificationSystem._create_delivery_email_html od)
             (NotificationSystem._create_delivery_email_text od) w).
Qed.

(* ===================================================================== *)
(** ** Commit and notification, by the contacts on file *)
(* ===================================================================== *)

Lemma init_eq w : exists self, NotificationSystem.init w = (inr self, w).
Proof. unfold NotificationSystem.init. eexists. reflexivity. Qed.

Lemma get_user_phone_reliable sid w :
  faults w = [] -> db_helper.get_user_phone sid w = (inr (phone_on_file sid w), w).
Proof.
  intros R. now rewrite get_user_phone_eq, (faulty_reliable _ R), (advance_reliable _ R).
Qed.

Lemma get_user_email_reliable sid w :
  faults w = [] -> db_helper.get_user_email sid w = (inr (email_on_file sid w), w).
Proof.
  intros R. now rewrite get_user_email_eq, (faulty_reliable _ R), (advance_reliable _ R).
Qed.

Lemma get_order_reliable sid w :
  faults w = [] -> get_order sid w = (inr (cart_of sid w), w).
Proof.
  intros R. now rewrite get_order_eq, (faulty_reliable _ R), (advance_reliable _ R).
Qed.

Lemma success_channels_whatsapp results :
  channel_ok "whatsapp" results = true -> success_channels_of results <> [].
Proof.
  intros H. unfold success_channels_of. rewrite H.
  destruct (channel_ok "sms" results); discriminate.
Qed.

(** X11.  On a store that answers, committing a cart that is there sends
    notifications only when both a phone and an e-mail value are on file: then
    the three channels are entered in order; otherwise nothing is sent and the
    answer asks for the phone number, or for the e-mail address when only that
    is missing.  The answer says success either way. *)
Theorem commit_notifies_only_with_both_contacts
  (p : Dict.t pyval) (sid : string) (w : world) :
  faults w = [] -> cart_of sid w <> [] ->
  exists r evs,
    complete_order p sid w = (inr r, with_trace (trace w ++ evs) w) /\
    status_of r = Some (JStr "success") /\
    if truthy (phone_on_file sid w) && truthy (email_on_file sid w)
    then seen channel_of evs = [SendSms; SendWhatsapp; SendEmail] /\
         Dict.get "ask_for_phone" r = None /\ Dict.get "ask_for_email" r = None
    else evs = [] /\
         if truthy (phone_on_file sid w)
         then Dict.get "ask_for_email" r = Some (JBool true)
         else Dict.get "ask_for_phone" r = Some (JBool true).
Proof.
  intros R NE. unfold complete_order. unfold try_except at 1.
  erewrite bind_val; [|now apply get_order_reliable].
  destruct (cart_of sid w) as [|kv c] eqn:C; [contradiction|].
  erewrite bind_val; [|now apply total_of_eq].
  erewrite bind_val; [|reflexivity].
  erewrite bind_val; [|now apply get_user_phone_reliable].
  erewrite bind_val; [|now apply get_user_email_reliable].
  destruct (truthy (phone_on_file sid w)) eqn:Tp;
    destruct (truthy (email_on_file sid w)) eqn:Te;
    cbv beta iota delta [negb andb];
    try (eexists _, []; rewrite with_trace_nil;
         split; [reflexivity|]; split; [reflexivity|]; split; reflexivity).
  destruct (item_prices_reliable (Dict.keys (kv :: c)) [] w R) as [prices Ep].
  erewrite bind_val; [|exact Ep].
  destruct (init_eq w) as [self Ei].
  set (od := NotificationSystem.OrderDetails _ _ _ _ _ _).
  set (ui := [("phone", phone_on_file sid w); ("email", email_on_file sid w)]).
  destruct (dispatch_by_contact self ui
              (NotificationSystem._create_order_confirmation_sms od)
              (NotificationSystem._create_order_confirmation_whatsapp od)
              ("Order Confirmation - #" ++ NotificationSystem.order_id od)
              (NotificationSystem._create_order_confirmation_email_html od)
              (NotificationSystem._create_order_confirmation_email_text od) w)
    as (results & evs & E & S & _).
  rewrite <- confirmation_is_dispatch in E.
  change (truthy (param_get "phone" ui)) with (truthy (phone_on_file sid w)) in S.
  change (truthy (param_get "email" ui)) with (truthy (email_on_file sid w)) in S.
  rewrite Tp, Te in S.
  match goal with
  | |- context [bind (try_except ?m ?h) _ w] =>
      assert (Et : exists txt,
                 try_except m h w = (inr txt, with_trace (trace w ++ evs) w))
  end.
  { unfold try_except.
    rewrite (bind_val _ _ _ _ _ Ei), (bind_val _ _ _ _ _ E).
    destruct ((if channel_ok "sms" results then _ else _) ++ _)%list;
      eexists; reflexivity. }
  destruct Et as [txt Et]. rewrite (bind_val _ _ _ _ _ Et).
  eexists _, evs. split; [reflexivity|]. split; [reflexivity|].
  split; [exact S|]. split; reflexivity.
Qed.

Lemma commit_notifies_only_with_both_contacts_witness :
  exists r evs,
    complete_order [] "s1" contact_world
      = (inr r, with_trace (trace contact_world ++ evs) contact_world) /\
    status_of r = Some (JStr "success") /\
    seen channel_of evs = [SendSms; SendWhatsapp; SendEmail] /\
    Dict.get "ask_for_phone" r = None /\ Dict.get "ask_for_email" r = None.
Proof.
  apply (commit_notifies_only_with_both_contacts [] "s1" contact_world).
  - reflexivity.
  - discriminate.
Defined.

(** X12.  On a store that answers, [send_notifications] refuses without any
    contact on file and without a cart, sending nothing; otherwise it enters
    SMS and chat when a phone value is on file and e-mail when an e-mail value
    is, and when the phone value is a string it answers success whatever the
    providers did, since the chat channel always reports success. *)
Theorem notify_outcomes (p : Dict.t pyval) (sid : string) (w : world) :
  faults w = [] ->
  exists r evs,
    send_notifications p sid w = (inr r, with_trace (trace w ++ evs) w) /\
    if negb (truthy (phone_on_file sid w)) && negb (truthy (email_on_file sid w))
    then evs = [] /\ status_of r = Some (JStr "error")
    else match cart_of sid w with
         | [] => evs = [] /\ status_of r = Some (JStr "error")
         | _ =>
             seen channel_of evs
               = ((if truthy (phone_on_file sid w) then [SendSms; SendWhatsapp] else [])
                  ++ (if truthy (email_on_file sid w) then [SendEmail] else []))%list /\
             (status_of r = Some (JStr "success")
              \/ status_of r = Some (JStr "warning")) /\
             (truthy (phone_on_file sid w) = true ->
              is_str (phone_on_file sid w) = true ->
              status_of r = Some (JStr "success"))
         end.
Proof.
  intros R. unfold send_notifications. unfold try_except at 1.
  erewrite bind_val; [|now apply get_user_phone_reliable].
  erewrite bind_val; [|now apply get_user_email_reliable].
  destruct (negb (truthy (phone_on_file sid w)) && negb (truthy (email_on_file sid w)))
    eqn:N.
  { exists [("fulfillmentText",
             JStr "I don't have your contact information yet. Please provide your phone number and email first.");
            ("status_code", JStr "error")], [].
    rewrite with_trace_nil. split; [reflexivity|]. split; reflexivity. }
  erewrite bind_val; [|now apply get_order_reliable].
  destruct (cart_of sid w) as [|kv c] eqn:C.
  { eexists _, []. rewrite with_trace_nil. split; [reflexivity|]. split; reflexivity. }
  erewrite bind_val; [|now apply total_of_eq].
  erewrite bind_val; [|reflexivity].
  destruct (item_prices_reliable (Dict.keys (kv :: c)) [] w R) as [prices Ep].
  erewrite bind_val; [|exact Ep].
  destruct (init_eq w) as [self Ei].
  rewrite (bind_val _ _ _ _ _ Ei).
  set (od := NotificationSystem.OrderDetails _ _ _ _ _ _).
  set (ui := ((if truthy (phone_on_file sid w) then [("phone", phone_on_file sid w)] else [])
              ++ (if truthy (email_on_file sid w)
                  then [("email", email_on_file sid w)] else []))%list).
  destruct (dispatch_by_contact self ui
              (NotificationSystem._create_order_confirmation_sms od)
              (NotificationSystem._create_order_confirmation_whatsapp od)
              ("Order Confirmation - #" ++ NotificationSystem.order_id od)
              (NotificationSystem._create_order_confirmation_email_html od)
              (NotificationSystem._create_order_confirmation_email_text od) w)
    as (results & evs & E & S & _ & W).
  rewrite <- confirmation_is_dispatch in E.
  rewrite (bind_val _ _ _ _ _ E).
  assert (Up : param_get "phone" ui
               = if truthy (phone_on_file sid w) then phone_on_file sid w else PNone).
  { subst ui. destruct (truthy (phone_on_file sid w));
      destruct (truthy (email_on_file sid w)); reflexivity. }
  assert (Ue : truthy (param_get "email" ui) = truthy (email_on_file sid w)).
  { subst ui. destruct (truthy (phone_on_file sid w));
      destruct (truthy (email_on_file sid w)) eqn:Te; try reflexivity;
      simpl; exact Te. }
  assert (Tp : truthy (param_get "phone" ui) = truthy (phone_on_file sid w)).
  { rewrite Up. now destruct (truthy (phone_on_file sid w)) eqn:T. }
  rewrite Tp, Ue in S. rewrite Tp in W.
  destruct (success_channels_of results) as [|ch chs] eqn:Sc.
  - eexists _, evs. split; [reflexivity|]. split; [exact S|].
    split; [right; reflexivity|].
    intros T Hs. exfalso. apply (success_channels_whatsapp results); [|exact Sc].
    apply W; [exact T|]. now rewrite Up, T.
  - eexists _, evs. split; [reflexivity|]. split; [exact S|].
    split; [left; reflexivity|]. intros _ _. reflexivity.
Qed.

Lemma notify_outcomes_witness :
  exists r evs,
    send_notifications [] "s1" contact_world
      = (inr r, with_trace (trace contact_world ++ evs) contact_world) /\
    seen channel_of evs = [SendSms; SendWhatsapp; SendEmail] /\
    status_of r = Some (JStr "success").
Proof.
  destruct (notify_outcomes [] "s1" contact_world eq_refl)
    as (r & evs & E & S & _ & W).
  exists r, evs. split; [exact E|]. split; [exact S|]. exact (W eq_refl eq_refl).
Defined.

(** X13.  Committing does not consume the cart.  On a store that answers, a
    cart that was committed is still on file, and committing again answers
    success with the same total. *)
Theorem commit_can_be_repeated (p p' : Dict.t pyval) (sid : string) (w : world) :
  faults w = [] -> cart_of sid w <> [] ->
  exists r1 w1 r2 w2,
    complete_order p sid w = (inr r1, w1) /\
    cart_of sid w1 = cart_of sid w /\
    complete_order p' sid w1 = (inr r2, w2) /\
    cart_of sid w2 = cart_of sid w /\
    status_of r2 = Some (JStr "success") /\
    Dict.get "total_price" r1 = Some (JInt (cart_total (food_items w) (cart_of sid w))) /\
    Dict.get "total_price" r2 = Dict.get "total_price" r1.
Proof.
  intros R NE.
  destruct (keeps_answers some_events _ (fun e => _) w (keeps_complete_order p sid))
    as (r1 & w1 & evs1 & E1 & (So1 & Sc1 & Sf1) & _ & _ & R1).
  destruct (keeps_answers some_events _ (fun e => _) w1 (keeps_complete_order p' sid))
    as (r2 & w2 & evs2 & E2 & (So2 & Sc2 & Sf2) & _ & _ & R2).
  change (complete_order p sid w = (inr r1, w1)) in E1.
  change (complete_order p' sid w1 = (inr r2, w2)) in E2.
  assert (C1 : cart_of sid w1 = cart_of sid w) by (unfold cart_of; now rewrite So1).
  assert (C2 : cart_of sid w2 = cart_of sid w) by (unfold cart_of; now rewrite So2, So1).
  destruct (complete_order_reliable p sid w R NE) as (a1 & v1 & F1 & _ & T1).
  destruct (complete_order_reliable p' sid w1 (R1 R)) as (a2 & v2 & F2 & St2 & T2);
    [now rewrite C1|].
  rewrite E1 in F1. injection F1 as <- <-.
  rewrite E2 in F2. injection F2 as <- <-.
  exists r1, w1, r2, w2. rewrite T2, T1, Sf1, C1. auto 10.
Qed.

Lemma commit_can_be_repeated_witness :
  exists r1 w1 r2 w2,
    complete_order [] "s1" sample_world = (inr r1, w1) /\
    cart_of "s1" w1 = cart_of "s1" sample_world /\
    complete_order [] "s1" w1 = (inr r2, w2) /\
    cart_of "s1" w2 = cart_of "s1" sample_world /\
    status_of r2 = Some (JStr "success") /\
    Dict.get "total_price" r1
      = Some (JInt (cart_total (food_items sample_world) (cart_of "s1" sample_world))) /\
    Dict.get "total_price" r2 = Dict.get "total_price" r1.
Proof.
  apply (commit_can_be_repeated [] [] "s1" sample_world).
  - reflexivity.
  - discriminate.
Defined.

(* ===================================================================== *)
(** ** Contacts *)
(* ===================================================================== *)

Lemma set_user_phone_eq sid v w :
  db_helper.set_user_phone sid v w =
  (inr (negb (faulty w)),
   if faulty w then advance w
   else with_contacts
          (Dict.set sid (ContactDoc v (email_on_file sid w)) (user_contacts w))
          (advance w)).
Proof.
  unfold db_helper.set_user_phone, try_except, bind, Mongo.upsert_contact.
  rewrite call_eq. destruct (faulty w); [reflexivity|].
  unfold email_on_file. simpl.
  destruct (Dict.get sid (user_contacts w)); reflexivity.
Qed.

Lemma set_user_email_eq sid v w :
  db_helper.set_user_email sid v w =
  (inr (negb (faulty w)),
   if faulty w then advance w
   else with_contacts
          (Dict.set sid (ContactDoc (phone_on_file sid w) v) (user_contacts w))
          (advance w)).
Proof.
  unfold db_helper.set_user_email, try_except, bind, Mongo.upsert_contact.
  rewrite call_eq. destruct (faulty w); [reflexivity|].
  unfold phone_on_file. simpl.
  destruct (Dict.get sid (user_contacts w)); reflexivity.
Qed.


Lemma collect_phone_number_eq p sid w :
  truthy (param_get "phone-number" p) = true ->
  exists rest,
    collect_phone_number p sid w =
    (inr [("fulfillmentText",
           JStr ("Great! I've saved your phone number: "
                 ++ py_str (param_get "phone-number" p) ++ rest));
          ("status_code", JStr "success")],
     snd (db_helper.get_user_email sid
            (snd (db_helper.set_user_phone sid (param_get "phone-number" p) w)))).
Proof.
  intros T. unfold collect_phone_number, try_except. cbv zeta. rewrite T.
  cbv beta iota delta [negb].
  erewrite bind_val; [|rewrite set_user_phone_eq; reflexivity].
  rewrite set_user_phone_eq. cbn [snd].
  erewrite bind_val; [|rewrite get_user_email_eq; reflexivity].
  rewrite get_user_email_eq. cbn [snd].
  match goal with
  | |- context [if true && ?b then _ else _] => destruct b
  end; cbv beta iota delta [andb]; eexists; reflexivity.
Qed.

Lemma collect_email_eq p sid w :
  truthy (param_get "email" p) = true ->
  collect_email p sid w =
  (inr [("fulfillmentText",
         JStr ("Perfect! I've saved your email: "
               ++ py_str (param_get "email" p)
               ++ ". Your contact information is complete! I'll send you notifications via SMS, WhatsApp, and Email."));
        ("status_code", JStr "success")],
   snd (db_helper.get_user_phone sid
          (snd (db_helper.set_user_email sid (param_get "email" p) w)))).
Proof.
  intros T. unfold collect_email, try_except. cbv zeta. rewrite T.
  cbv beta iota delta [negb].
  erewrite bind_val; [|rewrite set_user_email_eq; reflexivity].
  rewrite set_user_email_eq. cbn [snd].
  erewrite bind_val; [|rewrite get_user_phone_eq; reflexivity].
  rewrite get_user_phone_eq. cbn [snd].
  match goal with
  | |- context [if ?b && true then _ else _] => destruct b
  end; cbv beta iota delta [andb]; reflexivity.
Qed.

Lemma with_contacts_reliable c w : faults w = [] -> faults (with_contacts c w) = [].
Proof. exact (fun H => H). Qed.



(** X15.  When the store fails at the moment of saving, the collecting handlers
    still answer success with a text that says the value was saved, and the
    contacts on file are what they were. *)
Theorem contact_save_failure_reported_as_saved
  (p : Dict.t pyval) (sid : string) (w : world) (f : list bool) :
  faults w = true :: f ->
  (truthy (param_get "phone-number" p) = true ->
   exists rest w',
     collect_phone_number p sid w =
     (inr [("fulfillmentText",
            JStr ("Great! I've saved your phone number: "
                  ++ py_str (param_get "phone-number" p) ++ rest));
           ("status_code", JStr "success")], w') /\
     user_contacts w' = user_contacts w) /\
  (truthy (param_get "email" p) = true ->
   exists rest w',
     collect_email p sid w =
     (inr [("fulfillmentText",
            JStr ("Perfect! I've saved your email: "
                  ++ py_str (param_get "email" p) ++ rest));
           ("status_code", JStr "success")], w') /\
     user_contacts w' = user_contacts w).
Proof.
  intros F.
  assert (Fw : faulty w = true) by (unfold faulty; now rewrite F).
  split; intros T.
  - destruct (collect_phone_number_eq p sid w T) as [rest E].
    exists rest. eexists. split; [exact E|].
    rewrite set_user_phone_eq, Fw. cbn [snd]. rewrite get_user_email_eq. reflexivity.
  - pose proof (collect_email_eq p sid w T) as E.
    eexists _, _. split; [exact E|].
    rewrite set_user_email_eq, Fw. cbn [snd]. rewrite get_user_phone_eq. reflexivity.
Qed.

Lemma contact_save_failure_reported_as_saved_witness :
  let p := [("phone-number", PStr "03001234567"); ("email", PStr "ali@example.com")] in
  let w := with_faults [true] sample_world in
  (truthy (PStr "03001234567") = true ->
   exists rest w',
     collect_phone_number p "s1" w =
     (inr [("fulfillmentText",
            JStr ("Great! I've saved your phone number: "
                  ++ py_str (PStr "03001234567") ++ rest));
           ("status_code", JStr "success")], w') /\
     user_contacts w' = user_contacts w) /\
  (truthy (PStr "ali@example.com") = true ->
   exists rest w',
     collect_email p "s1" w =
     (inr [("fulfillmentText",
            JStr ("Perfect! I've saved your email: "
                  ++ py_str (PStr "ali@example.com") ++ rest));
           ("status_code", JStr "success")], w') /\
     user_contacts w' = user_contacts w).
Proof.
  apply (contact_save_failure_reported_as_saved
           [("phone-number", PStr "03001234567"); ("email", PStr "ali@example.com")]
           "s1" (with_faults [true] sample_world) []).
  reflexivity.
Defined.

(** X26.  The answer of [collect_email] to a request that carries an e-mail
    value does not depend on the store: whether the value could be saved or
    not, and whether a phone number is on file or not, it says that the value
    was saved and that the contact information is complete. *)
Theorem collect_email_answer_ignores_store
  (p : Dict.t pyval) (sid : string) (w : world) :
  truthy (param_get "email" p) = true ->
  fst (collect_email p sid w) =
  inr [("fulfillmentText",
        JStr ("Perfect! I've saved your email: "
              ++ py_str (param_get "email" p)
              ++ ". Your contact information is complete! I'll send you notifications via SMS, WhatsApp, and Email."));
       ("status_code", JStr "success")].
Proof. intros T. now rewrite (collect_email_eq p sid w T). Qed.

Lemma collect_email_answer_ignores_store_witness :
  fst (collect_email [("email", PStr "ali@example.com")] "s1"
         (with_faults [true] sample_world)) =
  inr [("fulfillmentText",
        JStr ("Perfect! I've saved your email: "
              ++ py_str (PStr "ali@example.com")
              ++ ". Your contact information is complete! I'll send you notifications via SMS, WhatsApp, and Email."));
       ("status_code", JStr "success")].
Proof.
  apply (collect_email_answer_ignores_store [("email", PStr "ali@example.com")] "s1"
           (with_faults [true] sample_world)).
  reflexivity.
Defined.

(* ===================================================================== *)
(** ** Names and numbers *)
(* ===================================================================== *)

Lemma prefix_empty s : String.prefix "" s = true.
Proof. now destruct s. Qed.

Lemma plus92 x : "+92" ++ x = String "+" (String "9" (String "2" x)).
Proof. reflexivity. Qed.

(** X16.  The destination [send_sms] builds always starts with [+] and never
    with [+0], and formatting it again changes nothing. *)
Theorem format_sms_number_normal_form (s : string) :
  startswith "+" (NotificationSystem.format_sms_number s) = true /\
  startswith "+0" (NotificationSystem.format_sms_number s) = false /\
  NotificationSystem.format_sms_number (NotificationSystem.format_sms_number s)
  = NotificationSystem.format_sms_number s.
Proof.
  assert (N : forall x,
             startswith "+" ("+92" ++ x) = true /\
             startswith "+0" ("+92" ++ x) = false /\
             NotificationSystem.format_sms_number ("+92" ++ x) = "+92" ++ x).
  { intros x. unfold NotificationSystem.format_sms_number. rewrite plus92.
    unfold startswith. cbn. auto. }
  assert (E : (exists x, NotificationSystem.format_sms_number s = "+92" ++ x) \/
              (NotificationSystem.format_sms_number s = s /\
               startswith "+" s = true /\ startswith "+0" s = false)).
  { unfold NotificationSystem.format_sms_number.
    destruct (startswith "+" s); cbv beta iota delta [negb]; [|eauto].
    destruct (startswith "+0" s); eauto. }
  destruct E as [[x ->]|(-> & P & Z0)]; [apply N|].
  split; [exact P|]. split; [exact Z0|].
  unfold NotificationSystem.format_sms_number. now rewrite P, Z0.
Qed.

Lemma str_forall_filter p s : str_forall p (str_filter p s) = true.
Proof.
  induction s as [|c s IH]; simpl; [reflexivity|].
  destruct (p c) eqn:E; simpl; [now rewrite E|exact IH].
Qed.

Lemma str_forall_lstrip p s : str_forall p s = true -> str_forall p (lstrip s) = true.
Proof.
  induction s as [|c s IH]; simpl; [auto|].
  intros H. apply andb_true_iff in H as [Hc Hs].
  destruct (is_space c); [auto|]. simpl. now rewrite Hc, Hs.
Qed.

Lemma str_forall_list p s : str_forall p s = forallb p (list_ascii_of_string s).
Proof. induction s as [|c s IH]; simpl; [reflexivity|]. now rewrite IH. Qed.

Lemma str_forall_rev p s : str_forall p s = true -> str_forall p (str_rev s) = true.
Proof.
  rewrite !str_forall_list. unfold str_rev.
  rewrite list_ascii_of_string_of_list_ascii, !forallb_forall.
  intros H c I. apply H. now apply in_rev.
Qed.

Lemma str_forall_take p n : forall s,
  str_forall p s = true -> str_forall p (take n s) = true.
Proof.
  induction n as [|n IH]; intros [|c s]; simpl; auto.
  intros H. apply andb_true_iff in H as [Hc Hs]. now rewrite Hc, IH.
Qed.

Lemma str_forall_map (p q : ascii -> bool) f s :
  (forall c, p c = true -> q (f c) = true) ->
  str_forall p s = true -> str_forall q (str_map f s) = true.
Proof.
  intros H. induction s as [|c s IH]; simpl; [auto|].
  intros E. apply andb_true_iff in E as [Hc Hs]. now rewrite (H c Hc), IH.
Qed.

Lemma food_char_lower c : food_char c = true -> clean_char (lower_char c) = true.
Proof.
  destruct c as [[] [] [] [] [] [] [] []]; vm_compute; intros H;
    first [reflexivity | discriminate H].
Qed.

Lemma length_take n : forall s, (String.length (take n s) <= n)%nat.
Proof.
  induction n as [|n IH]; intros [|c s]; simpl; try lia.
  specialize (IH s). lia.
Qed.

Lemma lower_char_clean c : clean_char c = true -> lower_char c = c.
Proof.
  destruct c as [[] [] [] [] [] [] [] []]; vm_compute; intros H;
    first [reflexivity | discriminate H].
Qed.

Lemma lower_clean s : str_forall clean_char s = true -> lower s = s.
Proof.
  unfold lower. induction s as [|c s IH]; simpl; [auto|].
  intros H. apply andb_true_iff in H as [Hc Hs].
  now rewrite (lower_char_clean c Hc), IH.
Qed.

Lemma sanitized_clean s : clean_name (sanitize_food_item s).
Proof.
  split.
  - unfold sanitize_food_item, lower, strip.
    apply str_forall_take, (str_forall_map food_char clean_char), str_forall_rev,
      str_forall_lstrip, str_forall_rev, str_forall_lstrip, str_forall_filter.
    exact food_char_lower.
  - apply length_take.
Qed.

(** X17.  A sanitized item name has at most 30 characters, all of them
    lower-case letters, digits, hyphens or spaces; lower-casing it changes
    nothing, so it meets the case-blind menu lookup as it is. *)
Theorem sanitize_food_item_normal_form (item : string) :
  (String.length (sanitize_food_item item) <= 30)%nat /\
  str_forall clean_char (sanitize_food_item item) = true /\
  lower (sanitize_food_item item) = sanitize_food_item item.
Proof.
  destruct (sanitized_clean item) as [C L].
  split; [exact L|]. split; [exact C|]. now apply lower_clean.
Qed.

Lemma food_char_lower_char c : food_char (lower_char c) = food_char c.
Proof. destruct c as [[] [] [] [] [] [] [] []]; reflexivity. Qed.

Lemma is_space_lower_char c : is_space (lower_char c) = is_space c.
Proof. destruct c as [[] [] [] [] [] [] [] []]; reflexivity. Qed.

Lemma lower_char_twice c : lower_char (lower_char c) = lower_char c.
Proof. destruct c as [[] [] [] [] [] [] [] []]; reflexivity. Qed.

Lemma filter_lower s :
  str_filter food_char (lower s) = lower (str_filter food_char s).
Proof.
  unfold lower. induction s as [|c s IH]; simpl; [reflexivity|].
  rewrite food_char_lower_char. destruct (food_char c); simpl; now rewrite IH.
Qed.

Lemma lstrip_lower s : lstrip (lower s) = lower (lstrip s).
Proof.
  unfold lower. induction s as [|c s IH]; simpl; [reflexivity|].
  rewrite is_space_lower_char. destruct (is_space c); [exact IH|reflexivity].
Qed.

Lemma list_of_str_map f s :
  list_ascii_of_string (str_map f s) = map f (list_ascii_of_string s).
Proof. induction s as [|c s IH]; simpl; [reflexivity|]. now rewrite IH. Qed.

Lemma str_map_of_list f l :
  string_of_list_ascii (map f l) = str_map f (string_of_list_ascii l).
Proof. induction l as [|c l IH]; simpl; [reflexivity|]. now rewrite IH. Qed.

Lemma str_rev_lower s : str_rev (lower s) = lower (str_rev s).
Proof.
  unfold lower, str_rev. now rewrite list_of_str_map, <- map_rev, str_map_of_list.
Qed.

Lemma lower_twice s : lower (lower s) = lower s.
Proof.
  unfold lower. induction s as [|c s IH]; simpl; [reflexivity|].
  now rewrite lower_char_twice, IH.
Qed.

Lemma sanitize_lower s : sanitize_food_item (lower s) = sanitize_food_item s.
Proof.
  unfold sanitize_food_item, strip.
  now rewrite filter_lower, lstrip_lower, str_rev_lower, lstrip_lower, str_rev_lower,
    lower_twice.
Qed.

(** X18.  Two spellings of an item that differ only in the case of their
    letters are sanitized to the same name, and so meet in one cart entry. *)
Theorem sanitize_food_item_ignores_case (a b : string) :
  lower a = lower b -> sanitize_food_item a = sanitize_food_item b.
Proof. intros H. now rewrite <- (sanitize_lower a), H, sanitize_lower. Qed.

Lemma sanitize_food_item_ignores_case_witness :
  sanitize_food_item "Chicken Biryani" = sanitize_food_item "CHICKEN biryani".
Proof. apply (sanitize_food_item_ignores_case "Chicken Biryani" "CHICKEN biryani"). reflexivity. Defined.

(* ===================================================================== *)
(** ** The GreenAPI provider *)
(* ===================================================================== *)

Lemma posted_app e1 e2 : posted (e1 ++ e2) = (posted e1 ++ posted e2)%list.
Proof. unfold posted. apply flat_map_app. Qed.

(** One round of the endpoint loop: a single request to [url], and a verdict. *)
Lemma greenapi_round self clean_number message url rest w :
  exists (sent : bool) e,
    posted [e] = [url] /\
    NotificationSystem.greenapi_endpoints self clean_number message (url :: rest) w
    = (if sent then ret (Some greenapi_result)
       else NotificationSystem.greenapi_endpoints self clean_number message rest)
        (with_trace (trace w ++ [e]) w).
Proof.
  cbn [NotificationSystem.greenapi_endpoints]. cbv zeta.
  unfold bind at 1. unfold try_except, bind at 1, NotificationSystem.requests_post.
  unfold bind at 1, emit.
  match goal with
  | |- context [HttpPost ?u ?h ?p] => set (e := HttpPost u h p)
  end.
  cbn [trace with_trace http].
  destruct (http w (trace w ++ [e])) as [x|code text body].
  - exists false, e. split; reflexivity.
  - destruct (code =? 200).
    + unfold bind, lift, ret. destruct (NotificationSystem.json_get "idMessage" body) as [x|id].
      * exists false, e. split; reflexivity.
      * exists (truthy id), e. split; [reflexivity|]. destruct (truthy id); reflexivity.
    + exists false, e. split; reflexivity.
Qed.

Lemma greenapi_loop self clean_number message : forall endpoints w,
  exists o evs (k : nat),
    NotificationSystem.greenapi_endpoints self clean_number message endpoints w
    = (inr o, with_trace (trace w ++ evs) w) /\
    posted evs = firstn k endpoints /\
    List.length evs = k /\
    (k <= List.length endpoints)%nat /\
    match o with
    | Some r => r = greenapi_result /\ (1 <= k)%nat
    | None => k = List.length endpoints
    end.
Proof.
  induction endpoints as [|url rest IH]; intros w.
  - exists None, [], 0%nat. simpl. rewrite with_trace_nil. auto.
  - destruct (greenapi_round self clean_number message url rest w)
      as (sent & e & Pe & ->).
    destruct sent.
    + exists (Some greenapi_result), [e], 1%nat. simpl firstn.
      split; [reflexivity|]. split; [exact Pe|]. split; [reflexivity|].
      simpl. split; [lia|]. split; [reflexivity|lia].
    + destruct (IH (with_trace (trace w ++ [e]) w)) as (o & evs & k & E & P & O & L & M).
      exists o, ([e] ++ evs)%list, (S k). rewrite E, with_trace_app.
      split; [reflexivity|]. split; [rewrite posted_app, Pe, P; reflexivity|].
      split; [simpl; now rewrite O|].
      simpl. split; [lia|]. destruct o as [r|]; [|lia].
      destruct M as [-> _]. split; [reflexivity|lia].
Qed.

(** X19.  The GreenAPI provider tries its three endpoints in order and stops
    at the first that accepts the message: what it does is a run of one to
    three requests, to an initial part of the endpoint list; it reports failure
    only after all three were tried, and no exception of a request escapes
    it. *)
Theorem greenapi_tries_endpoints_in_order
  (self : NotificationSystem.t) (to_number message : string) (w : world) :
  exists r evs (k : nat),
    NotificationSystem._send_whatsapp_greenapi self to_number message w
    = (inr r, with_trace (trace w ++ Enter GreenApi (PStr to_number) :: evs) w) /\
    posted evs = firstn k (greenapi_urls self) /\
    List.length evs = k /\
    (1 <= k <= 3)%nat /\
    (r = greenapi_result \/
     r = NotificationSystem.failure "All GreenAPI endpoints failed" /\ k = 3%nat).
Proof.
  unfold NotificationSystem._send_whatsapp_greenapi. cbv zeta.
  fold (greenapi_urls self).
  assert (Ee : emit (Enter GreenApi (PStr to_number)) w
               = (inr tt, with_trace (trace w ++ [Enter GreenApi (PStr to_number)]) w))
    by reflexivity.
  rewrite (bind_val _ _ _ _ _ Ee).
  destruct (greenapi_loop self (remove_char "+" to_number) message (greenapi_urls self)
              (with_trace (trace w ++ [Enter GreenApi (PStr to_number)]) w))
    as (o & evs & k & E & P & O & L & M).
  unfold try_except. rewrite (bind_val _ _ _ _ _ E), with_trace_app.
  destruct o as [r|].
  - destruct M as [-> K]. exists greenapi_result, evs, k.
    split; [reflexivity|]. split; [exact P|]. split; [exact O|].
    split; [simpl in L; lia|]. left. reflexivity.
  - exists (NotificationSystem.failure "All GreenAPI endpoints failed"), evs, k.
    split; [reflexivity|]. split; [exact P|]. split; [exact O|].
    split; [rewrite M; simpl; lia|]. right. split; [reflexivity|exact M].
Qed.

(* ===================================================================== *)
(** ** A deployment without credentials *)
(* ===================================================================== *)

Lemma send_sms_unconfigured self v message w :
  NotificationSystem.configured (NotificationSystem.msg91_auth_key self) = false ->
  NotificationSystem.send_sms self v message w
  = (inr (NotificationSystem.failure "MSG91 auth key not configured"),
     with_trace (trace w ++ [Enter SendSms v]) w).
Proof.
  intros H. unfold NotificationSystem.send_sms, bind, emit, try_except.
  rewrite H. reflexivity.
Qed.

Lemma send_email_unconfigured self v subject html text w :
  NotificationSystem.configured (NotificationSystem.email_user self)
    && NotificationSystem.configured (NotificationSystem.email_password self) = false ->
  NotificationSystem.send_email self v subject html text w
  = (inr (NotificationSystem.failure "Email credentials not configured"),
     with_trace (trace w ++ [Enter SendEmail v]) w).
Proof.
  intros H. unfold NotificationSystem.send_email, bind, emit, try_except.
  rewrite <- negb_andb, H. reflexivity.
Qed.

Lemma send_whatsapp_local self n message w :
  NotificationSystem.configured (NotificationSystem.whatsapp_token self)
    && NotificationSystem.configured (NotificationSystem.whatsapp_phone_id self) = false ->
  NotificationSystem.configured (NotificationSystem.greenapi_token self)
    && NotificationSystem.configured (NotificationSystem.greenapi_instance_id self) = false ->
  NotificationSystem.send_whatsapp self (PStr n) message w
  = (inr simple_result,
     with_trace (trace w ++ [Enter SendWhatsapp (PStr n);
                             Enter SimpleWhatsapp (PStr (format_whatsapp_number n))]) w).
Proof.
  intros Hb Hg. rewrite send_whatsapp_is_chain.
  assert (Ee : emit (Enter SendWhatsapp (PStr n)) w
               = (inr tt, with_trace (trace w ++ [Enter SendWhatsapp (PStr n)]) w))
    by reflexivity.
  rewrite (bind_val _ _ _ _ _ Ee).
  destruct (chain_whatsapp self (format_whatsapp_number n) message
              (NotificationSystem.failure "All WhatsApp methods failed")
              (with_trace (trace w ++ [Enter SendWhatsapp (PStr n)]) w))
    as (r & evs & b & g & s & E & _ & _ & Cb & Cg & N).
  destruct (N (Cb Hb) (Cg Hg)) as [-> ->].
  unfold try_except. rewrite E, with_trace_app. reflexivity.
Qed.

Lemma confirmation_without_provider self user_info od n w :
  no_provider self ->
  param_get "phone" user_info = PStr n -> truthy (PStr n) = true ->
  exists results evs,
    NotificationSystem.send_order_confirmation self user_info od w
      = (inr results, with_trace (trace w ++ evs) w) /\
    outbound evs = [] /\
    success_channels_of results = ["WhatsApp"].
Proof.
  intros (Hs & Hb & Hg & He) P T.
  rewrite confirmation_is_dispatch. unfold dispatch, NotificationSystem.contact.
  cbv zeta. rewrite P, T.
  rewrite bind_bind, (bind_val _ _ _ _ _ (send_sms_unconfigured _ _ _ _ Hs)), bind_ret.
  rewrite bind_bind, (bind_val _ _ _ _ _ (send_whatsapp_local _ _ _ _ Hb Hg)), bind_ret.
  rewrite with_trace_app.
  destruct (truthy (param_get "email" user_info)).
  - rewrite bind_bind, (bind_val _ _ _ _ _ (send_email_unconfigured _ _ _ _ _ _ He)),
      bind_ret, with_trace_app.
    eexists _, _. split; [reflexivity|]. split; reflexivity.
  - rewrite !bind_ret. eexists _, _. split; [reflexivity|]. split; reflexivity.
Qed.

(** X20.  In a deployment without credentials for any remote provider, with a
    string phone number on file, [send_notifications] answers that the order
    confirmation was sent successfully via WhatsApp, while no request and no
    mail left the process: only the local provider ran, which logs the
    message. *)
Theorem notify_without_credentials
  (p : Dict.t pyval) (sid n : string) (w : world) :
  faults w = [] -> cart_of sid w <> [] ->
  phone_on_file sid w = PStr n -> truthy (PStr n) = true ->
  no_provider (instance_of (environment w)) ->
  exists evs,
    send_notifications p sid w
    = (inr [("fulfillmentText",
             JStr "✅ Order confirmation sent successfully via WhatsApp! You'll receive updates about your order status.");
            ("status_code", JStr "success")],
       with_trace (trace w ++ evs) w) /\
    outbound evs = [].
Proof.
  intros R NE P T NP. unfold send_notifications. unfold try_except at 1.
  erewrite bind_val; [|now apply get_user_phone_reliable].
  erewrite bind_val; [|now apply get_user_email_reliable].
  rewrite P, T. cbv beta iota delta [negb andb].
  erewrite bind_val; [|now apply get_order_reliable].
  destruct (cart_of sid w) as [|kv c] eqn:C; [contradiction|].
  erewrite bind_val; [|now apply total_of_eq].
  erewrite bind_val; [|reflexivity].
  destruct (item_prices_reliable (Dict.keys (kv :: c)) [] w R) as [prices Ep].
  erewrite bind_val; [|exact Ep].
  assert (Ei : NotificationSystem.init w = (inr (instance_of (environment w)), w))
    by reflexivity.
  rewrite (bind_val _ _ _ _ _ Ei).
  match goal with
  | |- context [NotificationSystem.send_order_confirmation ?s ?ui ?od] =>
      destruct (confirmation_without_provider s ui od n w NP eq_refl T)
        as (results & evs & E & O & Sc)
  end.
  rewrite (bind_val _ _ _ _ _ E), Sc.
  exists evs. split; [reflexivity|exact O].
Qed.

Lemma notify_without_credentials_witness :
  exists evs,
    send_notifications [] "s1" contact_world
    = (inr [("fulfillmentText",
             JStr "✅ Order confirmation sent successfully via WhatsApp! You'll receive updates about your order status.");
            ("status_code", JStr "success")],
       with_trace (trace contact_world ++ evs) contact_world) /\
    outbound evs = [].
Proof.
  apply (notify_without_credentials [] "s1" "03001234567" contact_world).
  - reflexivity.
  - discriminate.
  - reflexivity.
  - reflexivity.
  - repeat split.
Defined.

(* ===================================================================== *)
(** ** The menu *)
(* ===================================================================== *)

Lemma greatest_id_bound docs :
  match Mongo.greatest_id docs with
  | Some m => In m docs /\ forall d, In d docs -> item_id d <= item_id m
  | None => docs = []
  end.
Proof.
  induction docs as [|d r IH]; simpl; [reflexivity|].
  destruct (Mongo.greatest_id r) as [m|].
  - destruct IH as [Im B]. destruct (item_id d <? item_id m) eqn:L.
    + apply Z.ltb_lt in L. split; [auto|]. intros x [<-|I]; [lia|auto].
    + apply Z.ltb_ge in L. split; [auto|]. intros x [<-|I]; [lia|].
      specialize (B x I). lia.
  - subst r. split; [auto|]. intros x [<-|[]]. lia.
Qed.

Lemma drop_id_fresh id d : forall l,
  (forall x, In x l -> item_id x <> id) -> item_id d = id ->
  Mongo.drop_id id (l ++ [d]) = l.
Proof.
  intros l. induction l as [|y l IH]; intros F E; simpl.
  - now rewrite E, Z.eqb_refl.
  - destruct (item_id y =? id) eqn:Q.
    + apply Z.eqb_eq in Q. exfalso. apply (F y); simpl; auto.
    + f_equal. apply IH; [|exact E]. intros x I. apply F. simpl; auto.
Qed.

Lemma drop_id_absent id : forall l,
  existsb (fun d => item_id d =? id) l = false -> Mongo.drop_id id l = l.
Proof.
  induction l as [|y l IH]; simpl; [reflexivity|].
  intros H. apply orb_false_iff in H as [Q E]. rewrite Q. f_equal. auto.
Qed.

Lemma drop_id_present id : forall l,
  existsb (fun d => item_id d =? id) l = true ->
  S (List.length (Mongo.drop_id id l)) = List.length l /\
  forall d, item_id d <> id -> (In d (Mongo.drop_id id l) <-> In d l).
Proof.
  induction l as [|y l IH]; simpl; [discriminate|].
  destruct (item_id y =? id) eqn:Q.
  - intros _. split; [reflexivity|]. apply Z.eqb_eq in Q.
    intros d N. split; [auto|]. intros [<-|I]; [contradiction|exact I].
  - simpl. intros E. destruct (IH E) as [L M]. split; [now rewrite L|].
    intros d N. simpl. now rewrite (M d N).
Qed.

(** The identifier [add_menu_item] gives the next item. *)
Lemma next_id_fresh docs d :
  In d docs ->
  item_id d < match Mongo.greatest_id docs with
              | Some l => item_id l + 1
              | None => 1
              end.
Proof.
  intros I. pose proof (greatest_id_bound docs) as B.
  destruct (Mongo.greatest_id docs) as [m|].
  - destruct B as [_ B]. specialize (B d I). lia.
  - subst docs. contradiction.
Qed.

Lemma world_with_food w : Mongo.with_food (food_items w) w = w.
Proof. now destruct w. Qed.

(** [add_menu_item] under the fault schedule: two calls reach the server, and
    the document is encoded before the second is sent. *)
Lemma add_menu_item_eq item w :
  db_helper.add_menu_item item w =
  let d := FoodDoc (name item) (price item)
             match Mongo.greatest_id (food_items w) with
             | Some l => item_id l + 1
             | None => 1
             end in
  if faulty w then (inr false, advance w)
  else if faulty (advance w) then (inr false, advance (advance w))
  else if Mongo.encodable d
       then (inr true, Mongo.with_food (food_items w ++ [d]) (advance (advance w)))
       else (inr false, advance (advance w)).
Proof.
  unfold db_helper.add_menu_item, try_except, bind, Mongo.find_last_food,
    Mongo.insert_food, bind.
  rewrite call_eq. destruct (faulty w); [reflexivity|]. cbv beta iota zeta.
  rewrite call_eq. destruct (faulty (advance w)); [reflexivity|]. cbv beta iota zeta.
  change (food_items (advance w)) with (food_items w).
  destruct (Mongo.encodable _); reflexivity.
Qed.

(** The next identifier fits when every identifier of the menu has a
    successor that fits. *)
Lemma next_id_fits docs :
  (forall d, In d docs -> Mongo.fits_int64 (item_id d + 1) = true) ->
  Mongo.fits_int64 match Mongo.greatest_id docs with
                   | Some l => item_id l + 1
                   | None => 1
                   end = true.
Proof.
  intros H. pose proof (greatest_id_bound docs) as B.
  destruct (Mongo.greatest_id docs) as [m|]; [|reflexivity].
  destruct B as [I _]. exact (H m I).
Qed.

Lemma delete_menu_item_eq id w :
  db_helper.delete_menu_item id w =
  if faulty w then (inr false, advance w)
  else (inr (existsb (fun d => item_id d =? id) (food_items w)),
        Mongo.with_food (Mongo.drop_id id (food_items w)) (advance w)).
Proof.
  unfold db_helper.delete_menu_item, try_except, bind, Mongo.delete_food.
  rewrite call_eq. destruct (faulty w); [reflexivity|]. cbv beta iota zeta.
  change (food_items (advance w)) with (food_items w).
  destruct (existsb _ (food_items w)); reflexivity.
Qed.



(** X22.  [delete_menu_item] answers [True] only when the menu had an item of
    that identifier, and then exactly one item is gone and every item of
    another identifier is still there; when it answers [False] the menu is
    what it was.  On a store that answers the answer tells whether the
    identifier was on the menu. *)
Theorem delete_menu_item_removes_one (id : Z) (w : world) :
  exists (b : bool) w',
    db_helper.delete_menu_item id w = (inr b, w') /\
    inprogress_orders w' = inprogress_orders w /\
    user_contacts w' = user_contacts w /\
    (faults w = [] -> b = existsb (fun d => item_id d =? id) (food_items w)) /\
    if b
    then existsb (fun d => item_id d =? id) (food_items w) = true /\
         S (List.length (food_items w')) = List.length (food_items w) /\
         (forall d, item_id d <> id -> (In d (food_items w') <-> In d (food_items w)))
    else food_items w' = food_items w.
Proof.
  rewrite delete_menu_item_eq.
  destruct (faulty w) eqn:F1.
  { exists false, (advance w). do 3 (split; [reflexivity|]).
    split; [|reflexivity]. intros R. now rewrite (faulty_reliable _ R) in F1. }
  destruct (existsb (fun d => item_id d =? id) (food_items w)) eqn:E.
  - eexists true, _. split; [reflexivity|]. do 2 (split; [reflexivity|]).
    split; [reflexivity|]. split; [reflexivity|].
    cbn [food_items Mongo.with_food]. now apply drop_id_present.
  - eexists false, _. split; [reflexivity|]. do 2 (split; [reflexivity|]).
    split; [reflexivity|]. cbn [food_items Mongo.with_food]. now apply drop_id_absent.
Qed.

(** X23.  On a store that answers, for an item whose price fits in eight
    bytes and a menu whose identifiers all have a successor that fits, adding
    the item and deleting the identifier it was given brings the store back to
    what it was. *)
Theorem add_then_delete_menu_item (item : food_doc) (w : world) :
  faults w = [] ->
  match price item with Some p => Mongo.fits_int64 p = true | None => True end ->
  (forall d, In d (food_items w) -> Mongo.fits_int64 (item_id d + 1) = true) ->
  exists id w1,
    db_helper.add_menu_item item w = (inr true, w1) /\
    In (FoodDoc (name item) (price item) id) (food_items w1) /\
    db_helper.delete_menu_item id w1 = (inr true, w).
Proof.
  intros R Hp Hi. rewrite add_menu_item_eq. cbv zeta.
  rewrite (faulty_reliable _ R), !(advance_reliable _ R), (faulty_reliable _ R).
  assert (En : Mongo.encodable
                 (FoodDoc (name item) (price item)
                    match Mongo.greatest_id (food_items w) with
                    | Some l => item_id l + 1
                    | None => 1
                    end) = true).
  { unfold Mongo.encodable. cbn [item_id price]. rewrite (next_id_fits _ Hi).
    destruct (price item); [now rewrite Hp|reflexivity]. }
  rewrite En.
  eexists _, _. split; [reflexivity|].
  split; [cbn [food_items Mongo.with_food]; apply in_or_app; right; left; reflexivity|].
  rewrite delete_menu_item_eq.
  set (w1 := Mongo.with_food _ w).
  assert (R1 : faults w1 = []) by exact R.
  rewrite (faulty_reliable _ R1), (advance_reliable _ R1).
  unfold w1. cbn [food_items Mongo.with_food].
  rewrite existsb_app. simpl. rewrite Z.eqb_refl, orb_true_r.
  rewrite drop_id_fresh; [|intros x I E|reflexivity].
  - f_equal. destruct w; reflexivity.
  - pose proof (next_id_fresh _ _ I) as L. rewrite E in L. lia.
Qed.

Lemma add_then_delete_menu_item_witness :
  exists id w1,
    db_helper.add_menu_item (FoodDoc "Samosa" (Some 3) 0) sample_world = (inr true, w1) /\
    In (FoodDoc "Samosa" (Some 3) id) (food_items w1) /\
    db_helper.delete_menu_item id w1 = (inr true, sample_world).
Proof.
  apply (add_then_delete_menu_item (FoodDoc "Samosa" (Some 3) 0) sample_world).
  - reflexivity.
  - reflexivity.
  - intros d [<-|[<-|[]]]; reflexivity.
Defined.

(* ===================================================================== *)
(** ** The names the carts hold *)
(* ===================================================================== *)

Lemma get_in {V} k (v : V) d : Dict.get k d = Some v -> In (k, v) d.
Proof.
  induction d as [|[k' v'] r IH]; simpl; [discriminate|].
  destruct (String.eqb_spec k k'); [intros [= ->]; subst; auto|auto].
Qed.

Lemma get_in_keys {V} k (v : V) d : Dict.get k d = Some v -> In k (Dict.keys d).
Proof. intros G. apply get_in in G. unfold Dict.keys. now apply (in_map fst) in G. Qed.

Lemma in_set {V} k (v : V) d x :
  In x (Dict.set k v d) -> x = (k, v) \/ In x d.
Proof.
  induction d as [|[k' v'] r IH]; simpl; [intuition|].
  destruct (String.eqb k k'); simpl; intuition.
Qed.

Lemma in_remove_first {V} k (d : Dict.t V) x : In x (Dict.remove_first k d) -> In x d.
Proof.
  induction d as [|[k' v'] r IH]; simpl; [auto|].
  destruct (String.eqb k k'); simpl; intuition.
Qed.

Lemma keys_remove {V} k (d : Dict.t V) x :
  In x (Dict.keys (Dict.remove k d)) -> In x (Dict.keys d).
Proof.
  unfold Dict.keys, Dict.remove. intros I. apply in_map_iff in I as (kv & <- & I).
  apply filter_In in I as [I _]. now apply in_map.
Qed.

Lemma keys_merge l : forall c x,
  In x (Dict.keys (merge_items l c)) -> In x (map fst l) \/ In x (Dict.keys c).
Proof.
  unfold merge_items. induction l as [|[k q] l IH]; simpl; intros c x I; [auto|].
  apply IH in I as [I|I]; [auto|]. apply keys_set in I as [->|I]; auto.
Qed.

Lemma names_clean items x : In x (names_of items) -> clean_name x.
Proof.
  unfold names_of. intros I. apply in_flat_map in I as (v & _ & I).
  destruct v; try contradiction. destruct I as [<-|[]]. apply sanitized_clean.
Qed.

Lemma store_clean_cart sid w :
  store_clean w ->
  forall k, In k (Dict.keys (if faulty w then [] else cart_of sid w)) -> clean_name k.
Proof.
  intros H k I. destruct (faulty w); [contradiction|].
  unfold cart_of in I.
  destruct (Dict.get sid (inprogress_orders w)) as [c|] eqn:G; [|contradiction].
  exact (H sid c (get_in _ _ _ G) k I).
Qed.

Lemma store_clean_set sid c w :
  store_clean w -> (forall k, In k (Dict.keys c) -> clean_name k) ->
  store_clean (snd (set_order sid c w)).
Proof.
  intros H C. rewrite set_order_eq. destruct (faulty w); simpl; [exact H|].
  intros s c' I. apply in_set in I as [[= -> ->]|I]; [exact C|exact (H s c' I)].
Qed.

Lemma store_clean_delete sid w :
  store_clean w -> store_clean (snd (delete_order sid w)).
Proof.
  intros H. rewrite delete_order_eq. destruct (faulty w); simpl; [exact H|].
  intros s c I. apply in_remove_first in I. exact (H s c I).
Qed.

(** [add_to_order] keeps the names of every persisted cart clean. *)
Lemma add_to_order_clean p sid w :
  store_clean w -> store_clean (snd (add_to_order p sid w)).
Proof.
  intros H.
  destruct (fst (validate_order_params p)) eqn:V.
  2:{ unfold add_to_order. destruct (validate_order_params p) as [b msg].
      simpl in V; subst b. exact H. }
  destruct (validate_ok _ V) as (items & F & NE & S & Q).
  destruct (truthy (param_get "number" p)) eqn:T.
  - destruct (Q eq_refl) as (qs & zs & N & L & Hz & P).
    rewrite (add_to_order_valid p sid w items qs zs V F S N Hz).
    destruct (add_items_spec (Dict.of_zip [] (names_of items) zs)
                (if faulty w then [] else cart_of sid w) (advance w))
      as (o & f & E & _ & O).
    rewrite E. destruct o as [r|c]; [exact H|].
    destruct O as [-> _]. apply store_clean_set; [exact H|].
    intros k I. apply keys_merge in I as [I|I].
    + apply (keys_of_zip (names_of items) zs [] k) in I as [I|[]].
      exact (names_clean items k I).
    + exact (store_clean_cart sid w H k I).
  - unfold add_to_order. destruct (validate_order_params p) as [b msg].
    simpl in V; subst b. simpl.
    unfold try_except, bind, lift.
    rewrite (param_item_get _ _ _ F) by discriminate. simpl.
    rewrite (proj1 (sanitize_all_strs _ S)).
    unfold param_get in T. unfold param_item.
    destruct (Dict.get "number" p) as [v|]; [|exact H].
    assert (E : py_iter v = inr [] \/ exists e, py_iter v = inl e).
    { destruct v as [| | |s|l|d]; simpl in *; eauto.
      - destruct s; [auto|discriminate].
      - destruct l; [auto|discriminate].
      - destruct d; [auto|discriminate]. }
    destruct E as [->|[e ->]]; [|exact H]. simpl.
    rewrite get_order_eq.
    replace (Dict.of_zip [] (names_of items) []) with (@nil (string * Z))
      by (destruct (names_of items); reflexivity).
    change (add_items [] ?c ?w0) with (@inr exn (response + cart) (inr c), w0).
    pose proof (store_clean_set sid _ (advance w) H (store_clean_cart sid w H)) as K.
    cbv beta iota. destruct (set_order sid _ (advance w)) as [[e|[]] w2]; exact K.
Qed.

(** The removal loop only takes names away. *)
Lemma remove_loop_clean l : forall st w,
  (forall k, In k (Dict.keys (current st)) -> clean_name k) ->
  exists res, for_each l remove_step st w = (res, w) /\
              forall st', res = inr st' ->
                          forall k, In k (Dict.keys (current st')) -> clean_name k.
Proof.
  induction l as [|[item qty] l IH]; intros st w C.
  - exists (inr st). split; [reflexivity|]. intros st' E. now inversion E; subst.
  - rewrite for_each_cons.
    destruct (Dict.get item (current st)) as [have|] eqn:G.
    + rewrite (remove_step_present item qty st w have G).
      apply IH. simpl. intros k I. apply C. now apply keys_remove in I.
    + rewrite (remove_step_absent item qty st w G).
      eexists. split; [reflexivity|]. discriminate.
Qed.

(** [remove_from_order] keeps the names of every persisted cart clean. *)
Lemma remove_from_order_clean p sid w :
  store_clean w -> store_clean (snd (remove_from_order p sid w)).
Proof.
  intros H.
  destruct (fst (validate_order_params p)) eqn:V.
  2:{ unfold remove_from_order. destruct (validate_order_params p) as [b msg].
      simpl in V; subst b. exact H. }
  destruct (validate_ok _ V) as (items & F & _).
  rewrite (remove_from_order_valid p sid w items V F).
  destruct (remove_loop_clean
              (zip (names_of items) (requested p (List.length items)))
              (Removal (if faulty w then [] else cart_of sid w) [] []) (advance w)
              (store_clean_cart sid w H)) as (res & -> & C).
  destruct res as [e|st]; [exact H|]. simpl.
  specialize (C st eq_refl).
  destruct (current st) eqn:Cs.
  - now apply (store_clean_delete sid (advance w)).
  - apply (store_clean_set sid _ (advance w)); [exact H|]. exact C.
Qed.

(** X24.  Whatever sequence of add and remove requests and store outages led
    to a store from an empty one, every item name in every persisted cart is
    a sanitized name: at most 30 characters, all lower-case letters, digits,
    hyphens or spaces. *)
Theorem cart_names_are_sanitized (w : world) :
  reachable w ->
  forall sid item q, Dict.get item (cart_of sid w) = Some q ->
    str_forall clean_char item = true /\ (String.length item <= 30)%nat.
Proof.
  intros R.
  assert (P : store_clean w).
  { induction R as [w E|w p sid R IH|w p sid R IH|w f R IH].
    - intros s c I. rewrite E in I. contradiction.
    - now apply add_to_order_clean.
    - now apply remove_from_order_clean.
    - exact IH. }
  intros sid item q G.
  apply (store_clean_cart sid (with_faults [] w) P). simpl.
  exact (get_in_keys _ _ _ G).
Qed.

Lemma cart_names_are_sanitized_witness :
  let w := snd (add_to_order [("food-item", PList [PStr "  BURGER!! "]);
                              ("number", PList [PStr "2"])] "s2" fresh_world) in
  reachable w /\ Dict.get "burger" (cart_of "s2" w) = Some 2 /\
  str_forall clean_char "burger" = true /\ (String.length "burger" <= 30)%nat.
Proof.
  cbv zeta.
  assert (R : reachable
                (snd (add_to_order [("food-item", PList [PStr "  BURGER!! "]);
                                    ("number", PList [PStr "2"])] "s2" fresh_world))).
  { apply reach_add, reach_fresh. reflexivity. }
  split; [exact R|]. split; [reflexivity|].
  apply (cart_names_are_sanitized _ R "s2" "burger" 2). reflexivity.
Defined.

(* ===================================================================== *)
(** ** Adding and taking back *)
(* ===================================================================== *)

Lemma remove_absent {V} k (d : Dict.t V) : Dict.get k d = None -> Dict.remove k d = d.
Proof.
  unfold Dict.remove. induction d as [|[k' v'] r IH]; simpl; [reflexivity|].
  destruct (String.eqb k k'); [discriminate|]. simpl. intros G. now rewrite IH.
Qed.

(** A request for one item with one quantity. *)
Lemma single_request_valid raw qv z :
  py_int qv = inr z -> 0 < z ->
  let p := [("food-item", PList [PStr raw]); ("number", PList [qv])] in
  fst (validate_order_params p) = true /\
  py_ints [qv] = inr [z] /\
  requested p 1 = [z].
Proof.
  intros Hq Pz p.
  assert (I : py_ints [qv] = inr [z]) by (simpl; now rewrite Hq).
  split; [|split; [exact I|]].
  - apply (validate_with_quantities p [PStr raw]); try reflexivity; [discriminate|].
    exists [qv], [z]. split; [reflexivity|]. split; [reflexivity|].
    split; [exact I|]. simpl. apply Z.ltb_lt in Pz. now rewrite Pz.
  - unfold requested. change (param_get "number" p) with (PList [qv]).
    cbn [truthy]. now rewrite I.
Qed.

(** X25.  On a store that answers and keeps one cart record per session, with
    quantities that fit in eight bytes in the cart and in the request, adding
    an item the cart does not hold and then removing it brings the session's
    cart back to what it was: the first request puts the quantity in the cart,
    the second answers success. *)
Theorem add_then_remove_restores_cart
  (w : world) (sid raw : string) (qv : pyval) (z : Z) :
  faults w = [] ->
  NoDup (Dict.keys (inprogress_orders w)) ->
  in_catalog (food_items w) (sanitize_food_item raw) = true ->
  py_int qv = inr z -> 0 < z ->
  Dict.mem (sanitize_food_item raw) (cart_of sid w) = false ->
  Mongo.fits_int64 z = true -> cart_fits (cart_of sid w) = true ->
  let p := [("food-item", PList [PStr raw]); ("number", PList [qv])] in
  exists r1 w1 r2 w2,
    add_to_order p sid w = (inr r1, w1) /\
    held (cart_of sid w1) (sanitize_food_item raw) = z /\
    remove_from_order p sid w1 = (inr r2, w2) /\
    status_of r2 = Some (JStr "success") /\
    cart_of sid w2 = cart_of sid w.
Proof.
  intros R U K Hq Pz A Fz Fc p.
  destruct (single_request_valid raw qv z Hq Pz) as (V & I & Rq). fold p in V, Rq.
  set (name := sanitize_food_item raw) in *.
  assert (G : Dict.get name (cart_of sid w) = None).
  { unfold Dict.mem in A. now destruct (Dict.get name (cart_of sid w)). }
  set (c1 := Dict.set name (0 + z) (cart_of sid w)).
  set (w1 := with_orders (Dict.set sid c1 (inprogress_orders w)) w).
  assert (E1 : add_to_order p sid w = (inr (added c1), w1)).
  { rewrite (add_to_order_valid p sid w [PStr raw] [qv] [z] V eq_refl eq_refl eq_refl I).
    rewrite (faulty_reliable _ R), (advance_reliable _ R).
    change (Dict.of_zip [] (names_of [PStr raw]) [z]) with [(name, z)].
    destruct (add_items_spec [(name, z)] (cart_of sid w) w) as (o & f & E & Rf & O).
    rewrite E, (Rf R).
    replace (with_faults [] w) with w by (rewrite <- R; symmetry; apply with_faults_same).
    destruct o as [r|c'].
    - destruct O as (item & [<-|[]] & _ & Nc). specialize (Nc R).
      simpl in Nc. fold name in Nc. rewrite K in Nc. discriminate.
    - destruct O as [-> _]. unfold merge_items. cbn [fold_left fst snd].
      rewrite G. fold c1.
      rewrite set_order_eq, (faulty_reliable _ R), (advance_reliable _ R). reflexivity. }
  assert (R1 : faults w1 = []) by exact R.
  assert (C1 : cart_of sid w1 = c1).
  { unfold cart_of, w1. cbn [inprogress_orders with_orders]. now rewrite get_set_same. }
  assert (H1 : Dict.get name c1 = Some (0 + z)) by apply get_set_same.
  exists (added c1), w1.
  assert (E2 : exists r2 w2,
             remove_from_order p sid w1 = (inr r2, w2) /\
             status_of r2 = Some (JStr "success") /\
             cart_of sid w2 = cart_of sid w).
  { rewrite (remove_from_order_valid p sid w1 [PStr raw] V eq_refl).
    rewrite (faulty_reliable _ R1), (advance_reliable _ R1), C1.
    change (List.length [PStr raw]) with 1%nat. rewrite Rq.
    change (zip (names_of [PStr raw]) [z]) with [(name, z)].
    rewrite for_each_cons.
    rewrite (remove_step_present name z (Removal c1 [] []) w1 (0 + z) H1).
    rewrite for_each_nil. cbn [current].
    assert (Rm : Dict.remove name c1 = cart_of sid w).
    { unfold c1. now rewrite remove_set_same, (remove_absent _ _ G). }
    rewrite !Rm. unfold removal_response. cbn [current].
    destruct (cart_of sid w) as [|kv c] eqn:C.
    - rewrite delete_order_eq, (faulty_reliable _ R1), (advance_reliable _ R1).
      eexists _, _. split; [reflexivity|]. split; [reflexivity|].
      unfold cart_of at 1. cbn [inprogress_orders with_orders snd].
      rewrite get_remove_first_unique; [reflexivity|].
      unfold w1. cbn [inprogress_orders with_orders].
      rewrite keys_set_eq. now apply nodup_add_key.
    - rewrite set_order_eq, (faulty_reliable _ R1), (advance_reliable _ R1).
      eexists _, _. split; [reflexivity|]. split; [reflexivity|].
      unfold cart_of at 1. cbn [inprogress_orders with_orders snd].
      now rewrite get_set_same. }
  destruct E2 as (r2 & w2 & E2 & St & C2).
  exists r2, w2. split; [exact E1|]. split; [|auto].
  rewrite C1. unfold held. rewrite H1. reflexivity.
Qed.

Lemma add_then_remove_restores_cart_witness :
  let p := [("food-item", PList [PStr "Burger"]); ("number", PList [PStr "2"])] in
  exists r1 w1 r2 w2,
    add_to_order p "s1" sample_world = (inr r1, w1) /\
    held (cart_of "s1" w1) (sanitize_food_item "Burger") = 2 /\
    remove_from_order p "s1" w1 = (inr r2, w2) /\
    status_of r2 = Some (JStr "success") /\
    cart_of "s1" w2 = cart_of "s1" sample_world.
Proof.
  apply (add_then_remove_restores_cart sample_world "s1" "Burger" (PStr "2") 2).
  - reflexivity.
  - constructor; [intros []|constructor].
  - reflexivity.
  - reflexivity.
  - reflexivity.
  - reflexivity.
  - reflexivity.
  - reflexivity.
Defined.
